(* ===== verification/_CoqProject ===== *)
-Q . S2P
Prelude.v
SeenSet.v
Url.v
Regex.v
ParseUint.v
Price.v
Fetch.v
Scraper.v
Refinement.v
Session.v
Test.v
