(* ===== verification/Prelude.v ===== *)
(** * A verification development of fb-mktplc-scraper

    The repository (Go, package [fbmktplcscraper]) drives a Selenium web
    browser over the Facebook Marketplace and delivers the listings it sees
    to a consumer over a Go channel.  Its parts and how they interact:

    - [src/product.go]: the [Product] record and [extractFirstCurrency], the
      price parser.  It applies the regular expression
      [^([^\d]+)([\d,]+)] with [regexp.FindStringSubmatch], strips the
      commas of the second group with [strings.ReplaceAll] and converts it
      with [strconv.ParseUint(_, 10, 64)].
    - [src/scraper.go]:
      - [Scraper] (the WebDriver, the map [Processed] of already delivered
        listing paths, the channel [Products]);
      - [fetchMoreProducts]: one poll of the page; for each listing anchor
        it reads [href], parses it with [url.Parse], skips paths already in
        [Processed], reads the text spans of the card (span 0 through
        [extractFirstCurrency], span 1 the name, span 2 the location),
        marks the path processed and appends the product;
      - [Start]: a goroutine looping forever on
        [select { case <-ctx.Done(): close(Products); default: ... }],
        which fetches while [len(Products) < 32] and sends every product
        of a batch on the channel;
      - [NewInstance], [handleCookiesAndDialogue], [waitForElement]: the
        browser session set-up (dismissing the cookie banner and the two
        pop-ups, polling for a delayed pop-up until a timeout).
    - [src/scraper_test.go]: [TestNewInstance], an integration test that
      builds a scraper, receives one listing and cancels.

    ** Files of this development (in dependency order)

    - [Prelude] (this file): the Go values every component shares (the
      error values, the [(T, error)] result type as [result] with a monad
      instance, Go's zero-valued map index [m .[ k ]]), the [go_scope]
      notations, the [go_index_simpl] tactic, the [scraper] hint
      databases and the list and map lemmas shared by the components.
    - [SeenSet]: the interface the fetch needs of [Processed], as the
      class [SeenSet] (read a path, mark a path) with its law
      [SeenSetLaws]; the Go map read with its zero value is one instance,
      a [gset] of paths (the abstract Seen-Set of the specification) the
      other; the equivalence [≡ₛ] of seen-sets marking the same paths, with
      its [Proper] instances, and the refinement relation [represents].
    - [Url]: [net/url]'s [Parse] as the code calls it (the parser of Go
      1.22, [parse] with [viaRequest = false]): the fragment, the scheme,
      the query with [ForceQuery], opaque URLs, the authority (user
      information, bracketed hosts with zones, ports), the path and the
      fragment through [unescape] and [escape] in every encoding mode, and
      the [*url.Error] wrapping.  It yields the [URL] record with all its
      fields, the type of [Product.Link].
    - [Regex]: the subset of Go's [regexp] the code uses: an AST with
      anchors, character classes, concatenation, capture groups and greedy
      star/plus; [bt] is a backtracking matcher in continuation-passing
      style, which is the leftmost-first semantics Go documents for
      submatches; [find_string_submatch] is [FindStringSubmatch].
    - [ParseUint]: [strconv.ParseUint] of Go 1.22 on a 64-bit platform,
      every base (with the prefixes and underscores of base 0) and every
      bit size, the uint64 arithmetic written modulo 2^64 with Go's two
      overflow checks; [parse_uint] is the call of the code, base 10 and
      bit size 64, as a specialised loop.
    - [Price]: [extractFirstCurrency] composed from the three above.
    - [Fetch]: the page as the WebDriver answers it (an explicit snapshot
      of the answers of [FindElements]/[GetAttribute], each of which may
      fail), the URL parser as a parameter of a Section (its theorems hold
      for every parser; [Url.Parse] instantiates it in the examples and in
      the composition theorems), and [fetchMoreProducts] written against
      the [SeenSet] interface; the code's [Processed] is its Go-map
      instance.
    - [Scraper]: the goroutine of [Start], the channel and the consumer as
      a labelled transition system on a global state, with its reachable
      states as an inductive predicate.
    - [Refinement]: the abstract pipeline of the specification (a
      Seen-Set and the emitted records, batch by batch, with stutter
      steps) and the refinement of the goroutine's states into it.
    - [Session]: [NewInstance], [handleCookiesAndDialogue] and
      [waitForElement] over a [driver] record of call results, with time
      as an explicit millisecond clock.
    - [Test]: [TestNewInstance] composed from [Session], [Fetch] and
      [Scraper]: the service calls as call results, the set-up, [Start],
      the blocking receive while the goroutine fetches, and [cancel()].

    ** What the theorems show

    - Regex ([Regex], used by [Price]): the matcher's greedy star over a
      class is a descending search ([bt_star_class]); an anchored pattern
      is tried at position 0 only.
    - ParseUint: on a digit string the result is the decimal value when it
      is at most 2^64 - 1 and the range error otherwise, no wrap-around
      going unnoticed (bounds, C9); a non-digit gives the syntax error
      unless the digits before it already overflow (error, C14).  The
      code's call, [ParseUint number 10 64], runs the specialised loop
      [parse_uint] on every input (lemma [ParseUint_10_64]).
    - Price: running the matcher on the price pattern equals a direct scan
      ([price_scan], equivalence, C7); the success branch (C8), the missing
      currency (C13) and the missing digits (C12).
    - Url: the path, the key of [Processed], does not depend on the query
      string or the fragment of an [href] (C20); [Parse] on the [href] of
      a listing, field by field (C21); a control byte before the first [#]
      makes [Parse] fail (C22); two spellings of a path that unescape to
      the same bytes give the same key (equivalence, C26), and so do the
      relative and the absolute form of a listing's [href] (C27).
    - Fetch, against the [SeenSet] interface: a successful fetch returns
      fresh, pairwise distinct paths and marks exactly them (invariant,
      C5); when every listing can be read the fetch over any lawful
      seen-set refines the abstract filter [dedup_batch] over a [gset]
      (refinement, C6).  With [Url.Parse], a listing listed again under
      another query string is skipped without reading its card (C23).
    - Scraper, by induction on [reachable] with the invariant [inv]: no
      path is received twice (C1); received ++ buffered ++ pending is the
      sequence of fetched products (order, C2); the channel is closed only
      after cancellation and never during a send (C11); after
      cancellation the loop closes the channel and panics on the second
      [close] (C3, a bug); under a consumer that keeps receiving, a
      cancelled goroutine closes the channel and crashes within
      [|pending| + 3] rounds (liveness, C17, proved with the decreasing
      [drain_measure]); after a fetch error the channel is never closed and
      the consumer blocks (C4); a [url.Parse] error crashes the program
      instead of skipping the listing (C18); a fetch that fails in the
      middle of a batch makes the goroutine return with the listings read
      so far marked in [Processed] and never delivered (C24); with the
      parser of [net/url], a listing whose path holds a malformed percent
      escape is such an error and crashes the program (C28).
    - Session: [waitForElement] terminates within [wait_fuel timeout]
      iterations (C15: fuel [ceil(timeout/500) + 1] is enough since every
      iteration sleeps 500 ms); [NewInstance] fails whenever the
      Shop-local pop-up never shows up (C16, a bug of the code); the
      channel of the scraper [NewInstance] returns stays empty in every
      state the program reaches from it, so [len(i.Products) < 32] never
      throttles (C10).
    - Test: after the test has cancelled, with nobody receiving, the
      goroutine stays blocked on its send for ever, or, when the batch had
      one product, closes the channel and panics (C19); the test receives
      its listing, also when the first fetches return empty batches (C25);
      when the first fetch fails, it blocks for ever (C30).
    - Refinement: while the goroutine runs, every reachable state is
      related to a reachable state of the abstract pipeline: [Processed]
      marks exactly its Seen-Set and the fetched products are the records
      it emitted (C29, by a one-step simulation and induction on
      [reachable]); in the abstract pipeline the Seen-Set is the set of
      emitted identifiers and none is emitted twice.

    The channel capacity of the transition system is a parameter: the code
    uses 0 ([NewInstance_state]); the theorems hold for every capacity.
    The clock of [Session] is idealised: a [FindElement] takes [probe_ms],
    [IsDisplayed] no time and [time.Sleep(500ms)] exactly 500 ms (Go
    promises at least 500 ms), so the model bounds the number of probes
    (C15), not the wall-clock time at which [waitForElement] returns.
    [find_and_click] assumes that [FindElement] reports a missing element
    as an error, so the [!= nil] tests of [handleCookiesAndDialogue]
    always hold.

    ** Coverage

    Every function of [src/] is modelled: [extractFirstCurrency], the
    [Scraper] struct, [NewInstance], [Start] and its goroutine,
    [fetchMoreProducts], [handleCookiesAndDialogue], [waitForElement] and
    [TestNewInstance].  Of the libraries they call, [strconv.ParseUint] is
    modelled whole, [url.Parse] whole as of Go 1.22, and [regexp] for the
    constructs of the one pattern the code compiles.

    ** Not modelled

    The browser itself (Selenium, XPath evaluation), logging and
    [fmt.Println] (no effect on the state), and the ChromeDriver service
    (its start and stop are call results of [Test.test_env]).  Of
    [net/url], the stricter host checks added after Go 1.22 and the texts
    of the error values; the other functions of the package are not
    called by the code.  Of [regexp], alternation, repetition counts,
    flags, Unicode classes and the compilation of other patterns: the
    code compiles one constant pattern, which uses none of them.  Of
    [strconv], 32-bit platforms ([IntSize = 32] only matters for
    [bitSize = 0], which the code never passes).
    Go strings are modelled as byte strings ([string] of [ascii]); the
    regular expression only distinguishes ASCII digits and commas, which
    are one-byte runes, so matching on bytes agrees with Go's matching on
    runes. *)

From stdpp Require Export base list strings gmap.
From Stdlib Require Export Ascii ZArith Lia.

(** ** Go values shared by every component *)

(** The errors the code can produce or receive.  [NumError] is
    [*strconv.NumError] with its [Err] field, [FmtError] an error of
    [fmt.Errorf], [DriverError] an error returned by the WebDriver,
    [UrlError] a [*url.Error] of [url.Parse] wrapping the error of the
    step that failed: an [errors.New] value ([ErrorString]), a
    [url.EscapeError], a [url.InvalidHostError], or the error
    [fmt.Errorf("invalid port %q after host", colonPort)] of [parseHost]
    ([InvalidPortError], its text not modelled). *)
Inductive num_error_kind :=
| ErrSyntax | ErrRange
| ErrBase (base : Z)          (** [errors.New("invalid base " + Itoa(base))] *)
| ErrBitSize (bitSize : Z).   (** [errors.New("invalid bit size " + Itoa(bitSize))] *)

Inductive go_error :=
| NumError (func num : string) (kind : num_error_kind)
| FmtError (msg : string)
| DriverError (what : string)
| ErrorString (msg : string)
| EscapeError (s : string)
| InvalidHostError (s : string)
| InvalidPortError (colonPort : string)
| UrlError (op url : string) (err : go_error).

(** A Go function returning [(T, error)] where the callers discard [T]
    whenever the error is not [nil]. *)
Inductive result (A : Type) :=
| Ok (a : A)
| Err (e : go_error).
Arguments Ok {A} a.
Arguments Err {A} e.

#[export] Instance result_ret : MRet result := fun _ a => Ok a.
#[export] Instance result_bind : MBind result :=
  fun _ _ f m => match m with Ok a => f a | Err e => Err e end.

Definition is_ok {A} (r : result A) : bool :=
  match r with Ok _ => true | Err _ => false end.

Declare Scope go_scope.
Delimit Scope go_scope with go.

(** Go's index of a [map[string]bool]: the zero value [false] when the key
    is absent. *)
Notation "m .[ k ]" := (default false (m !! k))
  (at level 1, format "m .[ k ]") : go_scope.

Open Scope go_scope.

(** ** Tactics *)

(** Rewrite Go map reads after writes ([go_index_insert]). *)
Ltac go_index_simpl := autorewrite with scraper_rw.

Create HintDb scraper discriminated.
Create Rewrite HintDb scraper_rw.

(** ** Shared lemmas *)

Lemma result_bind_ok {A B} (m : result A) (f : A -> result B) b :
  (m ≫= f) = Ok b -> exists a, m = Ok a /\ f a = Ok b.
Proof. destruct m; simpl; [eauto | discriminate]. Qed.

Lemma result_bind_err {A B} (m : result A) (f : A -> result B) e :
  m = Err e -> (m ≫= f) = Err e.
Proof. now intros ->. Qed.

Lemma go_index_insert (m : gmap string bool) k k' v :
  (<[k := v]> m).[k'] = if decide (k = k') then v else m.[k'].
Proof. rewrite lookup_insert. case_decide; done. Qed.

#[export] Hint Rewrite @go_index_insert : scraper_rw.

Lemma find_ext_in {A} (f g : A -> bool) (l : list A) :
  (forall x, In x l -> f x = g x) -> find f l = find g l.
Proof.
  induction l as [|a l IH]; intros H; simpl; [reflexivity|].
  rewrite (H a) by (left; reflexivity).
  destruct (g a); [reflexivity|]. apply IH. intros x Hx. apply H. right. exact Hx.
Qed.

Lemma find_none_forall {A} (f : A -> bool) (l : list A) :
  (forall x, In x l -> f x = false) -> find f l = None.
Proof.
  induction l as [|a l IH]; intros H; simpl; [reflexivity|].
  rewrite (H a) by (left; reflexivity). apply IH. intros x Hx. apply H. right. exact Hx.
Qed.

Lemma find_exists_some {A} (f : A -> bool) (l : list A) x :
  In x l -> f x = true -> exists y, find f l = Some y.
Proof.
  intros Hx Hf. destruct (find f l) as [y|] eqn:E; [eauto|].
  rewrite (find_none f l E x Hx) in Hf. discriminate.
Qed.
