(* ===== verification/SeenSet.v ===== *)
(** * SeenSet: the interface of the Seen-Set

    [fetchMoreProducts] asks two things of [Scraper.Processed]: whether a
    listing path was already delivered ([i.Processed[u.Path] != false]) and
    to mark a path as delivered ([i.Processed[u.Path] = true]).  The class
    [SeenSet] is that interface and [SeenSetLaws] its law (a read after a
    mark).  The Go map of the code, a [gmap string bool] read with its zero
    value, is one instance; a [gset] of paths, the abstract Seen-Set of the
    specification, is the other.  [Fetch] is written and proved against
    the interface and [Scraper] instantiates it with the Go map.

    Two seen-sets are equivalent ([≡ₛ]) when they mark the same paths: it
    is coarser than equality on Go maps, where an entry [false] reads as an
    absent key.  [represents s g] relates a seen-set to the set of paths it
    marks; it is the refinement relation of [Fetch]. *)

From S2P Require Import Prelude.

Module SeenSet.

Class SeenSet (S : Type) := {
  seen_has : S -> string -> bool;
  seen_mark : string -> S -> S
}.

Class SeenSetLaws (S : Type) `{SeenSet S} := {
  seen_has_mark k k' s : seen_has (seen_mark k s) k' = bool_decide (k = k') || seen_has s k'
}.

(** [i.Processed[u.Path] != false] and [i.Processed[u.Path] = true]. *)
#[export] Instance go_map_seen : SeenSet (gmap string bool) := {
  seen_has m k := m.[k];
  seen_mark k m := <[k := true]> m
}.

(** The abstract Seen-Set of the specification: the set of delivered paths. *)
#[export] Instance gset_seen : SeenSet (gset string) := {
  seen_has g k := bool_decide (k ∈ g);
  seen_mark k g := {[k]} ∪ g
}.

Definition seen_equiv {S} `{SeenSet S} (s1 s2 : S) : Prop :=
  forall k, seen_has s1 k = seen_has s2 k.

Infix "≡ₛ" := seen_equiv (at level 70, no associativity) : go_scope.

Definition represents {S} `{SeenSet S} (s : S) (g : gset string) : Prop :=
  forall k, seen_has s k = bool_decide (k ∈ g).

(** ** The two implementations satisfy the law *)

#[export] Instance go_map_laws : SeenSetLaws (gmap string bool).
Proof.
  constructor. intros k k' m. cbn [seen_has seen_mark go_map_seen].
  rewrite go_index_insert. case_decide; [rewrite bool_decide_true by done; reflexivity|].
  rewrite bool_decide_false by done. reflexivity.
Qed.

#[export] Instance gset_laws : SeenSetLaws (gset string).
Proof.
  constructor. intros k k' g. cbn [seen_has seen_mark gset_seen].
  apply eq_bool_prop_intro.
  rewrite orb_True, !bool_decide_spec, elem_of_union, elem_of_singleton. split; intros [->|?]; auto.
Qed.

(** ** The equivalence of seen-sets and its morphisms *)

Section Equiv.
Context {S : Type} `{SeenSetLaws S}.

#[export] Instance seen_equiv_equivalence : Equivalence (@seen_equiv S _).
Proof.
  split; [intros s k; reflexivity | intros s1 s2 E k; symmetry; apply E
         | intros s1 s2 s3 E1 E2 k; rewrite E1; apply E2].
Qed.

#[export] Instance seen_has_proper : Proper (seen_equiv ==> eq ==> eq) (@seen_has S _).
Proof. intros s1 s2 E k ? <-. apply E. Qed.

#[export] Instance seen_mark_proper : Proper (eq ==> seen_equiv ==> seen_equiv) (@seen_mark S _).
Proof. intros k ? <- s1 s2 E k'. rewrite !seen_has_mark, E. reflexivity. Qed.

Lemma represents_mark s g k :
  represents s g -> represents (seen_mark k s) ({[k]} ∪ g).
Proof.
  intros Hr k'. rewrite seen_has_mark, Hr. apply eq_bool_prop_intro.
  rewrite orb_True, !bool_decide_spec, elem_of_union, elem_of_singleton. split; intros [->|?]; auto.
Qed.

Lemma represents_proper s1 s2 g : s1 ≡ₛ s2 -> represents s1 g -> represents s2 g.
Proof. intros E Hr k. rewrite <- E. apply Hr. Qed.

End Equiv.

(** ** The Go map *)

(** A key mapped to [false] reads as an absent key. *)
Lemma go_map_false_equiv (m : gmap string bool) k :
  <[k := false]> m ≡ₛ delete k m.
Proof.
  intros k'. cbn [seen_has go_map_seen]. rewrite go_index_insert.
  destruct (decide (k = k')) as [<-|Hne]; [rewrite lookup_delete_eq; reflexivity|].
  rewrite lookup_delete_ne by exact Hne. reflexivity.
Qed.

End SeenSet.
