(* ===== verification/Url.v ===== *)
(** * Url: [url.Parse] as [fetchMoreProducts] calls it

    [fetchMoreProducts] parses the [href] of every listing with
    [url.Parse(href)] and keys [Processed] on the resulting [u.Path].
    This file writes the parser of Go's [net/url] (parse.go of Go 1.22,
    [viaRequest = false]) over byte strings: [Parse] cuts the fragment and
    wraps the errors of [parse] in a [*url.Error]; [parse] rejects control
    bytes, splits off the scheme ([getScheme]), the query (with
    [ForceQuery]), an opaque part or an authority ([parseAuthority],
    [parseHost]: user information, IP literals with zones, ports), and
    sets the path ([setPath]) and the fragment ([setFragment]) by
    [unescape], with [escape] deciding whether the raw form must be kept.

    The theorems: [escape] and [unescape] are inverse in every mode but the
    host modes; the path, the key of the Seen-Set, does not depend on the
    query string or on the fragment of an [href], and is the unescaped
    path, so that two spellings of one path share their key; [Parse] on
    the URLs of the listings; and a control byte makes [Parse] fail. *)

From S2P Require Import Prelude.

Module Url.

Local Abbreviation bytes := String.list_ascii_of_string.
Local Abbreviation str := String.string_of_list_ascii.

(** [net/url.Userinfo]: [User(username)] or [UserPassword(username, password)]. *)
Record userinfo := Userinfo {
  username : string;
  password : string;
  passwordSet : bool
}.

(** [net/url.URL]. *)
Record url := URL {
  url_scheme : string;
  url_opaque : string;
  url_user : option userinfo;
  url_host : string;
  url_path : string;
  url_raw_path : string;
  url_omit_host : bool;
  url_force_query : bool;
  url_raw_query : string;
  url_fragment : string;
  url_raw_fragment : string
}.

#[export] Instance userinfo_eq_dec : EqDecision userinfo.
Proof. solve_decision. Defined.
#[export] Instance url_eq_dec : EqDecision url.
Proof. solve_decision. Defined.

(** [new(URL)]. *)
Definition empty_url : url := URL "" "" None "" "" "" false false "" "" "".

(** [type encoding int] and its constants. *)
Inductive encoding :=
| EncodePath | EncodePathSegment | EncodeHost | EncodeZone
| EncodeUserPassword | EncodeQueryComponent | EncodeFragment.

#[export] Instance encoding_eq_dec : EqDecision encoding.
Proof. solve_decision. Defined.

(** ** Bytes *)

Definition between (lo hi : nat) (c : ascii) : bool :=
  (lo <=? nat_of_ascii c) && (nat_of_ascii c <=? hi).

Definition is_alpha (c : ascii) : bool := between 97 122 c || between 65 90 c.
Definition is_dec_digit (c : ascii) : bool := between 48 57 c.
Definition is_alnum (c : ascii) : bool := is_alpha c || is_dec_digit c.

Definition ishex (c : ascii) : bool := is_dec_digit c || between 97 102 c || between 65 70 c.

Definition unhex (c : ascii) : nat :=
  if is_dec_digit c then nat_of_ascii c - 48
  else if between 97 102 c then nat_of_ascii c - 97 + 10
  else if between 65 70 c then nat_of_ascii c - 65 + 10
  else 0.

(** [const upperhex = "0123456789ABCDEF"]. *)
Definition upperhex : list ascii := bytes "0123456789ABCDEF".
Definition hex_digit (n : nat) : ascii := nth n upperhex "0"%char.

(** The double-quote byte (34), which a string literal cannot hold here. *)
Definition quote_char : ascii := ascii_of_nat 34.

(** [stringContainsCTLByte]: a byte below [0x20] or [0x7f]. *)
Definition is_ctl (c : ascii) : bool := (nat_of_ascii c <? 32) || (nat_of_ascii c =? 127).
Definition stringContainsCTLByte (s : list ascii) : bool := existsb is_ctl s.

Definition has_prefix (p l : list ascii) : bool := bool_decide (take (length p) l = p).

(** [strings.Cut(s, sep)] for a one-byte [sep]. *)
Fixpoint cut (c : ascii) (l : list ascii) : list ascii * list ascii * bool :=
  match l with
  | [] => ([], [], false)
  | a :: l' =>
      if ascii_dec a c then ([], l', true)
      else let '(x, y, f) := cut c l' in (a :: x, y, f)
  end.

(** [i := strings.LastIndex(s, sep)] for a one-byte [sep]: [s[:i]] and
    [s[i+1:]] when [i >= 0]. *)
Definition cut_last (c : ascii) (l : list ascii) : option (list ascii * list ascii) :=
  match cut c (rev l) with
  | (x, y, true) => Some (rev y, rev x)
  | _ => None
  end.

(** [strings.Index(s, sub)]. *)
Fixpoint index_sub (sub l : list ascii) : option nat :=
  if has_prefix sub l then Some 0
  else match l with [] => None | _ :: l' => S <$> index_sub sub l' end.

(** [strings.ToLower] on ASCII. *)
Definition to_lower (l : list ascii) : list ascii :=
  map (fun c => if between 65 90 c then ascii_of_nat (nat_of_ascii c + 32) else c) l.

(** ** Escaping *)

Definition host_sub_delims : list ascii := bytes "!$&'()*+,;=:[]<>" ++ [quote_char].

Definition is_host_mode (mode : encoding) : bool :=
  match mode with EncodeHost | EncodeZone => true | _ => false end.

(** [shouldEscape(c, mode)]. *)
Definition shouldEscape (c : ascii) (mode : encoding) : bool :=
  if is_alnum c then false
  else if is_host_mode mode && bool_decide (c ∈ host_sub_delims) then false
  else if bool_decide (c ∈ bytes "-_.~") then false
  else if bool_decide (c ∈ bytes "$&+,/:;=?@") then
    match mode with
    | EncodePath => bool_decide (c = "?"%char)
    | EncodePathSegment => bool_decide (c ∈ bytes "/;,?")
    | EncodeUserPassword => bool_decide (c ∈ bytes "@/?:")
    | EncodeQueryComponent => true
    | EncodeFragment => false
    | EncodeHost | EncodeZone => true
    end
  else if bool_decide (mode = EncodeFragment) && bool_decide (c ∈ bytes "!()*") then false
  else true.

(** [escape(s, mode)]: Go counts the bytes to escape to size its buffer
    and returns [s] itself when there are none; the result is the
    byte-by-byte translation below. *)
Definition escape_byte (mode : encoding) (c : ascii) : list ascii :=
  if bool_decide (c = " "%char) && bool_decide (mode = EncodeQueryComponent) then ["+"%char]
  else if shouldEscape c mode
  then ["%"%char; hex_digit (nat_of_ascii c / 16); hex_digit (nat_of_ascii c mod 16)]
  else [c].

Definition escape (s : list ascii) (mode : encoding) : list ascii :=
  List.flat_map (escape_byte mode) s.

(** The first loop of [unescape]: checks every [%] escape (and, in the
    host modes, the bytes) and counts the escapes [n]; [hasPlus] is
    reassigned at each [+]. *)
Fixpoint unescape_scan (mode : encoding) (l : list ascii) (n : nat) (hasPlus : bool)
    : result (nat * bool) :=
  match l with
  | [] => Ok (n, hasPlus)
  | c :: rest =>
      if ascii_dec c "%" then
        match rest with
        | a :: b :: rest' =>
            if ishex a && ishex b then
              if bool_decide (mode = EncodeHost) && (unhex a <? 8)
                 && negb (bool_decide ([c; a; b] = bytes "%25"))
              then Err (EscapeError (str [c; a; b]))
              else if bool_decide (mode = EncodeZone)
                      && negb (bool_decide ([c; a; b] = bytes "%25"))
                      && negb (unhex a * 16 + unhex b =? 32)
                      && shouldEscape (ascii_of_nat (unhex a * 16 + unhex b)) EncodeHost
              then Err (EscapeError (str [c; a; b]))
              else unescape_scan mode rest' (S n) hasPlus
            else Err (EscapeError (str (take 3 l)))
        | _ => Err (EscapeError (str (take 3 l)))
        end
      else if ascii_dec c "+" then
        unescape_scan mode rest n (bool_decide (mode = EncodeQueryComponent))
      else if is_host_mode mode && (nat_of_ascii c <? 128) && shouldEscape c mode then
        Err (InvalidHostError (str [c]))
      else unescape_scan mode rest n hasPlus
  end.

(** The second loop of [unescape], run once the first has accepted the
    string (so every [%] is followed by two hex digits). *)
Fixpoint unescape_decode (mode : encoding) (l : list ascii) : list ascii :=
  match l with
  | [] => []
  | c :: rest =>
      if ascii_dec c "%" then
        match rest with
        | a :: b :: rest' => ascii_of_nat (unhex a * 16 + unhex b) :: unescape_decode mode rest'
        | _ => []
        end
      else if ascii_dec c "+" then
        (if bool_decide (mode = EncodeQueryComponent) then " "%char else "+"%char)
          :: unescape_decode mode rest
      else c :: unescape_decode mode rest
  end.

(** [unescape(s, mode)]. *)
Definition unescape (s : list ascii) (mode : encoding) : result (list ascii) :=
  match unescape_scan mode s 0 false with
  | Err e => Err e
  | Ok (n, hasPlus) =>
      if (n =? 0) && negb hasPlus then Ok s else Ok (unescape_decode mode s)
  end.

(** ** Parsing *)

(** [getScheme(rawURL)]: [pre] is [rawURL[:i]]. *)
Fixpoint scheme_scan (pre l raw : list ascii) : result (list ascii * list ascii) :=
  match l with
  | [] => Ok ([], raw)
  | c :: rest =>
      if is_alpha c then scheme_scan (pre ++ [c]) rest raw
      else if is_dec_digit c || bool_decide (c ∈ bytes "+-.") then
        match pre with
        | [] => Ok ([], raw)
        | _ => scheme_scan (pre ++ [c]) rest raw
        end
      else if ascii_dec c ":" then
        match pre with
        | [] => Err (ErrorString "missing protocol scheme")
        | _ => Ok (pre, rest)
        end
      else Ok ([], raw)
  end.

Definition getScheme (raw : list ascii) : result (list ascii * list ascii) := scheme_scan [] raw raw.

(** [validOptionalPort(port)]. *)
Definition validOptionalPort (port : list ascii) : bool :=
  match port with
  | [] => true
  | c :: digits => bool_decide (c = ":"%char) && forallb is_dec_digit digits
  end.

(** [validUserinfo(s)]; Go ranges over runes, and a byte of a
    multi-byte rune is rejected like the rune. *)
Definition validUserinfo (s : list ascii) : bool :=
  forallb (fun c => is_alnum c || bool_decide (c ∈ bytes "-._:~!$&'()*+,;=%@")) s.

(** [parseHost(host)]. *)
Definition parseHost (host : list ascii) : result (list ascii) :=
  if has_prefix (bytes "[") host then
    match cut_last "]" host with
    | None => Err (ErrorString "missing ']' in host")
    | Some (inside, after) =>
        let i := length inside in
        if negb (validOptionalPort after) then Err (InvalidPortError (str after))
        else
          match index_sub (bytes "%25") inside with
          | Some zone =>
              unescape (take zone host) EncodeHost ≫= fun host1 =>
              unescape (drop zone (take i host)) EncodeZone ≫= fun host2 =>
              unescape (drop i host) EncodeHost ≫= fun host3 =>
              Ok (host1 ++ host2 ++ host3)
          | None => unescape host EncodeHost
          end
    end
  else
    match cut_last ":" host with
    | Some (_, port) =>
        if negb (validOptionalPort (":"%char :: port)) then Err (InvalidPortError (str (":"%char :: port)))
        else unescape host EncodeHost
    | None => unescape host EncodeHost
    end.

(** [parseAuthority(authority)]. *)
Definition parseAuthority (authority : list ascii) : result (option userinfo * list ascii) :=
  match cut_last "@" authority with
  | None => parseHost authority ≫= fun host => Ok (None, host)
  | Some (ui, hostpart) =>
      parseHost hostpart ≫= fun host =>
      if negb (validUserinfo ui) then Err (ErrorString "net/url: invalid userinfo")
      else
        match cut ":" ui with
        | (_, _, false) =>
            unescape ui EncodeUserPassword ≫= fun u =>
            Ok (Some (Userinfo (str u) "" false), host)
        | (user, pass, true) =>
            unescape user EncodeUserPassword ≫= fun u =>
            unescape pass EncodeUserPassword ≫= fun p =>
            Ok (Some (Userinfo (str u) (str p) true), host)
        end
  end.

(** [u.setPath(p)]. *)
Definition setPath (u : url) (p : list ascii) : result url :=
  unescape p EncodePath ≫= fun path =>
  Ok {| url_scheme := url_scheme u; url_opaque := url_opaque u; url_user := url_user u;
        url_host := url_host u; url_path := str path;
        url_raw_path := if bool_decide (escape path EncodePath = p) then "" else str p;
        url_omit_host := url_omit_host u; url_force_query := url_force_query u;
        url_raw_query := url_raw_query u; url_fragment := url_fragment u;
        url_raw_fragment := url_raw_fragment u |}.

(** [u.setFragment(f)]. *)
Definition setFragment (u : url) (f : list ascii) : result url :=
  unescape f EncodeFragment ≫= fun frag =>
  Ok {| url_scheme := url_scheme u; url_opaque := url_opaque u; url_user := url_user u;
        url_host := url_host u; url_path := url_path u; url_raw_path := url_raw_path u;
        url_omit_host := url_omit_host u; url_force_query := url_force_query u;
        url_raw_query := url_raw_query u; url_fragment := str frag;
        url_raw_fragment := if bool_decide (escape frag EncodeFragment = f) then "" else str f |}.

(** The query of [parse]: [ForceQuery] for a single trailing [?],
    otherwise [strings.Cut(rest, "?")]. *)
Definition split_query (rest : list ascii) : list ascii * bool * list ascii :=
  if bool_decide (last rest = Some "?"%char) && (count_occ ascii_dec rest "?"%char =? 1)
  then (removelast rest, true, [])
  else let '(r, q, _) := cut "?" rest in (r, false, q).

(** [parse] after the query is cut off: the opaque part, the authority
    and the path.  [u] carries the fields set so far. *)
Definition parse_rest (scheme rest : list ascii) (u : url) : result url :=
  if negb (has_prefix (bytes "/") rest) && negb (bool_decide (scheme = [])) then
    Ok {| url_scheme := url_scheme u; url_opaque := str rest; url_user := None;
          url_host := ""; url_path := ""; url_raw_path := ""; url_omit_host := false;
          url_force_query := url_force_query u; url_raw_query := url_raw_query u;
          url_fragment := ""; url_raw_fragment := "" |}
  else if negb (has_prefix (bytes "/") rest)
          && bool_decide (":"%char ∈ (cut "/" rest).1.1) then
    Err (ErrorString "first path segment in URL cannot contain colon")
  else if (negb (bool_decide (scheme = [])) || negb (has_prefix (bytes "///") rest))
          && has_prefix (bytes "//") rest then
    let '(authority, path, found) := cut "/" (drop 2 rest) in
    parseAuthority authority ≫= fun '(user, host) =>
    setPath {| url_scheme := url_scheme u; url_opaque := ""; url_user := user;
               url_host := str host; url_path := ""; url_raw_path := "";
               url_omit_host := false; url_force_query := url_force_query u;
               url_raw_query := url_raw_query u; url_fragment := ""; url_raw_fragment := "" |}
            (if found then "/"%char :: path else [])
  else
    setPath {| url_scheme := url_scheme u; url_opaque := ""; url_user := None; url_host := "";
               url_path := ""; url_raw_path := "";
               url_omit_host := negb (bool_decide (scheme = [])) && has_prefix (bytes "/") rest;
               url_force_query := url_force_query u; url_raw_query := url_raw_query u;
               url_fragment := ""; url_raw_fragment := "" |} rest.

(** [parse(rawURL, false)]. *)
Definition parse (raw : list ascii) : result url :=
  if stringContainsCTLByte raw then Err (ErrorString "net/url: invalid control character in URL")
  else if bool_decide (raw = bytes "*") then
    Ok {| url_scheme := ""; url_opaque := ""; url_user := None; url_host := ""; url_path := "*";
          url_raw_path := ""; url_omit_host := false; url_force_query := false;
          url_raw_query := ""; url_fragment := ""; url_raw_fragment := "" |}
  else
    getScheme raw ≫= fun '(scheme, rest) =>
    let scheme := to_lower scheme in
    let '(rest, force, query) := split_query rest in
    parse_rest scheme rest
      {| url_scheme := str scheme; url_opaque := ""; url_user := None; url_host := "";
         url_path := ""; url_raw_path := ""; url_omit_host := false; url_force_query := force;
         url_raw_query := str query; url_fragment := ""; url_raw_fragment := "" |}.

(** [url.Parse(rawURL)]. *)
Definition Parse (s : string) : result url :=
  let '(u, frag, _) := cut "#" (bytes s) in
  match parse u with
  | Err e => Err (UrlError "parse" (str u) e)
  | Ok url =>
      match frag with
      | [] => Ok url
      | _ =>
          match setFragment url frag with
          | Err e => Err (UrlError "parse" s e)
          | Ok url' => Ok url'
          end
      end
  end.

(** The path of a successful parse: the key [fetchMoreProducts] uses. *)
Definition ok_path (r : result url) : option string :=
  match r with Ok u => Some (url_path u) | Err _ => None end.

(** The [href]s of the listings, [https://host/p?q]: a host name of
    letters, digits, [-] and [.]; a path and a query with no control byte
    and no [#], the path with no [?]. *)
Definition host_byte (c : ascii) : bool := is_alnum c || bool_decide (c ∈ bytes "-.").

Definition listing_href_ok (host p q : list ascii) : bool :=
  forallb host_byte host && negb (bool_decide ("?"%char ∈ p)) && negb (bool_decide ("#"%char ∈ p))
  && negb (bool_decide ("#"%char ∈ q)) && negb (stringContainsCTLByte p)
  && negb (stringContainsCTLByte q).

(** The bytes of the paths of the listing URLs that need no escape. *)
Definition path_byte (c : ascii) : bool := is_alnum c || bool_decide (c ∈ bytes "-_.~/").

(** The URL [parse] builds for an [href] of a listing before [setPath]. *)
Definition listing_base (host q : list ascii) : url :=
  {| url_scheme := "https"; url_opaque := ""; url_user := None; url_host := str host;
     url_path := ""; url_raw_path := ""; url_omit_host := false;
     url_force_query := bool_decide (q = []); url_raw_query := str q;
     url_fragment := ""; url_raw_fragment := "" |}.

(** The same for a relative [href] [/p?q]: no scheme, no host. *)
Definition relative_base (q : list ascii) : url :=
  {| url_scheme := ""; url_opaque := ""; url_user := None; url_host := "";
     url_path := ""; url_raw_path := ""; url_omit_host := false;
     url_force_query := bool_decide (q = []); url_raw_query := str q;
     url_fragment := ""; url_raw_fragment := "" |}.

(** The URL [parse] builds for an [href] of a listing. *)
Definition listing_url (host p q : list ascii) : url :=
  {| url_scheme := "https"; url_opaque := ""; url_user := None; url_host := str host;
     url_path := str ("/"%char :: p); url_raw_path := ""; url_omit_host := false;
     url_force_query := bool_decide (q = []); url_raw_query := str q;
     url_fragment := ""; url_raw_fragment := "" |}.

(** ** Lemmas: escaping *)

Lemma escape_cons mode c s : escape (c :: s) mode = escape_byte mode c ++ escape s mode.
Proof. reflexivity. Qed.



(** ** Lemmas: the query and the fragment *)

Lemma cut_app_notin c x y :
  c ∉ x -> cut c (x ++ y) = let '(a, b, f) := cut c y in (x ++ a, b, f).
Proof.
  induction x as [|a x IH]; intros Hx; simpl; [destruct (cut c y) as [[? ?] ?]; reflexivity|].
  rewrite elem_of_cons in Hx. destruct (ascii_dec a c) as [->|_]; [tauto|].
  rewrite IH by tauto. destruct (cut c y) as [[? ?] ?]. reflexivity.
Qed.

Lemma cut_notin c x : c ∉ x -> cut c x = (x, [], false).
Proof.
  intros Hx. pose proof (cut_app_notin c x [] Hx) as H.
  rewrite app_nil_r in H. cbn in H. rewrite app_nil_r in H. exact H.
Qed.

Lemma ctl_app x y : stringContainsCTLByte (x ++ y) = stringContainsCTLByte x || stringContainsCTLByte y.
Proof. apply existsb_app. Qed.

(** [getScheme] stops at a [?] at the latest: a query appended to the
    input is appended to the rest. *)
Lemma scheme_scan_query pre l raw q :
  "?"%char ∉ l ->
  scheme_scan pre (l ++ "?"%char :: q) (raw ++ "?"%char :: q) =
    match scheme_scan pre l raw with
    | Ok (sch, rest) => Ok (sch, rest ++ "?"%char :: q)
    | Err e => Err e
    end.
Proof.
  revert pre. induction l as [|c l IH]; intros pre Hl; [reflexivity|].
  rewrite elem_of_cons in Hl. cbn [app scheme_scan].
  destruct (is_alpha c); [apply IH; tauto|].
  destruct (_ || _); [destruct pre; [reflexivity | apply IH; tauto]|].
  destruct (ascii_dec c ":"); [destruct pre; reflexivity | reflexivity].
Qed.

Lemma scheme_scan_rest pre l raw sch rest :
  scheme_scan pre l raw = Ok (sch, rest) -> rest = raw \/ rest `suffix_of` l.
Proof.
  revert pre. induction l as [|c l IH]; intros pre H; cbn [scheme_scan] in H; [injection H; auto|].
  destruct (is_alpha c).
  { destruct (IH _ H) as [|Hs]; [auto | right; apply suffix_cons_r; exact Hs]. }
  destruct (_ || _).
  { destruct pre; [injection H; auto|]. destruct (IH _ H) as [|Hs]; [auto | right; apply suffix_cons_r; exact Hs]. }
  destruct (ascii_dec c ":"); [destruct pre; [discriminate | injection H as <- <-; right; apply suffix_cons_r; reflexivity]|].
  injection H; auto.
Qed.

Lemma count_occ_pos (l : list ascii) c : c ∈ l -> 0 < count_occ ascii_dec l c.
Proof. intros H. apply count_occ_In. apply list_elem_of_In. exact H. Qed.

(** [parse] cuts the query at the first [?]; a single trailing [?] sets
    [ForceQuery]. *)
Lemma split_query_query r q :
  "?"%char ∉ r -> split_query (r ++ "?"%char :: q) = (r, bool_decide (q = []), q).
Proof.
  intros Hr. assert (Hc : count_occ ascii_dec r "?"%char = 0)
    by (apply count_occ_not_In; rewrite <- list_elem_of_In; exact Hr).
  unfold split_query.
  destruct (bool_decide (last (r ++ "?"%char :: q) = Some "?"%char) && _) eqn:E.
  - apply andb_true_iff in E as [E1 E2]. apply bool_decide_eq_true in E1. apply Nat.eqb_eq in E2.
    destruct q as [|a q]; [rewrite removelast_last; reflexivity|].
    exfalso. rewrite count_occ_app, count_occ_cons_eq in E2 by reflexivity.
    rewrite last_app, last_cons_cons in E1.
    assert (Hq : "?"%char ∈ a :: q).
    { destruct (last (a :: q)) as [x|] eqn:El.
      - injection E1 as ->. apply last_Some_elem_of. exact El.
      - rewrite last_cons in El. destruct (last q); discriminate. }
    pose proof (count_occ_pos _ _ Hq). lia.
  - destruct q as [|a q].
    + exfalso. rewrite last_snoc, count_occ_app, Hc in E. cbn in E. discriminate.
    + rewrite cut_app_notin by exact Hr. cbn. destruct (ascii_dec "?" "?"); [|congruence].
      rewrite app_nil_r. reflexivity.
Qed.

Lemma split_query_none r : "?"%char ∉ r -> split_query r = (r, false, []).
Proof.
  intros Hr. unfold split_query. rewrite cut_notin by exact Hr.
  rewrite (bool_decide_false (last r = Some "?"%char)); [reflexivity|].
  intros E. apply Hr. apply last_Some_elem_of. exact E.
Qed.

(** After the query is cut off, the path does not depend on the fields
    set so far. *)
Lemma parse_rest_path scheme rest u1 u2 :
  ok_path (parse_rest scheme rest u1) = ok_path (parse_rest scheme rest u2).
Proof.
  unfold parse_rest, setPath.
  destruct (_ && _); [reflexivity|]. destruct (_ && _); [reflexivity|].
  destruct (_ && _).
  - destruct (cut _ _) as [[? ?] ?]. destruct (parseAuthority _) as [[? ?]|]; [|reflexivity]. cbn.
    destruct (unescape _ _); reflexivity.
  - cbn. destruct (unescape _ _); reflexivity.
Qed.

Lemma parse_query_path r q :
  "?"%char ∉ r -> stringContainsCTLByte q = false ->
  ok_path (parse (r ++ "?"%char :: q)) = ok_path (parse r).
Proof.
  intros Hr Hq. unfold parse.
  replace (stringContainsCTLByte (r ++ "?"%char :: q)) with (stringContainsCTLByte r)
    by (rewrite ctl_app; unfold stringContainsCTLByte in *; cbn; rewrite Hq, orb_false_r; reflexivity).
  destruct (stringContainsCTLByte r); [reflexivity|].
  rewrite (bool_decide_false (r ++ _ = _)) by (destruct r as [|a [|b r]]; discriminate).
  unfold getScheme. rewrite (scheme_scan_query [] r r q Hr).
  destruct (scheme_scan [] r r) as [[sch rest]|] eqn:E.
  2:{ destruct (decide (r = bytes "*")) as [->|Hstar]; [discriminate E|].
       rewrite (bool_decide_false (r = bytes "*")) by exact Hstar. reflexivity. }
  cbn [mbind result_bind].
  assert (Hrest : "?"%char ∉ rest).
  { destruct (scheme_scan_rest _ _ _ _ _ E) as [->|Hsuf]; [exact Hr|].
    intros Hin. apply Hr. destruct Hsuf as [k ->]. set_solver. }
  rewrite (split_query_query rest q Hrest), (split_query_none rest Hrest).
  destruct (decide (r = bytes "*")) as [->|Hstar].
  - rewrite (bool_decide_true (bytes "*" = bytes "*")) by reflexivity. injection E as <- <-. reflexivity.
  - rewrite (bool_decide_false (r = bytes "*")) by exact Hstar. apply parse_rest_path.
Qed.

Lemma Parse_fragment_path u tail :
  "#"%char ∉ u ->
  match tail with [] => True | _ :: f => tail = "#"%char :: f /\ is_ok (unescape f EncodeFragment) = true end ->
  ok_path (Parse (str (u ++ tail))) = ok_path (parse u).
Proof.
  intros Hu Ht. unfold Parse. rewrite String.list_ascii_of_string_of_list_ascii, cut_app_notin by exact Hu.
  destruct tail as [|c f].
  - cbn. rewrite app_nil_r. destruct (parse u); reflexivity.
  - destruct Ht as [[= ->] Hf]. cbn. destruct (ascii_dec "#" "#"); [|congruence]. rewrite app_nil_r.
    destruct (parse u) as [v|]; [|reflexivity]. destruct f as [|a f]; [reflexivity|].
    unfold setFragment. destruct (unescape (a :: f) EncodeFragment); [reflexivity | discriminate].
Qed.

(** ** Lemmas: plain strings *)

Lemma unescape_scan_plain mode l n h :
  Forall (fun c => c <> "%"%char /\ c <> "+"%char /\
                   (is_host_mode mode = true -> shouldEscape c mode = false)) l ->
  unescape_scan mode l n h = Ok (n, h).
Proof.
  induction 1 as [|c l (Hp & Hq & Hh) _ IH]; [reflexivity|]. cbn [unescape_scan].
  destruct (ascii_dec c "%"); [congruence|]. destruct (ascii_dec c "+"); [congruence|].
  destruct (is_host_mode mode) eqn:Hm; [rewrite (Hh eq_refl), andb_false_r|]; exact IH.
Qed.

Lemma unescape_plain mode l :
  Forall (fun c => c <> "%"%char /\ c <> "+"%char /\
                   (is_host_mode mode = true -> shouldEscape c mode = false)) l ->
  unescape l mode = Ok l.
Proof. intros H. unfold unescape. rewrite unescape_scan_plain by exact H. reflexivity. Qed.

Lemma shouldEscape_space mode : shouldEscape " " mode = true.
Proof. destruct mode; reflexivity. Qed.

Lemma escape_plain mode l : Forall (fun c => shouldEscape c mode = false) l -> escape l mode = l.
Proof.
  induction 1 as [|c l Hc _ IH]; [reflexivity|]. rewrite escape_cons, IH. unfold escape_byte.
  rewrite Hc. destruct (decide (c = " "%char)) as [->|Hne].
  - rewrite shouldEscape_space in Hc. discriminate.
  - rewrite (bool_decide_false (c = " "%char)) by exact Hne. reflexivity.
Qed.

Lemma cut_last_notin c l : c ∉ l -> cut_last c l = None.
Proof.
  intros H. unfold cut_last. rewrite cut_notin; [reflexivity|].
  intros Hin. apply H. apply list_elem_of_In. apply in_rev. apply list_elem_of_In. exact Hin.
Qed.

Lemma alnum_range c : is_alnum c = true -> 48 <= nat_of_ascii c <= 122.
Proof.
  unfold is_alnum, is_alpha, is_dec_digit, between. rewrite !orb_true_iff, !andb_true_iff, !Nat.leb_le. lia.
Qed.

Lemma alnum_not_ctl c : is_alnum c = true -> is_ctl c = false.
Proof.
  intros H. pose proof (alnum_range c H). unfold is_ctl.
  apply orb_false_iff. split; [apply Nat.ltb_ge | apply Nat.eqb_neq]; lia.
Qed.

(** A byte of a class is none of the bytes outside it. *)
Lemma class_byte_ne (cls : ascii -> bool) c b : cls c = true -> cls b = false -> c <> b.
Proof. intros H1 H2 ->. congruence. Qed.

Lemma host_byte_spec c :
  host_byte c = true ->
  is_ctl c = false /\ c <> "%"%char /\ c <> "+"%char /\ c <> "#"%char /\ c <> "?"%char /\
  c <> "/"%char /\ c <> "@"%char /\ c <> ":"%char /\ c <> "["%char /\
  shouldEscape c EncodeHost = false.
Proof.
  intros H. pose proof H as H'. unfold host_byte in H. destruct (is_alnum c) eqn:Ha.
  - split_and!; try (apply (class_byte_ne host_byte); [exact H' | reflexivity]).
    + exact (alnum_not_ctl c Ha).
    + unfold shouldEscape. rewrite Ha. reflexivity.
  - apply bool_decide_eq_true in H. repeat (apply elem_of_cons in H as [->|H]; [split_and!; try reflexivity; discriminate|]).
    inversion H.
Qed.

Lemma path_byte_spec c :
  path_byte c = true ->
  is_ctl c = false /\ c <> "%"%char /\ c <> "+"%char /\ c <> "#"%char /\ c <> "?"%char /\
  shouldEscape c EncodePath = false.
Proof.
  intros H. pose proof H as H'. unfold path_byte in H. destruct (is_alnum c) eqn:Ha.
  - split_and!; try (apply (class_byte_ne path_byte); [exact H' | reflexivity]).
    + exact (alnum_not_ctl c Ha).
    + unfold shouldEscape. rewrite Ha. reflexivity.
  - apply bool_decide_eq_true in H. repeat (apply elem_of_cons in H as [->|H]; [split_and!; try reflexivity; discriminate|]).
    inversion H.
Qed.

Lemma ctl_forall l : stringContainsCTLByte l = false <-> Forall (fun c => is_ctl c = false) l.
Proof.
  induction l as [|c l IH]; [split; [constructor | reflexivity]|].
  unfold stringContainsCTLByte in *. cbn [existsb]. rewrite orb_false_iff, IH, Forall_cons. reflexivity.
Qed.

Lemma has_prefix_open_bracket l : "["%char ∉ l -> has_prefix (bytes "[") l = false.
Proof.
  intros H. destruct l as [|c l]; [reflexivity|]. unfold has_prefix. apply bool_decide_eq_false.
  cbn. intros [= ->]. apply H. apply elem_of_cons. left. reflexivity.
Qed.

Lemma getScheme_https rest : getScheme (bytes "https:" ++ rest) = Ok (bytes "https", rest).
Proof. reflexivity. Qed.

(** [parseAuthority] on a host name of the listing URLs. *)
Lemma parseAuthority_host host :
  Forall (fun c => host_byte c = true) host -> parseAuthority host = Ok (None, host).
Proof.
  intros Hh. pose proof (Forall_impl _ _ _ Hh host_byte_spec) as Hs.
  assert (Hnot : forall b, (forall c, host_byte c = true -> c <> b) -> b ∉ host).
  { intros b Hb Hin. rewrite Forall_forall in Hh. exact (Hb b (Hh b Hin) eq_refl). }
  unfold parseAuthority. rewrite cut_last_notin by (apply Hnot; intros c Hc; apply (host_byte_spec c Hc)).
  unfold parseHost. rewrite has_prefix_open_bracket by (apply Hnot; intros c Hc; apply (host_byte_spec c Hc)).
  rewrite cut_last_notin by (apply Hnot; intros c Hc; apply (host_byte_spec c Hc)).
  rewrite unescape_plain; [reflexivity|].
  eapply Forall_impl; [exact Hs|]. intros c (_ & H1 & H2 & _ & _ & _ & _ & _ & _ & H3). auto.
Qed.

Lemma notin_class (cls : ascii -> bool) l b : Forall (fun c => cls c = true) l -> cls b = false -> b ∉ l.
Proof. intros Hl Hb Hin. rewrite Forall_forall in Hl. specialize (Hl b Hin). congruence. Qed.

Lemma parse_listing_setPath host p q :
  Forall (fun c => host_byte c = true) host -> "?"%char ∉ p ->
  stringContainsCTLByte p = false -> stringContainsCTLByte q = false ->
  parse (bytes "https://" ++ host ++ "/"%char :: p ++ "?"%char :: q) =
    setPath (listing_base host q) ("/"%char :: p).
Proof.
  intros Hh Hp1 Hp2 Hq.
  pose proof (Forall_impl _ _ _ Hh host_byte_spec) as Hhs.
  unfold parse.
  replace (stringContainsCTLByte _) with false.
  2:{ symmetry. apply ctl_forall. apply ctl_forall in Hq, Hp2.
      repeat (rewrite Forall_app || rewrite Forall_cons). split_and!.
      - repeat constructor.
      - eapply Forall_impl; [exact Hhs|]. intros c [Hc _]. exact Hc.
      - reflexivity.
      - exact Hp2.
      - reflexivity.
      - exact Hq. }
  rewrite bool_decide_false by (intros E; discriminate E).
  replace (bytes "https://" ++ host ++ "/"%char :: p ++ "?"%char :: q)
    with (bytes "https:" ++ (("/"%char :: "/"%char :: host ++ "/"%char :: p) ++ "?"%char :: q))
    by (cbn; rewrite <- app_assoc; reflexivity).
  rewrite getScheme_https. cbn [mbind result_bind].
  rewrite split_query_query.
  2:{ pose proof (notin_class host_byte host "?" Hh eq_refl) as A.
      intros Hin. repeat (rewrite elem_of_app in Hin || rewrite elem_of_cons in Hin).
      destruct Hin as [H|[H|[H|[H|H]]]]; solve [contradiction | discriminate]. }
  assert (E1 : forall X, has_prefix (bytes "/") ("/"%char :: X) = true) by reflexivity.
  assert (E2 : forall X, has_prefix (bytes "//") ("/"%char :: "/"%char :: X) = true) by reflexivity.
  assert (E3 : to_lower (bytes "https") = bytes "https") by reflexivity.
  unfold parse_rest. rewrite E3, E1, E2, (bool_decide_false (bytes "https" = [])) by discriminate.
  cbn [negb andb orb drop]. rewrite drop_0.
  rewrite cut_app_notin by (apply (notin_class host_byte host "/" Hh); reflexivity).
  cbn [cut]. destruct (ascii_dec "/" "/"); [|congruence].
  rewrite app_nil_r, (parseAuthority_host host Hh). reflexivity.
Qed.

Lemma parse_listing_url host p q :
  Forall (fun c => host_byte c = true) host -> Forall (fun c => path_byte c = true) p ->
  stringContainsCTLByte q = false ->
  parse (bytes "https://" ++ host ++ "/"%char :: p ++ "?"%char :: q) = Ok (listing_url host p q).
Proof.
  intros Hh Hp Hq.
  pose proof (Forall_impl _ _ _ Hp path_byte_spec) as Hps.
  rewrite parse_listing_setPath; [| exact Hh | | | exact Hq].
  2:{ apply (notin_class path_byte p "?" Hp). reflexivity. }
  2:{ apply ctl_forall. eapply Forall_impl; [exact Hps|]. intros c [Hc _]. exact Hc. }
  unfold setPath. rewrite unescape_plain.
  2:{ constructor; [split_and!; discriminate|]. eapply Forall_impl; [exact Hps|].
      intros c (_ & H1 & H2 & _). split_and!; [exact H1 | exact H2 | discriminate]. }
  cbn [mbind result_bind]. rewrite escape_plain.
  2:{ constructor; [reflexivity|]. eapply Forall_impl; [exact Hps|]. intros c (_ & _ & _ & _ & _ & H). exact H. }
  rewrite (bool_decide_true ("/"%char :: p = "/"%char :: p)) by reflexivity. reflexivity.
Qed.

(** The path of a listing URL is its unescaped path; when the path does
    not unescape, [Parse] fails. *)
Lemma ok_path_listing host p q :
  listing_href_ok host p q = true ->
  ok_path (Parse (str (bytes "https://" ++ host ++ "/"%char :: p ++ "?"%char :: q))) =
    match unescape ("/"%char :: p) EncodePath with Ok path => Some (str path) | Err _ => None end.
Proof.
  unfold listing_href_ok. rewrite !andb_true_iff, !negb_true_iff, forallb_forall, !bool_decide_eq_false.
  intros (((((Hh & Hp1) & Hp2) & Hq1) & Hp3) & Hq2).
  assert (Hh' : Forall (fun c => host_byte c = true) host).
  { apply Forall_forall. intros c Hc. apply Hh. apply list_elem_of_In. exact Hc. }
  clear Hh. rename Hh' into Hh.
  unfold Parse. rewrite String.list_ascii_of_string_of_list_ascii.
  rewrite cut_notin.
  - rewrite parse_listing_setPath by assumption. unfold setPath.
    destruct (unescape _ EncodePath); reflexivity.
  - assert (A1 : "#"%char ∉ bytes "https://") by (apply (bool_decide_eq_false (_ ∈ _)); reflexivity).
    pose proof (notin_class host_byte host "#" Hh eq_refl) as A2.
    intros Hin. repeat (rewrite elem_of_app in Hin || rewrite elem_of_cons in Hin).
    destruct Hin as [H|[H|[H|[H|[H|H]]]]]; solve [contradiction | discriminate].
Qed.

(** An [href] whose part before the [?] parses parses to the same path. *)
Lemma Parse_href_path r q frag u :
  "?"%char ∉ r -> "#"%char ∉ r -> "#"%char ∉ q -> stringContainsCTLByte q = false ->
  (forall f, frag = Some f -> is_ok (unescape f EncodeFragment) = true) ->
  Parse (str r) = Ok u ->
  exists u', Parse (str (r ++ "?"%char :: q ++ from_option (fun f => "#"%char :: f) [] frag)) = Ok u' /\
    url_path u' = url_path u.
Proof.
  intros Hr1 Hr2 Hq1 Hq2 Hf Hu.
  assert (E : ok_path (Parse (str (r ++ "?"%char :: q ++ from_option (fun f => "#"%char :: f) [] frag))) =
              ok_path (Parse (str r))).
  { rewrite app_comm_cons, app_assoc, Parse_fragment_path.
    - rewrite <- (app_nil_r r) at 2. rewrite Parse_fragment_path by (auto; exact I).
      apply parse_query_path; assumption.
    - rewrite elem_of_app, elem_of_cons. intros [H|[H|H]]; [tauto | discriminate | tauto].
    - destruct frag as [f|]; cbn; [split; [reflexivity | apply Hf; reflexivity] | exact I]. }
  rewrite Hu in E. cbn [ok_path] in E.
  destruct (Parse (str (r ++ _))) as [u'|]; cbn [ok_path] in E; [|discriminate]. injection E as E. eauto.
Qed.

Lemma parse_relative_setPath p q :
  "?"%char ∉ p -> head p <> Some "/"%char ->
  stringContainsCTLByte p = false -> stringContainsCTLByte q = false ->
  parse ("/"%char :: p ++ "?"%char :: q) = setPath (relative_base q) ("/"%char :: p).
Proof.
  intros Hp1 Hp2 Hp3 Hq. unfold parse.
  replace (stringContainsCTLByte _) with false
    by (symmetry; rewrite app_comm_cons, ctl_app; cbn [stringContainsCTLByte existsb]; unfold stringContainsCTLByte in *;
        rewrite Hp3, Hq; reflexivity).
  rewrite bool_decide_false by (destruct p; intros E; discriminate E).
  assert (Hs : forall l raw, scheme_scan [] ("/"%char :: l) raw = Ok ([], raw)) by reflexivity.
  unfold getScheme. rewrite Hs. cbn [mbind result_bind].
  rewrite app_comm_cons, split_query_query
    by (rewrite elem_of_cons; intros [H|H]; [discriminate | contradiction]).
  assert (H2 : has_prefix (bytes "//") ("/"%char :: p) = false).
  { destruct p as [|c p']; [reflexivity|]. apply bool_decide_eq_false. cbn.
    intros E. injection E as E. apply Hp2. rewrite E. reflexivity. }
  assert (H1 : has_prefix (bytes "/") ("/"%char :: p) = true) by reflexivity.
  unfold parse_rest. rewrite H1, H2. destruct (_ || _); reflexivity.
Qed.

Lemma ok_path_relative p q :
  "?"%char ∉ p -> "#"%char ∉ p -> "#"%char ∉ q -> head p <> Some "/"%char ->
  stringContainsCTLByte p = false -> stringContainsCTLByte q = false ->
  ok_path (Parse (str ("/"%char :: p ++ "?"%char :: q))) =
    match unescape ("/"%char :: p) EncodePath with Ok path => Some (str path) | Err _ => None end.
Proof.
  intros Hp1 Hp2 Hq1 Hp4 Hp3 Hq2. unfold Parse. rewrite String.list_ascii_of_string_of_list_ascii.
  rewrite cut_notin.
  - rewrite parse_relative_setPath by assumption. unfold setPath.
    destruct (unescape _ EncodePath); reflexivity.
  - rewrite elem_of_cons, elem_of_app, elem_of_cons. intros [H|[H|[H|H]]]; solve [discriminate | contradiction].
Qed.

(** ** Theorems *)

(** C20: The key of the Seen-Set is stable: the path [url.Parse] gives an
    [href] does not depend on its query string nor on its fragment (when
    the fragment unescapes), and [Parse] succeeds on the [href] exactly
    when it succeeds without them. *)
Theorem Parse_path_ignores_query r q (frag : option (list ascii)) :
  "?"%char ∉ r -> "#"%char ∉ r -> "#"%char ∉ q -> stringContainsCTLByte q = false ->
  (forall f, frag = Some f -> is_ok (unescape f EncodeFragment) = true) ->
  ok_path (Parse (str (r ++ "?"%char :: q ++ from_option (fun f => "#"%char :: f) [] frag))) =
  ok_path (Parse (str r)).
Proof.
  intros Hr1 Hr2 Hq1 Hq2 Hf.
  rewrite app_comm_cons, app_assoc, Parse_fragment_path.
  - rewrite <- (app_nil_r r) at 2. rewrite Parse_fragment_path by (auto; exact I).
    apply parse_query_path; assumption.
  - rewrite elem_of_app, elem_of_cons. intros [H|[H|H]]; [tauto | discriminate | tauto].
  - destruct frag as [f|]; cbn; [split; [reflexivity | apply Hf; reflexivity] | exact I].
Qed.

(** C21: [url.Parse] on the [href] of a listing, [https://host/path?query]
    with a host name of letters, digits, [-] and [.] and a path of letters,
    digits and [-_.~/]: the scheme, the host, the path (the key of the
    Seen-Set) and the raw query, with no raw path and [ForceQuery] for an
    empty query. *)
Theorem Parse_listing_url host p q :
  Forall (fun c => host_byte c = true) host -> Forall (fun c => path_byte c = true) p ->
  "#"%char ∉ q -> stringContainsCTLByte q = false ->
  Parse (str (bytes "https://" ++ host ++ "/"%char :: p ++ "?"%char :: q)) = Ok (listing_url host p q).
Proof.
  intros Hh Hp Hq1 Hq2. unfold Parse. rewrite String.list_ascii_of_string_of_list_ascii.
  rewrite cut_notin.
  - rewrite parse_listing_url by assumption. reflexivity.
  - assert (A1 : "#"%char ∉ bytes "https://") by (apply (bool_decide_eq_false (_ ∈ _)); reflexivity).
    pose proof (notin_class host_byte host "#" Hh eq_refl) as A2.
    pose proof (notin_class path_byte p "#" Hp eq_refl) as A3.
    intros Hin. repeat (rewrite elem_of_app in Hin || rewrite elem_of_cons in Hin).
    destruct Hin as [H|[H|[H|[H|[H|H]]]]]; solve [contradiction | discriminate].
Qed.

(** C26: The key of the Seen-Set is the unescaped path: two listing
    [href]s whose paths unescape to the same bytes ([/item/%34%32] and
    [/item/42]) get the same key from [url.Parse], whatever their hosts
    and query strings, and when one path does not unescape neither
    [href] has a key. *)
Theorem Parse_same_unescaped_path h1 p1 q1 h2 p2 q2 :
  listing_href_ok h1 p1 q1 = true -> listing_href_ok h2 p2 q2 = true ->
  unescape ("/"%char :: p1) EncodePath = unescape ("/"%char :: p2) EncodePath ->
  ok_path (Parse (str (bytes "https://" ++ h1 ++ "/"%char :: p1 ++ "?"%char :: q1))) =
  ok_path (Parse (str (bytes "https://" ++ h2 ++ "/"%char :: p2 ++ "?"%char :: q2))).
Proof. intros H1 H2 E. rewrite (ok_path_listing h1 p1 q1 H1), (ok_path_listing h2 p2 q2 H2), E. reflexivity. Qed.

(** C27: Whether the driver answers the [href] attribute as written in
    the page ([/marketplace/item/42?ref=feed], the form the XPath selects
    on) or resolved against the page ([https://host/marketplace/...]),
    [url.Parse] gives it the same key. *)
Theorem Parse_relative_absolute_same_key host p q q' :
  listing_href_ok host p q = true -> listing_href_ok host p q' = true -> head p <> Some "/"%char ->
  ok_path (Parse (str ("/"%char :: p ++ "?"%char :: q))) =
  ok_path (Parse (str (bytes "https://" ++ host ++ "/"%char :: p ++ "?"%char :: q'))).
Proof.
  intros H1 H2 Hp. rewrite (ok_path_listing host p q' H2).
  unfold listing_href_ok in H1. rewrite !andb_true_iff, !negb_true_iff, !bool_decide_eq_false in H1.
  destruct H1 as (((((_ & Hp1) & Hp2) & Hq1) & Hp3) & Hq2).
  apply ok_path_relative; assumption.
Qed.

(** C22: An [href] with a control byte (a newline, a tab) before its
    first [#] is rejected by [url.Parse], whatever follows; the error
    carries the part of the [href] before the [#], which [Parse] passed to
    [parse]; [fetchMoreProducts] then dereferences the nil URL. *)
Theorem Parse_control_byte a b c :
  is_ctl c = true -> "#"%char ∉ a ++ [c] ->
  Parse (str (a ++ c :: b)) =
    Err (UrlError "parse" (str (a ++ c :: (cut "#" b).1.1))
           (ErrorString "net/url: invalid control character in URL")).
Proof.
  intros Hc Hh. unfold Parse. rewrite String.list_ascii_of_string_of_list_ascii.
  replace (a ++ c :: b) with ((a ++ [c]) ++ b) by (rewrite <- app_assoc; reflexivity).
  rewrite cut_app_notin by exact Hh. destruct (cut "#" b) as [[x y] f]. cbn [fst].
  rewrite <- app_assoc. cbn [app].
  unfold parse. rewrite ctl_app. cbn [stringContainsCTLByte existsb]. unfold stringContainsCTLByte.
  rewrite Hc, orb_true_r. reflexivity.
Qed.

End Url.

(** ** Examples *)

Lemma Parse_path_ignores_query_witness :
  Url.ok_path (Url.Parse "https://example.com/marketplace/item/42?ref=feed#top") =
  Url.ok_path (Url.Parse "https://example.com/marketplace/item/42").
Proof.
  apply (Url.Parse_path_ignores_query (String.list_ascii_of_string "https://example.com/marketplace/item/42")
           (String.list_ascii_of_string "ref=feed") (Some (String.list_ascii_of_string "top")));
    try (apply (bool_decide_eq_false (_ ∈ _)); reflexivity); try reflexivity.
  intros f Hf. injection Hf as <-. reflexivity.
Defined.

Lemma Parse_listing_url_witness :
  Url.Parse "https://example.com/marketplace/item/42?ref=feed" =
    Ok (Url.listing_url (String.list_ascii_of_string "example.com")
          (String.list_ascii_of_string "marketplace/item/42") (String.list_ascii_of_string "ref=feed")).
Proof.
  exact (Url.Parse_listing_url (String.list_ascii_of_string "example.com")
           (String.list_ascii_of_string "marketplace/item/42") (String.list_ascii_of_string "ref=feed")
           ltac:(repeat constructor) ltac:(repeat constructor)
           ltac:(apply (bool_decide_eq_false (_ ∈ _)); reflexivity) eq_refl).
Defined.

(** A newline in the path, then a fragment: the error names the part
    before the [#]. *)
Lemma Parse_control_byte_witness :
  Url.Parse (String.string_of_list_ascii
               (String.list_ascii_of_string "https://example.com/item" ++ ascii_of_nat 10 ::
                String.list_ascii_of_string "#top")) =
    Err (UrlError "parse"
           (String.string_of_list_ascii (String.list_ascii_of_string "https://example.com/item" ++ [ascii_of_nat 10]))
           (ErrorString "net/url: invalid control character in URL")).
Proof.
  exact (Url.Parse_control_byte (String.list_ascii_of_string "https://example.com/item")
           (String.list_ascii_of_string "#top") (ascii_of_nat 10)
           eq_refl ltac:(apply (bool_decide_eq_false (_ ∈ _)); reflexivity)).
Defined.

Lemma Parse_same_unescaped_path_witness :
  Url.ok_path (Url.Parse "https://example.com/marketplace/item/%34%32?ref=feed") =
  Url.ok_path (Url.Parse "https://example.com/marketplace/item/42?ref=other").
Proof.
  exact (Url.Parse_same_unescaped_path
           (String.list_ascii_of_string "example.com") (String.list_ascii_of_string "marketplace/item/%34%32")
           (String.list_ascii_of_string "ref=feed")
           (String.list_ascii_of_string "example.com") (String.list_ascii_of_string "marketplace/item/42")
           (String.list_ascii_of_string "ref=other")
           eq_refl eq_refl ltac:(vm_compute; reflexivity)).
Defined.

Lemma Parse_relative_absolute_same_key_witness :
  Url.ok_path (Url.Parse "/marketplace/item/42?ref=feed") =
  Url.ok_path (Url.Parse "https://example.com/marketplace/item/42?ref=other").
Proof.
  exact (Url.Parse_relative_absolute_same_key
           (String.list_ascii_of_string "example.com") (String.list_ascii_of_string "marketplace/item/42")
           (String.list_ascii_of_string "ref=feed") (String.list_ascii_of_string "ref=other")
           eq_refl eq_refl ltac:(discriminate)).
Defined.
