(* ===== verification/Regex.v ===== *)
(** * Regex: the part of Go's [regexp] that [extractFirstCurrency] uses

    Go documents that, among the leftmost matches, [FindStringSubmatch]
    returns the one "that a backtracking implementation would have
    chosen" (leftmost-first, greedy repetitions).  [bt] is that
    backtracking implementation, in continuation-passing style over a byte
    list; [search] tries the start positions from left to right; and
    [find_string_submatch] builds Go's [[]string] result.  The lemmas
    describe greedy repetition of a character class as a descending search
    ([try_down]) and the behaviour of a pattern anchored with [^]. *)

From S2P Require Import Prelude.

Module Regex.

(** A character class [[...]] or [[^...]]: ranges of bytes, negated or
    not.  Go compiles [\d] to the range ['0'-'9']. *)
Record char_class := CharClass {
  cc_negated : bool;
  cc_ranges : list (ascii * ascii)
}.

Definition in_range (a : ascii) (r : ascii * ascii) : bool :=
  (nat_of_ascii r.1 <=? nat_of_ascii a)%nat && (nat_of_ascii a <=? nat_of_ascii r.2)%nat.

Definition cc_mem (c : char_class) (a : ascii) : bool :=
  xorb (cc_negated c) (existsb (in_range a) (cc_ranges c)).

(** The syntax tree of Go's [regexp/syntax], restricted to the operators
    the repository's pattern contains.  [RBeginText] is [^] outside
    multi-line mode; [RStar] is the greedy [*]; [RCapture n] is the n-th
    parenthesised group. *)
Inductive regex :=
| REmpty
| RBeginText
| RClass (c : char_class)
| RCat (r1 r2 : regex)
| RStar (r : regex)
| RCapture (n : nat) (r : regex).

(** [x+] is compiled by Go as [x] followed by the greedy loop [x*]. *)
Definition RPlus (r : regex) : regex := RCat r (RStar r).

(** The number of capture groups, [Regexp.NumSubexp]. *)
Fixpoint num_subexp (r : regex) : nat :=
  match r with
  | REmpty | RBeginText | RClass _ => 0
  | RCat r1 r2 => num_subexp r1 `max` num_subexp r2
  | RStar r1 => num_subexp r1
  | RCapture n r1 => n `max` num_subexp r1
  end.

(** The capture slots: [Some (i, j)] when group [n] matched [input[i:j]]. *)
Abbreviation caps := (list (option (nat * nat))).

Section Backtrack.
Variable input : list ascii.

(** The greedy loop of [r*]: run the body [body] again while it consumes
    something and the rest of the match fails, then fall back to [k] at
    the current position.  [fuel] bounds the number of iterations. *)
Fixpoint star_loop (body : nat -> caps -> (nat -> caps -> option caps) -> option caps)
    (k : nat -> caps -> option caps) (fuel i : nat) (cs : caps) : option caps :=
  match fuel with
  | O => k i cs
  | S fuel' =>
      match body i cs (fun j cs1 =>
              if Nat.eqb j i then None else star_loop body k fuel' j cs1) with
      | Some res => Some res
      | None => k i cs
      end
  end.

(** The backtracking matcher: [bt r i cs k] matches [r] at position [i]
    and passes the end position and the captures to the continuation [k],
    trying the alternatives in Go's preference order and backtracking when
    [k] fails.  A star iteration that consumes nothing stops the loop, and
    the loop runs at most once per remaining byte plus one. *)
Fixpoint bt (r : regex) (i : nat) (cs : caps)
    (k : nat -> caps -> option caps) {struct r} : option caps :=
  match r with
  | REmpty => k i cs
  | RBeginText => if Nat.eqb i 0 then k i cs else None
  | RClass c =>
      match input !! i with
      | Some a => if cc_mem c a then k (S i) cs else None
      | None => None
      end
  | RCat r1 r2 => bt r1 i cs (fun j cs1 => bt r2 j cs1 k)
  | RStar r1 =>
      star_loop (fun i cs k' => bt r1 i cs k') k (S (length input - i)) i cs
  | RCapture n r1 => bt r1 i cs (fun j cs1 => k j (<[n := Some (i, j)]> cs1))
  end.

(** A whole match at [i]: group 0 spans the match. *)
Definition match_at (r : regex) (i : nat) : option caps :=
  bt (RCapture 0 r) i (replicate (S (num_subexp r)) None)
    (fun _ cs => Some cs).

(** Leftmost: the start positions [i], [i+1], ..., [i+n-1] in order. *)
Fixpoint search (r : regex) (i n : nat) : option caps :=
  match n with
  | O => None
  | S n' =>
      match match_at r i with
      | Some cs => Some cs
      | None => search r (S i) n'
      end
  end.

End Backtrack.

Definition bytes_of (s : string) : list ascii := String.list_ascii_of_string s.

Definition slice (l : list ascii) (i j : nat) : string :=
  String.string_of_list_ascii (take (j - i) (drop i l)).

(** [re.FindStringSubmatch(s)]: [nil] without a match, otherwise one
    string per group, [""] for a group that did not participate. *)
Definition find_string_submatch (r : regex) (s : string) : list string :=
  let l := bytes_of s in
  match search l r 0 (S (length l)) with
  | None => []
  | Some cs =>
      map (fun c => match c with Some (i, j) => slice l i j | None => "" end) cs
  end.

(** ** Greedy repetition of a class as a descending search *)

(** The number of consecutive bytes of class [c] at the head of [l]. *)
Fixpoint class_run (c : char_class) (l : list ascii) : nat :=
  match l with
  | [] => O
  | a :: l' => if cc_mem c a then S (class_run c l') else O
  end.

(** [try_down f i n] tries [f (i+n)], [f (i+n-1)], ..., [f i] and returns
    the first success: the order in which a greedy loop backtracks. *)
Fixpoint try_down {A} (f : nat -> option A) (i n : nat) : option A :=
  match n with
  | O => f i
  | S m =>
      match f (i + S m) with
      | Some x => Some x
      | None => try_down f i m
      end
  end.

Lemma try_down_S {A} (f : nat -> option A) i n :
  try_down f i (S n) =
    match try_down f (S i) n with Some x => Some x | None => f i end.
Proof.
  revert i. induction n as [|n IH]; intros i.
  - simpl. rewrite Nat.add_1_r. destruct (f (S i)); reflexivity.
  - change (try_down f i (S (S n))) with
      (match f (i + S (S n)) with Some x => Some x | None => try_down f i (S n) end).
    change (try_down f (S i) (S n)) with
      (match f (S i + S n) with Some x => Some x | None => try_down f (S i) n end).
    rewrite IH. replace (i + S (S n)) with (S i + S n) by lia.
    destruct (f (S i + S n)); reflexivity.
Qed.

(** [try_down] returns [f] at the largest index where [f] succeeds. *)
Lemma try_down_find {A} (f : nat -> option A) i n :
  try_down f i n =
    match find (fun j => bool_decide (is_Some (f j))) (rev (seq i (S n))) with
    | Some j => f j
    | None => None
    end.
Proof.
  revert i. induction n as [|n IH]; intros i.
  - simpl. destruct (f i) eqn:E; simpl; rewrite ?E; reflexivity.
  - rewrite seq_S, rev_app_distr. simpl.
    destruct (f (i + S n)) eqn:E; simpl.
    + now rewrite E.
    + rewrite IH. reflexivity.
Qed.

Lemma try_down_ext {A} (f g : nat -> option A) i n :
  (forall j, f j = g j) -> try_down f i n = try_down g i n.
Proof. intros H. induction n as [|n IH]; simpl; rewrite ?H, ?IH; reflexivity. Qed.

Lemma try_down_fmap {A B} (h : A -> B) (f : nat -> option A) i n :
  try_down (fun j => h <$> f j) i n = h <$> try_down f i n.
Proof. induction n as [|n IH]; simpl; [reflexivity|]. destruct (f (i + S n)); simpl; auto. Qed.

(** When every continuation succeeds the greedy search takes the longest. *)
Lemma try_down_some {A} (f : nat -> option A) (g : nat -> A) i n :
  (forall j, f j = Some (g j)) -> try_down f i n = Some (g (i + n)).
Proof.
  intros H. destruct n as [|n]; simpl; rewrite H; [rewrite Nat.add_0_r|]; reflexivity.
Qed.

Lemma class_run_le c l : (class_run c l <= length l)%nat.
Proof. induction l as [|a l IH]; simpl; [lia|]. destruct (cc_mem c a); simpl; lia. Qed.

Lemma class_run_drop_S c l i a :
  l !! i = Some a -> cc_mem c a = true ->
  class_run c (drop i l) = S (class_run c (drop (S i) l)).
Proof.
  revert i. induction l as [|b l IH]; intros [|i] Hl Hc; simpl in *; try discriminate.
  - injection Hl as ->. rewrite Hc. reflexivity.
  - apply IH; assumption.
Qed.

Lemma class_run_drop_0 c l i :
  match l !! i with Some a => cc_mem c a = false | None => True end ->
  class_run c (drop i l) = O.
Proof.
  revert i. induction l as [|b l IH]; intros [|i] H; simpl in *; auto.
  rewrite H. reflexivity.
Qed.

(** Inside the run every byte is in the class; the byte after it is not. *)
Lemma class_run_lookup c l j :
  (j < class_run c l)%nat -> exists a, l !! j = Some a /\ cc_mem c a = true.
Proof.
  revert j. induction l as [|a l IH]; intros j Hj; simpl in *; [lia|].
  destruct (cc_mem c a) eqn:Hc; [|lia].
  destruct j as [|j]; simpl; [eauto|]. apply IH. lia.
Qed.

Lemma class_run_stop c l a :
  l !! class_run c l = Some a -> cc_mem c a = false.
Proof.
  induction l as [|b l IH]; simpl; [discriminate|].
  destruct (cc_mem c b) eqn:Hc; simpl; [exact IH|]. congruence.
Qed.

Lemma class_run_app c l1 l2 :
  Forall (fun a => cc_mem c a = true) l1 ->
  class_run c (l1 ++ l2) = (length l1 + class_run c l2)%nat.
Proof. induction 1 as [|a l1 Ha _ IH]; simpl; [reflexivity|]. now rewrite Ha, IH. Qed.

Lemma class_run_take c l : Forall (fun a => cc_mem c a = true) (take (class_run c l) l).
Proof.
  induction l as [|a l IH]; simpl; [constructor|].
  destruct (cc_mem c a) eqn:Ha; simpl; constructor; auto.
Qed.

Section Star.
Variable input : list ascii.
Variable c : char_class.

(** The loop of [RStar (RClass c)], with enough fuel, is the greedy
    descending search over the run of [c] at [i]. *)
Lemma bt_star_class_fuel (k : nat -> caps -> option caps) cs :
  forall fuel i, (class_run c (drop i input) < fuel)%nat ->
  star_loop (fun i cs k' => bt input (RClass c) i cs k') k fuel i cs
  = try_down (fun j => k j cs) i (class_run c (drop i input)).
Proof.
  intros fuel. induction fuel as [|fuel IH]; intros i Hf; [lia|].
  cbn [star_loop bt]. destruct (input !! i) as [a|] eqn:Ha.
  - destruct (cc_mem c a) eqn:Hc.
    + rewrite (class_run_drop_S c input i a Ha Hc) in *.
      rewrite (proj2 (Nat.eqb_neq (S i) i)) by lia.
      rewrite IH by lia. rewrite try_down_S. reflexivity.
    + rewrite class_run_drop_0 by (rewrite Ha; exact Hc). reflexivity.
  - rewrite class_run_drop_0 by (rewrite Ha; exact I). reflexivity.
Qed.

Lemma bt_star_class i cs k :
  bt input (RStar (RClass c)) i cs k =
    try_down (fun j => k j cs) i (class_run c (drop i input)).
Proof.
  apply bt_star_class_fuel.
  pose proof (class_run_le c (drop i input)). rewrite length_drop in *. lia.
Qed.

Lemma bt_plus_class i cs k :
  bt input (RPlus (RClass c)) i cs k =
    match input !! i with
    | Some a =>
        if cc_mem c a
        then try_down (fun j => k j cs) (S i) (class_run c (drop (S i) input))
        else None
    | None => None
    end.
Proof.
  unfold RPlus. simpl bt at 1. destruct (input !! i); [|reflexivity].
  destruct (cc_mem c a); [apply bt_star_class | reflexivity].
Qed.

(** [r+] over a class followed by a continuation that always succeeds
    matches the whole run. *)
Lemma bt_plus_class_total i cs k (g : nat -> caps -> caps) :
  (forall j cs', k j cs' = Some (g j cs')) ->
  bt input (RPlus (RClass c)) i cs k =
    match input !! i with
    | Some a =>
        if cc_mem c a then Some (g (S i + class_run c (drop (S i) input)) cs) else None
    | None => None
    end.
Proof.
  intros Hk. rewrite bt_plus_class. destruct (input !! i); [|reflexivity].
  destruct (cc_mem c a); [|reflexivity].
  apply (try_down_some _ (fun j => g j cs)). intros j. apply Hk.
Qed.

End Star.

(** ** Anchored patterns *)

Lemma match_at_begin_S input r i :
  match_at input (RCat RBeginText r) (S i) = None.
Proof. reflexivity. Qed.

Lemma search_begin_S input r i n :
  search input (RCat RBeginText r) (S i) n = None.
Proof.
  revert i. induction n as [|n IH]; intros i; simpl; [reflexivity|].
  apply IH.
Qed.

(** A pattern anchored with [^] is only tried at position 0. *)
Lemma search_begin input r n :
  search input (RCat RBeginText r) 0 (S n) = match_at input (RCat RBeginText r) 0.
Proof.
  simpl. destruct (match_at input (RCat RBeginText r) 0); [reflexivity|].
  apply search_begin_S.
Qed.

End Regex.
