(* ===== verification/ParseUint.v ===== *)
(** * ParseUint: [strconv.ParseUint(number, 10, 64)]

    [extractFirstCurrency] converts the digits of a price with
    [strconv.ParseUint(number, 10, 64)].  This file writes Go's
    implementation of that call (strconv/atoi.go) for base 10 and bit size
    64: the empty string is a syntax error; each byte is classified as a
    digit, a letter (whose value is then at least the base, a syntax error)
    or another byte (a syntax error); before each multiplication the
    accumulator is compared with [cutoff = maxUint64/10 + 1]; the sum is
    computed modulo 2^64 and compared with the unwrapped operand and with
    [maxVal].  The theorems relate it to the decimal value of the digits.

    [ParseUint] is the whole function for every base and bit size (the
    base switch with the prefixes of base 0, the underscores and
    [underscoreOK], the bit-size check, [cutoff] and [maxVal] for each
    base and size); on base 10 and bit size 64 it is [parse_uint] on every
    input. *)

From S2P Require Import Prelude.

Module ParseUint.

Local Open Scope Z_scope.

Definition modulus64 : Z := 2 ^ 64.
Definition maxUint64 : Z := modulus64 - 1.

(** uint64 arithmetic wraps around modulo 2^64. *)
Definition wrap64 (z : Z) : Z := z mod modulus64.

(** [maxVal := uint64(1)<<uint(bitSize) - 1] for [bitSize = 64]. *)
Definition maxVal : Z := wrap64 (Z.shiftl 1 64 - 1).

(** [cutoff = maxUint64/10 + 1], the least [n] with [n*10 > maxUint64]. *)
Definition cutoff : Z := maxUint64 / 10 + 1.

Definition base : Z := 10.

Definition byte_val (c : ascii) : Z := Z.of_nat (nat_of_ascii c).

(** [lower(c) = c | ('x' - 'X')]. *)
Definition lower (c : ascii) : Z := Z.lor (byte_val c) 32.

(** The [switch] of the loop: [Some d] for a digit or a letter, [None]
    for any other byte. *)
Definition digit_of (c : ascii) : option Z :=
  if (48 <=? byte_val c) && (byte_val c <=? 57) then Some (byte_val c - 48)
  else if (97 <=? lower c) && (lower c <=? 122) then Some (lower c - 97 + 10)
  else None.

(** ['0' <= c && c <= '9']. *)
Definition is_digit (c : ascii) : bool := (48 <=? byte_val c) && (byte_val c <=? 57).

Definition syntaxError (s0 : string) : go_error := NumError "ParseUint" s0 ErrSyntax.
Definition rangeError (s0 : string) : go_error := NumError "ParseUint" s0 ErrRange.

(** The loop [for _, c := range []byte(s)] with accumulator [n]. *)
Fixpoint parse_loop (s0 : string) (cs : list ascii) (n : Z) : result Z :=
  match cs with
  | [] => Ok n
  | c :: rest =>
      match digit_of c with
      | None => Err (syntaxError s0)
      | Some d =>
          if d >=? base then Err (syntaxError s0)
          else if n >=? cutoff then Err (rangeError s0)
          else
            let n := wrap64 (n * base) in
            let n1 := wrap64 (n + d) in
            if (n1 <? n) || (n1 >? maxVal) then Err (rangeError s0)
            else parse_loop s0 rest n1
      end
  end.

(** [strconv.ParseUint(s, 10, 64)]; on an error Go also returns a value
    ([0] or [maxVal]) which [extractFirstCurrency] discards. *)
Definition parse_uint (s : string) : result Z :=
  if String.eqb s "" then Err (syntaxError s)
  else parse_loop s (String.list_ascii_of_string s) 0.

(** ** The whole function

    [strconv.ParseUint(s, base, bitSize)] for every base and bit size, on
    a 64-bit platform ([strconv.IntSize = 64]); the call of
    [extractFirstCurrency] is [ParseUint s 10 64]. *)

Definition IntSize : Z := 64.

Definition baseError (s0 : string) (b : Z) : go_error := NumError "ParseUint" s0 (ErrBase b).
Definition bitSizeError (s0 : string) (b : Z) : go_error := NumError "ParseUint" s0 (ErrBitSize b).

(** [switch { case 2 <= base && base <= 36: ... case base == 0: ... }]:
    the base, the digits after a prefix, and [base0]; [None] for an
    invalid base.  With [base == 0] a leading [0] selects octal, and [0b],
    [0o], [0x] (followed by at least one byte) binary, octal and hex. *)
Definition base_prefix (s : list ascii) (b : Z) : option (Z * list ascii * bool) :=
  if (2 <=? b) && (b <=? 36) then Some (b, s, false)
  else if b =? 0 then
    match s with
    | "0"%char :: c :: rest =>
        if negb (bool_decide (rest = [])) && (lower c =? 98) then Some (2, rest, true)
        else if negb (bool_decide (rest = [])) && (lower c =? 111) then Some (8, rest, true)
        else if negb (bool_decide (rest = [])) && (lower c =? 120) then Some (16, rest, true)
        else Some (8, c :: rest, true)
    | ["0"%char] => Some (8, [], true)
    | _ => Some (10, s, true)
    end
  else None.

(** [cutoff]: [maxUint64/10 + 1], [maxUint64/16 + 1] or
    [maxUint64/uint64(base) + 1], the same formula for every base. *)
Definition cutoff_of (b : Z) : Z := maxUint64 / b + 1.

(** [maxVal := uint64(1)<<uint(bitSize) - 1], in uint64 arithmetic. *)
Definition maxVal_of (bitSize : Z) : Z := wrap64 (wrap64 (Z.shiftl 1 bitSize) - 1).

(** The loop of [ParseUint] with [underscores]: an underscore is skipped
    when [base0]. *)
Fixpoint parse_uint_loop (s0 : string) (base0 : bool) (b cut mx : Z) (cs : list ascii)
    (n : Z) (underscores : bool) : result (Z * bool) :=
  match cs with
  | [] => Ok (n, underscores)
  | c :: rest =>
      if base0 && bool_decide (c = "_"%char) then parse_uint_loop s0 base0 b cut mx rest n true
      else
        match digit_of c with
        | None => Err (syntaxError s0)
        | Some d =>
            if d >=? b then Err (syntaxError s0)
            else if n >=? cut then Err (rangeError s0)
            else
              let n := wrap64 (n * b) in
              let n1 := wrap64 (n + d) in
              if (n1 <? n) || (n1 >? mx) then Err (rangeError s0)
              else parse_uint_loop s0 base0 b cut mx rest n1 underscores
        end
  end.

(** What [underscoreOK] last saw: ['^'], ['0'], ['_'] or ['!']. *)
Inductive saw_class := SawStart | SawDigit | SawUnderscore | SawOther.

#[export] Instance saw_class_eq_dec : EqDecision saw_class.
Proof. solve_decision. Defined.

Definition is_hex_letter (c : ascii) : bool := (97 <=? lower c) && (lower c <=? 102).

(** The loop [for ; i < len(s); i++] of [underscoreOK]. *)
Fixpoint underscore_loop (hex : bool) (saw : saw_class) (l : list ascii) : bool :=
  match l with
  | [] => negb (bool_decide (saw = SawUnderscore))
  | c :: rest =>
      if is_digit c || (hex && is_hex_letter c) then underscore_loop hex SawDigit rest
      else if bool_decide (c = "_"%char) then
        if bool_decide (saw = SawDigit) then underscore_loop hex SawUnderscore rest else false
      else if bool_decide (saw = SawUnderscore) then false
      else underscore_loop hex SawOther rest
  end.

(** [underscoreOK(s)]: an optional sign, an optional base prefix, then
    underscores only between digits. *)
Definition underscoreOK (s : list ascii) : bool :=
  let s := match s with
           | c :: rest => if bool_decide (c = "-"%char) || bool_decide (c = "+"%char) then rest else s
           | [] => []
           end in
  match s with
  | "0"%char :: c :: rest =>
      if (lower c =? 98) || (lower c =? 111) || (lower c =? 120)
      then underscore_loop (lower c =? 120) SawDigit rest
      else underscore_loop false SawStart s
  | _ => underscore_loop false SawStart s
  end.

(** [func ParseUint(s string, base int, bitSize int) (uint64, error)]. *)
Definition ParseUint (s : string) (b bitSize : Z) : result Z :=
  if String.eqb s "" then Err (syntaxError s)
  else
    match base_prefix (String.list_ascii_of_string s) b with
    | None => Err (baseError s b)
    | Some (b', cs, base0) =>
        if (bitSize <? 0) || (bitSize >? 64) then Err (bitSizeError s bitSize)
        else
          let bitSize' := if bitSize =? 0 then IntSize else bitSize in
          match parse_uint_loop s base0 b' (cutoff_of b') (maxVal_of bitSize') cs 0 false with
          | Err e => Err e
          | Ok (n, underscores) =>
              if underscores && negb (underscoreOK (String.list_ascii_of_string s))
              then Err (syntaxError s) else Ok n
          end
    end.

(** ** Reference: the decimal value of a digit string *)

Definition decimal_step (acc : Z) (c : ascii) : Z := acc * 10 + (byte_val c - 48).

Definition decimal_value_from (acc : Z) (l : list ascii) : Z := fold_left decimal_step l acc.

Definition decimal_value (l : list ascii) : Z := decimal_value_from 0 l.

Lemma byte_val_range c : 0 <= byte_val c < 256.
Proof.
  unfold byte_val. pose proof (nat_ascii_bounded c). lia.
Qed.

Lemma digit_of_digit c : is_digit c = true -> digit_of c = Some (byte_val c - 48).
Proof. unfold digit_of, is_digit. now intros ->. Qed.

Lemma digit_range c : is_digit c = true -> 0 <= byte_val c - 48 <= 9.
Proof. unfold is_digit. intros H. apply andb_true_iff in H as [H1 H2]. lia. Qed.

Lemma decimal_value_from_ge acc l :
  0 <= acc -> Forall (fun c => is_digit c = true) l -> acc <= decimal_value_from acc l.
Proof.
  unfold decimal_value_from. revert acc. induction l as [|c l IH]; intros acc Hacc Hl; simpl; [lia|].
  inversion Hl as [|? ? Hc Hl']; subst.
  pose proof (digit_range c Hc). unfold decimal_step at 2.
  etransitivity; [|apply IH; [|exact Hl']]; unfold decimal_step; lia.
Qed.

Lemma maxVal_eq : maxVal = maxUint64.
Proof. reflexivity. Qed.

Lemma modulus64_eq : modulus64 = 18446744073709551616.
Proof. reflexivity. Qed.

Lemma maxUint64_eq : maxUint64 = 18446744073709551615.
Proof. reflexivity. Qed.

Lemma cutoff_eq : cutoff = 1844674407370955162.
Proof. reflexivity. Qed.

(** Replace the 64-bit constants by their values, for [lia]. *)
Ltac u64_consts :=
  rewrite ?maxVal_eq in *; unfold base in *;
  rewrite ?modulus64_eq, ?maxUint64_eq, ?cutoff_eq in *.

(** One digit of the loop: no wrap-around goes unnoticed; the loop goes
    on with [n*10 + d] exactly when it fits in 64 bits. *)
Lemma parse_loop_digit s0 c rest n :
  0 <= n <= maxUint64 -> is_digit c = true ->
  parse_loop s0 (c :: rest) n =
    if decimal_step n c <=? maxUint64 then parse_loop s0 rest (decimal_step n c)
    else Err (rangeError s0).
Proof.
  intros Hn Hc. cbn [parse_loop]. rewrite (digit_of_digit c Hc).
  pose proof (digit_range c Hc) as Hd.
  unfold decimal_step in *. set (d := byte_val c - 48) in *.
  rewrite !Z.geb_leb, Z.gtb_ltb. unfold wrap64. u64_consts.
  destruct (Z.leb_spec 10 d); [lia|].
  destruct (Z.leb_spec 1844674407370955162 n) as [Hcut|Hcut].
  - destruct (Z.leb_spec (n * 10 + d) 18446744073709551615); [lia | reflexivity].
  - rewrite (Z.mod_small (n * 10)) by lia.
    destruct (Z_lt_ge_dec (n * 10 + d) 18446744073709551616) as [Hfit|Hover].
    + rewrite (Z.mod_small (n * 10 + d)) by lia.
      destruct (Z.ltb_spec (n * 10 + d) (n * 10)); [lia|].
      destruct (Z.ltb_spec 18446744073709551615 (n * 10 + d)); [lia|].
      destruct (Z.leb_spec (n * 10 + d) 18446744073709551615); [reflexivity | lia].
    + rewrite <- (Z.mod_unique (n * 10 + d) 18446744073709551616 1
                    (n * 10 + d - 18446744073709551616)) by lia.
      destruct (Z.ltb_spec (n * 10 + d - 18446744073709551616) (n * 10)); [|lia].
      destruct (Z.leb_spec (n * 10 + d) 18446744073709551615); [lia | reflexivity].
Qed.

Lemma decimal_step_nonneg n c : 0 <= n -> is_digit c = true -> 0 <= decimal_step n c.
Proof. intros Hn Hc. pose proof (digit_range c Hc). unfold decimal_step. lia. Qed.

(** The loop on digits computes the decimal value when it fits in 64 bits
    and reports the range error otherwise. *)
Lemma parse_loop_digits s0 l n :
  0 <= n <= maxUint64 ->
  Forall (fun c => is_digit c = true) l ->
  parse_loop s0 l n =
    if decimal_value_from n l <=? maxUint64 then Ok (decimal_value_from n l)
    else Err (rangeError s0).
Proof.
  intros Hn Hl. revert n Hn. induction Hl as [|c l Hc Hl IH]; intros n Hn.
  - simpl. unfold decimal_value_from; simpl.
    destruct (Z.leb_spec n maxUint64); [reflexivity | lia].
  - rewrite parse_loop_digit by assumption.
    change (decimal_value_from n (c :: l)) with (decimal_value_from (decimal_step n c) l).
    pose proof (decimal_step_nonneg n c ltac:(lia) Hc).
    pose proof (decimal_value_from_ge (decimal_step n c) l ltac:(lia) Hl).
    destruct (Z.leb_spec (decimal_step n c) maxUint64).
    + apply IH. lia.
    + destruct (Z.leb_spec (decimal_value_from (decimal_step n c) l) maxUint64);
        [lia | reflexivity].
Qed.

(** A prefix of digits whose value fits is consumed without error. *)
Lemma parse_loop_app s0 pre rest n :
  0 <= n ->
  Forall (fun c => is_digit c = true) pre ->
  decimal_value_from n pre <= maxUint64 ->
  parse_loop s0 (pre ++ rest) n = parse_loop s0 rest (decimal_value_from n pre).
Proof.
  intros Hn Hpre. revert n Hn. induction Hpre as [|c l Hc Hl IH]; intros n Hn Hfit; [reflexivity|].
  change (decimal_value_from n (c :: l)) with (decimal_value_from (decimal_step n c) l) in Hfit.
  pose proof (decimal_step_nonneg n c Hn Hc).
  pose proof (decimal_value_from_ge (decimal_step n c) l ltac:(lia) Hl).
  assert (n <= decimal_step n c) by (pose proof (digit_range c Hc); unfold decimal_step; lia).
  simpl app. rewrite parse_loop_digit by (try assumption; lia).
  destruct (Z.leb_spec (decimal_step n c) maxUint64); [apply IH; lia | lia].
Qed.

Lemma digit_of_non_digit c :
  is_digit c = false -> forall d, digit_of c = Some d -> base <= d.
Proof.
  unfold digit_of, is_digit. intros -> d.
  destruct ((97 <=? lower c) && (lower c <=? 122)) eqn:E; [|discriminate].
  intros [= <-]. apply andb_true_iff in E as [E _]. unfold base. lia.
Qed.

(** Whatever the input, a value the loop returns is a uint64: each step
    either fails or keeps the accumulator below [maxVal]. *)
Lemma parse_loop_range s0 cs n v :
  0 <= n <= maxUint64 -> parse_loop s0 cs n = Ok v -> 0 <= v <= maxUint64.
Proof.
  revert n. induction cs as [|c cs IH]; intros n Hn H; cbn [parse_loop] in H; [congruence|].
  destruct (digit_of c) as [d|]; [|discriminate].
  destruct (d >=? base); [discriminate|]. destruct (n >=? cutoff); [discriminate|].
  destruct (Z.ltb_spec (wrap64 (wrap64 (n * base) + d)) (wrap64 (n * base))); [discriminate|].
  destruct (Z.gtb_spec (wrap64 (wrap64 (n * base) + d)) maxVal); [discriminate|].
  cbn [orb] in H. eapply IH; [|exact H]. rewrite maxVal_eq in *. split; [|lia].
  unfold wrap64. apply Z.mod_pos_bound. rewrite modulus64_eq. lia.
Qed.

Lemma parse_uint_range s v : parse_uint s = Ok v -> 0 <= v <= maxUint64.
Proof.
  unfold parse_uint. destruct (String.eqb s ""); [discriminate|].
  apply parse_loop_range. u64_consts. lia.
Qed.

(** Without [base0] the general loop never sees an underscore: it is the
    loop of the call, step for step. *)
Lemma parse_uint_loop_base10 s0 cs n :
  parse_uint_loop s0 false base cutoff maxVal cs n false =
    match parse_loop s0 cs n with Ok v => Ok (v, false) | Err e => Err e end.
Proof.
  revert n. induction cs as [|c cs IH]; intros n; [reflexivity|].
  cbn [parse_uint_loop parse_loop andb]. destruct (digit_of c) as [d|]; [|reflexivity].
  destruct (d >=? base), (n >=? cutoff); try reflexivity.
  destruct (_ || _); [reflexivity | apply IH].
Qed.

(** The call of [extractFirstCurrency], [ParseUint(number, 10, 64)], runs
    the specialised loop [parse_uint] on every input; the theorems below
    are stated on [parse_uint] and transfer to the call by this lemma. *)
Lemma ParseUint_10_64 s : ParseUint s 10 64 = parse_uint s.
Proof.
  unfold ParseUint, parse_uint. destruct (String.eqb s ""); [reflexivity|].
  change (base_prefix (String.list_ascii_of_string s) 10) with
    (Some (base, String.list_ascii_of_string s, false)).
  change ((64 <? 0) || (64 >? 64)) with false. change (64 =? 0) with false. cbv beta iota zeta.
  change (cutoff_of base) with cutoff. change (maxVal_of 64) with maxVal.
  rewrite parse_uint_loop_base10.
  destruct (parse_loop _ _ _); reflexivity.
Qed.

(** ** [ParseUint] on every branch *)

(** C9: On a non-empty string of ASCII digits [ParseUint(s, 10, 64)] returns
    the decimal value when it is at most [2^64 - 1] and the range error
    otherwise; no wrap-around goes unnoticed. *)
Theorem parse_uint_decimal (l : list ascii) :
  l <> [] ->
  Forall (fun c => is_digit c = true) l ->
  parse_uint (String.string_of_list_ascii l) =
    if decimal_value l <=? maxUint64 then Ok (decimal_value l)
    else Err (rangeError (String.string_of_list_ascii l)).
Proof.
  intros Hne Hl. unfold parse_uint. destruct l as [|c l]; [congruence|].
  change (String.eqb (String.string_of_list_ascii (c :: l)) "") with false. cbv iota.
  rewrite String.list_ascii_of_string_of_list_ascii.
  apply parse_loop_digits; [u64_consts; lia | exact Hl].
Qed.

(** C14: A byte that is not a digit is a syntax error, when the digits before
    it do not already overflow (Go reports the range error first). *)
Theorem parse_uint_syntax (pre post : list ascii) (c : ascii) :
  Forall (fun c => is_digit c = true) pre ->
  decimal_value pre <= maxUint64 ->
  is_digit c = false ->
  parse_uint (String.string_of_list_ascii (pre ++ c :: post)) =
    Err (syntaxError (String.string_of_list_ascii (pre ++ c :: post))).
Proof.
  intros Hpre Hfit Hc. unfold parse_uint.
  replace (String.eqb _ "") with false
    by (destruct pre; reflexivity).
  rewrite String.list_ascii_of_string_of_list_ascii, parse_loop_app by (auto; lia).
  cbn [parse_loop]. destruct (digit_of c) as [d|] eqn:E; [|reflexivity].
  pose proof (digit_of_non_digit c Hc d E). unfold base in *.
  destruct (Z.geb_spec d 10); [reflexivity | lia].
Qed.

(** Go's documented behaviour of the other bases: base prefixes and
    underscores with base 0, the bit size, and the argument errors. *)
Example ParseUint_examples :
  ParseUint "0x1F" 0 64 = Ok 31 /\ ParseUint "1_000" 0 64 = Ok 1000 /\
  ParseUint "1__0" 0 64 = Err (syntaxError "1__0") /\ ParseUint "017" 0 0 = Ok 15 /\
  ParseUint "256" 10 8 = Err (rangeError "256") /\
  ParseUint "7" 1 64 = Err (baseError "7" 1) /\ ParseUint "7" 10 65 = Err (bitSizeError "7" 65).
Proof. split_and!; vm_compute; reflexivity. Qed.

Lemma parse_uint_decimal_witness :
  parse_uint "18446744073709551615" = Ok 18446744073709551615 /\
  parse_uint "18446744073709551616" = Err (rangeError "18446744073709551616").
Proof.
  split.
  - change "18446744073709551615" with
      (String.string_of_list_ascii (String.list_ascii_of_string "18446744073709551615")).
    rewrite parse_uint_decimal; [reflexivity | discriminate | repeat constructor].
  - change "18446744073709551616" with
      (String.string_of_list_ascii (String.list_ascii_of_string "18446744073709551616")).
    rewrite parse_uint_decimal; [reflexivity | discriminate | repeat constructor].
Defined.

Lemma parse_uint_syntax_witness :
  parse_uint "12a" = Err (syntaxError "12a").
Proof.
  change "12a" with (String.string_of_list_ascii (["1"; "2"] ++ "a" :: [])%char).
  rewrite parse_uint_syntax; [reflexivity | repeat constructor | vm_compute; discriminate | reflexivity].
Defined.

End ParseUint.
