(* ===== verification/Price.v ===== *)
(** * Price: [extractFirstCurrency] of [src/product.go]

    The price parser, composed as in the source: the literal ["FREE"]
    first, then [regexp.MustCompile(`^([^\d]+)([\d,]+)`).FindStringSubmatch],
    the guard [len(matches) > 2], [strings.ReplaceAll(number, ",", "")] and
    [strconv.ParseUint(number, 10, 64)].  [price_scan] is a direct scan of
    the input; the main lemma shows that the backtracking matcher on the
    price pattern computes exactly the positions of that scan, and the
    theorems then describe every branch of the parser.  The call of
    [ParseUint] is the library function of [ParseUint.v]; the proofs
    reach its specialised loop [parse_uint] by [ParseUint_10_64]. *)

From S2P Require Import Prelude Regex ParseUint.

Module Price.
Import Regex ParseUint.

(** [\d] and the two classes of the pattern. *)
Definition not_digit : char_class := CharClass true [("0", "9")]%char.
Definition digit_or_comma : char_class := CharClass false [("0", "9"); (",", ",")]%char.

(** [^([^\d]+)([\d,]+)] as Go's parser builds it. *)
Definition price_regexp : regex :=
  RCat RBeginText
    (RCat (RCapture 1 (RPlus (RClass not_digit)))
          (RCapture 2 (RPlus (RClass digit_or_comma)))).

(** [strings.ReplaceAll(s, old, new)] for a one-byte [old]. *)
Fixpoint replace_all (s : string) (old : ascii) (new : string) : string :=
  match s with
  | EmptyString => EmptyString
  | String a s' =>
      if ascii_dec a old then String.append new (replace_all s' old new)
      else String a (replace_all s' old new)
  end.

(** [extractFirstCurrency(s) (string, uint64, error)] (product.go). *)
Definition extractFirstCurrency (s : string) : result (string * Z) :=
  if String.eqb s "FREE" then Ok ("", 0%Z)
  else
    let matches := find_string_submatch price_regexp s in
    if (2 <? length matches)%nat then
      let currency := nth 1 matches "" in
      let number := replace_all (nth 2 matches "") "," "" in
      match ParseUint number 10 64 with
      | Err e => Err e
      | Ok value => Ok (currency, value)
      end
    else Err (FmtError (String.append "invalid format or no valid price found " s)).

(** ** The direct scan *)

(** [k] is the length of the non-digit prefix.  When a digit follows it,
    group 1 is that prefix and group 2 the run of digits and commas after
    it.  When the string has no digit at all, the greedy first group gives
    back bytes until the second group can start at a comma: the last comma
    after the first byte, if any. *)
Definition price_scan (l : list ascii) : option (nat * nat) :=
  let k := class_run not_digit l in
  if Nat.eqb k 0 then None
  else
    match l !! k with
    | Some _ => Some (k, k + class_run digit_or_comma (drop k l))
    | None =>
        match find (fun j => bool_decide (l !! j = Some ","%char)) (rev (seq 1 (k - 1))) with
        | Some j => Some (j, j + class_run digit_or_comma (drop j l))
        | None => None
        end
    end.

(** The bytes of a number with its commas removed. *)
Definition strip_commas (l : list ascii) : list ascii :=
  List.filter (fun a => negb (bool_decide (a = ","%char))) l.

(** ** The matcher on the price pattern is the scan *)

(** Where group 2 ends when it starts at [j], if it can start there. *)
Definition group2_end (l : list ascii) (j : nat) : option (nat * nat) :=
  match l !! j with
  | Some a =>
      if cc_mem digit_or_comma a
      then Some (j, S j + class_run digit_or_comma (drop (S j) l)) else None
  | None => None
  end.

Definition price_caps (p : nat * nat) : caps :=
  let '(j, j2) := p in [Some (0, j2); Some (0, j)%nat; Some (j, j2)].

Lemma not_digit_false_dc a : cc_mem not_digit a = false -> cc_mem digit_or_comma a = true.
Proof. unfold cc_mem; simpl. destruct (in_range a _); simpl; congruence. Qed.

Lemma not_digit_dc_comma a :
  cc_mem not_digit a = true -> cc_mem digit_or_comma a = bool_decide (a = ","%char).
Proof.
  unfold cc_mem. cbn [cc_negated cc_ranges existsb not_digit digit_or_comma].
  destruct (in_range a ("0","9")%char); [discriminate|]. intros _. cbn [orb xorb].
  unfold in_range. cbn [fst snd]. rewrite orb_false_r. change (nat_of_ascii ","%char) with 44.
  case_bool_decide as H; [subst; reflexivity|].
  destruct (Nat.eqb_spec (nat_of_ascii a) 44) as [E|E].
  - exfalso. apply H. rewrite <- (ascii_nat_embedding a), E. reflexivity.
  - apply andb_false_iff. destruct (Nat.leb_spec 44 (nat_of_ascii a)).
    + right. apply Nat.leb_gt. lia.
    + left. reflexivity.
Qed.

(** The matcher at position 0: group 1 is greedy and gives back bytes
    until group 2 can start. *)
Lemma match_at_price l :
  match_at l price_regexp 0 =
    price_caps <$>
    match l !! 0 with
    | Some a =>
        if cc_mem not_digit a
        then try_down (group2_end l) 1 (class_run not_digit (drop 1 l)) else None
    | None => None
    end.
Proof.
  unfold match_at, price_regexp. cbn [bt Nat.eqb num_subexp].
  rewrite bt_plus_class. destruct (l !! 0) as [a|]; [|reflexivity].
  destruct (cc_mem not_digit a); [|reflexivity].
  rewrite <- try_down_fmap. apply try_down_ext. intros j.
  rewrite (bt_plus_class_total _ _ _ _ _
             (fun j2 cs => <[0:=Some (0, j2)]> (<[2:=Some (j, j2)]> cs))) by reflexivity.
  unfold group2_end. destruct (l !! j); [|reflexivity].
  destruct (cc_mem digit_or_comma a0); reflexivity.
Qed.

Lemma search_price_scan l :
    match l !! 0 with
    | Some a => if cc_mem not_digit a then try_down (group2_end l) 1 (class_run not_digit (drop 1 l)) else None
    | None => None
    end = price_scan l.
Proof.
  unfold price_scan. destruct l as [|a0 l']; [reflexivity|].
  cbn [lookup list_lookup class_run drop].
  destruct (cc_mem not_digit a0) eqn:Ha0; [|reflexivity].
  set (l := a0 :: l'). set (m := class_run not_digit l').
  assert (Hk : class_run not_digit l = S m) by (subst l; simpl; rewrite Ha0; reflexivity).
  rewrite drop_0. fold m. cbn [Nat.eqb]. rewrite Nat.sub_1_r. cbn [Nat.pred].
  rewrite try_down_find, seq_S, rev_app_distr. cbn [rev app find].
  destruct (l !! S m) as [b|] eqn:Hb.
  - assert (Hdc : cc_mem digit_or_comma b = true).
    { apply not_digit_false_dc, (class_run_stop not_digit l). rewrite Hk. exact Hb. }
    assert (Hg : group2_end l (S m) = Some (S m, S m + class_run digit_or_comma (drop (S m) l))).
    { unfold group2_end. rewrite Hb, Hdc, (class_run_drop_S digit_or_comma l (S m) b Hb Hdc).
      f_equal. f_equal. lia. }
    rewrite Nat.add_1_l, Hg, bool_decide_true by eauto. exact Hg.
  - assert (Hg : group2_end l (S m) = None) by (unfold group2_end; rewrite Hb; reflexivity).
    rewrite Nat.add_1_l, Hg, bool_decide_false by (intros [? ?]; discriminate).
    cbv beta iota.
    rewrite (find_ext_in _ (fun j => bool_decide (l !! j = Some ","%char))).
    + destruct (find _ _) as [j|] eqn:Hf; [|reflexivity].
      apply find_some in Hf as [_ Hj]. apply bool_decide_eq_true in Hj.
      assert (Hc : cc_mem digit_or_comma "," = true) by reflexivity.
      unfold group2_end. rewrite Hj, Hc, (class_run_drop_S digit_or_comma l j "," Hj Hc).
      f_equal. f_equal. lia.
    + intros j Hj. apply in_rev, in_seq in Hj.
      destruct (class_run_lookup not_digit l j) as (a & Ha & Hnd); [lia|].
      unfold group2_end. rewrite Ha, (not_digit_dc_comma a Hnd).
      destruct (decide (a = ","%char)) as [->|Hne].
      * rewrite !bool_decide_true; eauto.
      * rewrite (bool_decide_false (a = ","%char)) by exact Hne.
        rewrite (bool_decide_false (Some a = _)) by congruence.
        apply bool_decide_false. intros [? ?]; discriminate.
Qed.

(** [FindStringSubmatch] with the price pattern returns the whole match,
    the currency group and the number group at the scan's positions, and
    [nil] when the scan finds nothing. *)
Lemma find_string_submatch_price s :
  find_string_submatch price_regexp s =
    let l := bytes_of s in
    match price_scan l with
    | Some (j, j2) => [slice l 0 j2; slice l 0 j; slice l j j2]
    | None => []
    end.
Proof.
  unfold find_string_submatch. cbv zeta.
  unfold price_regexp at 1. rewrite search_begin. fold price_regexp.
  rewrite match_at_price, search_price_scan.
  destruct (price_scan (bytes_of s)) as [[j j2]|]; reflexivity.
Qed.

Lemma replace_all_strip l :
  replace_all (String.string_of_list_ascii l) "," "" = String.string_of_list_ascii (strip_commas l).
Proof.
  induction l as [|a l IH]; simpl; [reflexivity|].
  destruct (ascii_dec a ","%char) as [->|Hne]; simpl.
  - exact IH.
  - rewrite bool_decide_false by exact Hne. simpl. now rewrite IH.
Qed.

Lemma not_digit_is_digit a : cc_mem not_digit a = negb (is_digit a).
Proof.
  unfold cc_mem, is_digit, byte_val. cbn [cc_negated cc_ranges existsb not_digit].
  unfold in_range. cbn [fst snd]. change (nat_of_ascii "0"%char) with 48. change (nat_of_ascii "9"%char) with 57.
  rewrite orb_false_r.
  destruct (Nat.leb_spec 48 (nat_of_ascii a)), (Nat.leb_spec (nat_of_ascii a) 57),
    (Z.leb_spec 48 (Z.of_nat (nat_of_ascii a))), (Z.leb_spec (Z.of_nat (nat_of_ascii a)) 57);
    simpl; try reflexivity; lia.
Qed.

Lemma digit_or_comma_cases a :
  cc_mem digit_or_comma a = is_digit a || bool_decide (a = ","%char).
Proof.
  destruct (cc_mem not_digit a) eqn:Hnd.
  - rewrite (not_digit_dc_comma a Hnd). rewrite not_digit_is_digit in Hnd.
    destruct (is_digit a); [discriminate|reflexivity].
  - rewrite (not_digit_false_dc a Hnd). rewrite not_digit_is_digit in Hnd.
    destruct (is_digit a); [reflexivity|discriminate].
Qed.

Lemma strip_commas_digits l :
  Forall (fun a => cc_mem digit_or_comma a = true) l ->
  Forall (fun a => is_digit a = true) (strip_commas l).
Proof.
  induction 1 as [|a l Ha _ IH]; simpl; [constructor|].
  rewrite digit_or_comma_cases in Ha.
  destruct (decide (a = ","%char)) as [->|Hne].
  - rewrite bool_decide_true by reflexivity. exact IH.
  - rewrite bool_decide_false in * by exact Hne. rewrite orb_false_r in Ha. simpl. constructor; auto.
Qed.

Lemma bytes_of_string l : bytes_of (String.string_of_list_ascii l) = l.
Proof. apply String.list_ascii_of_string_of_list_ascii. Qed.

Lemma not_FREE l d :
  In d l -> is_digit d = true -> String.eqb (String.string_of_list_ascii l) "FREE" = false.
Proof.
  intros Hin Hd. apply String.eqb_neq. intros H.
  apply (f_equal bytes_of) in H. rewrite bytes_of_string in H. subst l.
  simpl in Hin. repeat destruct Hin as [<-|Hin]; try discriminate. contradiction.
Qed.

(** ** [extractFirstCurrency] on every branch *)

Lemma extractFirstCurrency_scan_eq s :
  extractFirstCurrency s =
    if String.eqb s "FREE" then Ok ("", 0%Z)
    else
      let l := bytes_of s in
      match price_scan l with
      | Some (j, j2) =>
          match parse_uint (replace_all (slice l j j2) "," "") with
          | Err e => Err e
          | Ok value => Ok (slice l 0 j, value)
          end
      | None => Err (FmtError (String.append "invalid format or no valid price found " s))
      end.
Proof.
  unfold extractFirstCurrency. destruct (String.eqb s "FREE"); [reflexivity|].
  rewrite find_string_submatch_price, ParseUint_10_64. cbv zeta.
  destruct (price_scan (bytes_of s)) as [[j j2]|]; reflexivity.
Qed.

(** C7: [extractFirstCurrency] is the scan followed by [ReplaceAll] and
    [ParseUint]: running Go's backtracking matcher on the pattern
    [^([^\d]+)([\d,]+)] gives exactly the positions of [price_scan]. *)
Theorem extractFirstCurrency_scan s :
  extractFirstCurrency s =
    if String.eqb s "FREE" then Ok ("", 0%Z)
    else
      let l := bytes_of s in
      match price_scan l with
      | Some (j, j2) =>
          match parse_uint (replace_all (slice l j j2) "," "") with
          | Err e => Err e
          | Ok value => Ok (slice l 0 j, value)
          end
      | None => Err (FmtError (String.append "invalid format or no valid price found " s))
      end.
Proof. apply extractFirstCurrency_scan_eq. Qed.

Lemma extractFirstCurrency_digits (cur num rest : list ascii) (d : ascii) :
  cur <> [] ->
  Forall (fun a => is_digit a = false) cur ->
  is_digit d = true ->
  Forall (fun a => cc_mem digit_or_comma a = true) num ->
  (forall a rest', rest = a :: rest' -> cc_mem digit_or_comma a = false) ->
  extractFirstCurrency (String.string_of_list_ascii (cur ++ d :: num ++ rest)) =
    let digits := strip_commas (d :: num) in
    if (decimal_value digits <=? maxUint64)%Z
    then Ok (String.string_of_list_ascii cur, decimal_value digits)
    else Err (rangeError (String.string_of_list_ascii digits)).
Proof.
  intros Hcur Hnd Hd Hnum Hrest.
  set (l := cur ++ d :: num ++ rest).
  assert (Hdc : cc_mem digit_or_comma d = true) by (rewrite digit_or_comma_cases, Hd; reflexivity).
  assert (Hk : class_run not_digit l = length cur).
  { unfold l. rewrite class_run_app.
    - simpl. rewrite not_digit_is_digit, Hd. simpl. lia.
    - eapply Forall_impl; [exact Hnd|]. intros a Ha. rewrite not_digit_is_digit, Ha. reflexivity. }
  assert (Hrun : class_run digit_or_comma (d :: num ++ rest) = S (length num)).
  { simpl. rewrite Hdc, class_run_app by exact Hnum.
    destruct rest as [|a rest']; simpl; [lia|]. rewrite (Hrest a rest' eq_refl). lia. }
  rewrite extractFirstCurrency_scan_eq, (not_FREE l d)
    by first [exact Hd | unfold l; apply in_or_app; right; left; reflexivity].
  cbv zeta. rewrite bytes_of_string. unfold price_scan. rewrite Hk.
  destruct (Nat.eqb_spec (length cur) 0) as [E|_]; [destruct cur; [congruence | discriminate]|].
  assert (Hl : l !! length cur = Some d) by (unfold l; rewrite lookup_app_r, Nat.sub_diag by lia; reflexivity).
  rewrite Hl.
  assert (Hdrop : drop (length cur) l = d :: num ++ rest) by (unfold l; rewrite drop_app_length; reflexivity).
  rewrite Hdrop, Hrun.
  unfold slice. rewrite Nat.sub_0_r, drop_0, Hdrop.
  replace (length cur + S (length num) - length cur)%nat with (S (length num)) by lia.
  assert (Htake : take (S (length num)) (d :: num ++ rest) = d :: num)
    by (simpl; rewrite take_app_length; reflexivity).
  rewrite Htake, replace_all_strip.
  assert (Htcur : take (length cur) l = cur) by (unfold l; apply take_app_length).
  rewrite Htcur.
  unfold parse_uint. 
  assert (Hstrip : strip_commas (d :: num) = d :: strip_commas num).
  { simpl. rewrite bool_decide_false; [reflexivity|]. intros ->. discriminate. }
  rewrite Hstrip.
  change (String.eqb (String.string_of_list_ascii (d :: strip_commas num)) "") with false.
  cbv iota. rewrite String.list_ascii_of_string_of_list_ascii.
  rewrite <- Hstrip. rewrite parse_loop_digits.
  - unfold decimal_value. destruct (Z.leb _ _); reflexivity.
  - rewrite maxUint64_eq. lia.
  - apply strip_commas_digits. constructor; assumption.
Qed.

Lemma extractFirstCurrency_range s cur v :
  extractFirstCurrency s = Ok (cur, v) -> (0 <= v <= maxUint64)%Z.
Proof.
  unfold extractFirstCurrency. destruct (String.eqb s "FREE").
  { intros [= _ <-]. rewrite maxUint64_eq. lia. }
  destruct (Nat.ltb _ _); [|discriminate]. rewrite ParseUint_10_64.
  destruct (parse_uint _) as [value|] eqn:Hp; [|discriminate].
  intros [= _ <-]. exact (parse_uint_range _ _ Hp).
Qed.

(** C8: A non-empty non-digit prefix followed by a digit and a run of digits
    and commas: the prefix is the currency and the value is the decimal
    value of the digits, or the range error of [ParseUint] when it does not
    fit in 64 bits. *)
Theorem extractFirstCurrency_price (cur num rest : list ascii) (d : ascii) :
  cur <> [] ->
  Forall (fun a => is_digit a = false) cur ->
  is_digit d = true ->
  Forall (fun a => cc_mem digit_or_comma a = true) num ->
  (forall a rest', rest = a :: rest' -> cc_mem digit_or_comma a = false) ->
  extractFirstCurrency (String.string_of_list_ascii (cur ++ d :: num ++ rest)) =
    let digits := strip_commas (d :: num) in
    if (decimal_value digits <=? maxUint64)%Z
    then Ok (String.string_of_list_ascii cur, decimal_value digits)
    else Err (rangeError (String.string_of_list_ascii digits)).
Proof. apply extractFirstCurrency_digits. Qed.

(** C13: A price starting with a digit has no currency prefix: the format
    error. *)
Theorem extractFirstCurrency_no_currency (d : ascii) (rest : list ascii) :
  is_digit d = true ->
  extractFirstCurrency (String.string_of_list_ascii (d :: rest)) =
    Err (FmtError (String.append "invalid format or no valid price found "
                                 (String.string_of_list_ascii (d :: rest)))).
Proof.
  intros Hd. rewrite extractFirstCurrency_scan_eq, (not_FREE _ d) by first [exact Hd | left; reflexivity].
  cbv zeta. rewrite bytes_of_string. unfold price_scan. cbn [class_run].
  rewrite not_digit_is_digit, Hd. reflexivity.
Qed.

Lemma strip_commas_nil l : Forall (fun a => a = ","%char) l -> strip_commas l = [].
Proof. induction 1 as [|a l -> _ IH]; simpl; [reflexivity|]. exact IH. Qed.

(** C12: Without any digit: the format error, unless a comma follows the first
    byte, in which case the second group matches commas and [ParseUint]
    fails on the empty string. *)
Theorem extractFirstCurrency_no_digit (l : list ascii) :
  l <> [] ->
  Forall (fun a => is_digit a = false) l ->
  String.string_of_list_ascii l <> "FREE" ->
  extractFirstCurrency (String.string_of_list_ascii l) =
    if bool_decide (","%char ∈ tail l) then Err (syntaxError "")
    else Err (FmtError (String.append "invalid format or no valid price found "
                                      (String.string_of_list_ascii l))).
Proof.
  intros Hne Hnd Hfree.
  assert (Hnd' : Forall (fun a => cc_mem not_digit a = true) l).
  { eapply Forall_impl; [exact Hnd|]. intros a Ha. rewrite not_digit_is_digit, Ha. reflexivity. }
  assert (Hk : class_run not_digit l = length l).
  { pose proof (class_run_app not_digit l [] Hnd') as H. rewrite app_nil_r in H. simpl in H. lia. }
  rewrite extractFirstCurrency_scan_eq. rewrite (proj2 (String.eqb_neq _ _) Hfree).
  cbv zeta. rewrite bytes_of_string. unfold price_scan. rewrite Hk.
  destruct (Nat.eqb_spec (length l) 0) as [E|_]; [destruct l; [congruence | discriminate]|].
  rewrite (lookup_ge_None_2 l (length l)) by lia.
  set (f := fun j => bool_decide (l !! j = Some ","%char)).
  case_bool_decide as Hc.
  - destruct l as [|a l']; [congruence|]. cbn [tail] in Hc.
    apply list_elem_of_lookup in Hc as [i Hi].
    destruct (find_exists_some f (rev (seq 1 (length (a :: l') - 1))) (S i)) as [j Hj].
    + rewrite <- in_rev, in_seq. apply lookup_lt_Some in Hi. simpl. lia.
    + unfold f. apply bool_decide_eq_true. exact Hi.
    + rewrite Hj. apply find_some in Hj as [_ Hj]. unfold f in Hj. apply bool_decide_eq_true in Hj.
      unfold slice. replace (j + _ - j)%nat with (class_run digit_or_comma (drop j (a :: l'))) by lia.
      rewrite replace_all_strip, strip_commas_nil; [reflexivity|].
      pose proof (class_run_take digit_or_comma (drop j (a :: l'))) as Hdc.
      apply Forall_drop with (n := j), Forall_take with (n := class_run digit_or_comma (drop j (a :: l'))) in Hnd.
      eapply Forall_impl; [apply Forall_and; split; [exact Hnd | exact Hdc]|].
      intros x [Hx1 Hx2]. rewrite digit_or_comma_cases, Hx1 in Hx2.
      apply bool_decide_eq_true in Hx2. exact Hx2.
  - rewrite find_none_forall; [reflexivity|].
    intros j Hj. apply in_rev, in_seq in Hj. unfold f. apply bool_decide_eq_false. intros Hl.
    apply Hc. destruct l as [|a l']; [congruence|]. cbn [tail].
    apply list_elem_of_lookup. exists (j - 1)%nat. destruct j as [|j]; [lia|].
    rewrite Nat.sub_succ, Nat.sub_0_r. exact Hl.
Qed.

Lemma extractFirstCurrency_price_witness :
  extractFirstCurrency "$1,234" = Ok ("$", 1234%Z).
Proof.
  change "$1,234" with
    (String.string_of_list_ascii (["$"%char] ++ "1"%char :: [","; "2"; "3"; "4"]%char ++ [])).
  rewrite (extractFirstCurrency_price ["$"%char] [","; "2"; "3"; "4"]%char [] "1"%char).
  - reflexivity.
  - discriminate.
  - repeat constructor.
  - reflexivity.
  - repeat constructor.
  - intros a r H; discriminate.
Defined.

Lemma extractFirstCurrency_no_currency_witness :
  extractFirstCurrency "1234" =
    Err (FmtError "invalid format or no valid price found 1234").
Proof.
  change "1234" with (String.string_of_list_ascii ("1"%char :: ["2"; "3"; "4"]%char)).
  rewrite (extractFirstCurrency_no_currency "1"%char ["2"; "3"; "4"]%char); reflexivity.
Defined.

Lemma extractFirstCurrency_no_digit_witness :
  extractFirstCurrency "$" = Err (FmtError "invalid format or no valid price found $") /\
  extractFirstCurrency "$," = Err (NumError "ParseUint" "" ErrSyntax).
Proof.
  split.
  - change "$" with (String.string_of_list_ascii ["$"%char]).
    rewrite (extractFirstCurrency_no_digit ["$"%char]);
      [reflexivity | discriminate | repeat constructor | discriminate].
  - change "$," with (String.string_of_list_ascii ["$"; ","]%char).
    rewrite (extractFirstCurrency_no_digit ["$"; ","]%char);
      [reflexivity | discriminate | repeat constructor | discriminate].
Defined.

End Price.
