(* ===== verification/Fetch.v ===== *)
(** * Fetch: [fetchMoreProducts] of [src/scraper.go]

    One poll of the page.  The WebDriver is not modelled: a [page] is the
    list of answers the driver gives during one call, each of which may be
    an error ([FindElements] for the listing anchors, then per anchor
    [GetAttribute("href")], [FindElements] for the text spans and
    [GetAttribute("innerText")] per span).  [url.Parse] is a parameter of
    the Section, instantiated by [Url.Parse] in the examples.  The state is the [Processed] map, used through the
    [SeenSet] interface; the code's [gmap string bool], read with Go's
    zero value ([m .[ k ]]), is its instance.  A parse error of the URL
    makes the code dereference a nil [*url.URL]: the outcome [FetchPanic].

    The theorems, for every lawful seen-set: a successful fetch returns
    products whose paths are fresh and pairwise distinct and marks exactly
    those paths; every product has a uint64 price; when every listing can
    be read, the fetch refines the abstract deduplicating filter over a
    set of seen paths; equivalent seen-sets give the same fetch (a
    [Proper] instance for rewriting).  With [Url.Parse]: a listing listed
    again under another query string is skipped. *)

From S2P Require Import Prelude SeenSet Url ParseUint Price.

Module Fetch.
Import SeenSet Url ParseUint Price.

(** [type Product struct] (product.go). *)
Record product := Product {
  price : Z;
  currency : string;
  name : string;
  location : string;
  link : url
}.

(** The field [Price uint64]: a value of [0 .. 2^64-1]. *)
Definition product_wf (p : product) : Prop := (0 <= price p <= maxUint64)%Z.

#[export] Instance product_eq_dec : EqDecision product.
Proof. solve_decision. Defined.

(** [var product Product; product.Link = *u]. *)
Definition new_product (u : url) : product :=
  {| price := 0; currency := ""; name := ""; location := ""; link := u |}.

(** What the driver answers for one listing anchor: the [href] attribute,
    and the spans of the card with their [innerText]. *)
Record listing := Listing {
  href_attr : result string;
  item_container : result (list (result string))
}.

(** The answer of [i.Driver.FindElements] for the listing anchors. *)
Abbreviation page := (result (list listing)).

(** The key of [Processed]: [u.Path] of the product's link. *)
Definition product_path (p : product) : string := url_path (link p).

Inductive fetch_outcome :=
| Fetched (products : list product) (err : option go_error)
| FetchPanic.

(** ** The abstract Seen-Set and the invariant of [Processed] *)

(** The abstract contract of the Seen-Set filter (spec 4.2): go through
    the candidates in order, drop those whose path was seen, emit the
    others and add their paths. *)
Fixpoint dedup_batch (seen : gset string) (cands : list product) : list product * gset string :=
  match cands with
  | [] => ([], seen)
  | p :: rest =>
      if decide (product_path p ∈ seen) then dedup_batch seen rest
      else let '(out, seen') := dedup_batch ({[product_path p]} ∪ seen) rest in (p :: out, seen')
  end.

Section Fetch.
Variable url_parse : string -> result url.
Context {Seen : Type} {SS : SeenSet Seen}.

(** The loop [for i, v := range itemContainer] with its [switch i]. *)
Fixpoint fill_fields (i : nat) (spans : list (result string)) (p : product) : result product :=
  match spans with
  | [] => Ok p
  | Err e :: _ => Err e
  | Ok text :: rest =>
      match i with
      | 0 =>
          match extractFirstCurrency text with
          | Err e => Err e
          | Ok (cur, pr) =>
              fill_fields 1 rest
                {| price := pr; currency := cur; name := name p;
                   location := location p; link := link p |}
          end
      | 1 =>
          fill_fields 2 rest
            {| price := price p; currency := currency p; name := text;
               location := location p; link := link p |}
      | 2 =>
          fill_fields 3 rest
            {| price := price p; currency := currency p; name := name p;
               location := text; link := link p |}
      | _ => fill_fields (S i) rest p
      end
  end.

(** The loop [for _, v := range mktplcListings] with the products so far
    and the [Processed] map. *)
Fixpoint fetch_listings (ls : list listing) (products : list product)
    (processed : Seen) : fetch_outcome * Seen :=
  match ls with
  | [] => (Fetched products None, processed)
  | v :: rest =>
      match href_attr v with
      | Err e => (Fetched [] (Some e), processed)
      | Ok href =>
          match url_parse href with
          | Err _ => (FetchPanic, processed)
          | Ok u =>
              if seen_has processed (url_path u) then fetch_listings rest products processed
              else
                match item_container v with
                | Err e => (Fetched products (Some e), processed)
                | Ok spans =>
                    match fill_fields 0 spans (new_product u) with
                    | Err e => (Fetched products (Some e), processed)
                    | Ok p =>
                        fetch_listings rest (products ++ [p])
                          (seen_mark (url_path u) processed)
                    end
                end
          end
      end
  end.

(** [func (i *Scraper) fetchMoreProducts() ([]Product, error)]. *)
Definition fetchMoreProducts (pg : page) (processed : Seen) : fetch_outcome * Seen :=
  match pg with
  | Err e => (Fetched [] (Some e), processed)
  | Ok ls => fetch_listings ls [] processed
  end.

(** The product a listing yields when every answer of the driver for it
    is a success, regardless of [Processed]. *)
Definition read_listing (v : listing) : option product :=
  match href_attr v with
  | Err _ => None
  | Ok href =>
      match url_parse href with
      | Err _ => None
      | Ok u =>
          match item_container v with
          | Err _ => None
          | Ok spans =>
              match fill_fields 0 spans (new_product u) with
              | Ok p => Some p
              | Err _ => None
              end
          end
      end
  end.

End Fetch.

(** ** Example fixtures *)

(** The scenario of spec section 8: the same listing path under two query
    strings. *)
Definition bike_spans : list (result string) := [Ok "$50"; Ok "Bike"; Ok "Downtown"].
Definition bike_page : page :=
  Ok [Listing (Ok "https://example.com/marketplace/item/42?ref=feed") (Ok bike_spans);
      Listing (Ok "https://example.com/marketplace/item/42?ref=other") (Ok bike_spans)].
(** The product of a listing of the fixtures at [path] with the query
    string [q], as [url.Parse] reads its [href]. *)
Definition bike_at (path q : string) : product :=
  {| price := 50; currency := "$"; name := "Bike"; location := "Downtown";
     link := {| url_scheme := "https"; url_opaque := ""; url_user := None;
                url_host := "example.com"; url_path := path; url_raw_path := "";
                url_omit_host := false; url_force_query := false; url_raw_query := q;
                url_fragment := ""; url_raw_fragment := "" |} |}.
Definition bike : product := bike_at "/marketplace/item/42" "ref=feed".

(** ** Lemmas *)

Section FetchProofs.
Variable url_parse : string -> result url.
Context {Seen : Type} {SS : SeenSet Seen} {SL : SeenSetLaws Seen}.

Lemma fill_fields_link i spans p p' :
  fill_fields i spans p = Ok p' -> link p' = link p.
Proof.
  revert i p. induction spans as [|[text|e] spans IH]; intros i p H; simpl in H.
  - congruence.
  - destruct i as [|[|[|i]]]; try (apply IH in H; exact H).
    destruct (extractFirstCurrency text) as [[cur pr]|e]; [|discriminate].
    apply IH in H. exact H.
  - discriminate.
Qed.

Lemma read_listing_some v p :
  read_listing url_parse v = Some p ->
  exists href u spans, href_attr v = Ok href /\ url_parse href = Ok u /\
    item_container v = Ok spans /\ fill_fields 0 spans (new_product u) = Ok p /\
    product_path p = url_path u.
Proof.
  unfold read_listing.
  destruct (href_attr v) as [href|] eqn:Hh; [|discriminate].
  destruct (url_parse href) as [u|] eqn:Hu; [|discriminate].
  destruct (item_container v) as [spans|] eqn:Hs; [|discriminate].
  destruct (fill_fields 0 spans (new_product u)) as [q|] eqn:Hf; [|discriminate].
  intros [= <-]. exists href, u, spans. split_and!; auto.
  unfold product_path. erewrite fill_fields_link by eassumption. reflexivity.
Qed.

Lemma fetch_listings_refines ls : forall cands acc (proc : Seen) g,
  represents proc g ->
  Forall2 (fun v p => read_listing url_parse v = Some p) ls cands ->
  let '(out, seen') := dedup_batch g cands in
  exists proc', fetch_listings url_parse ls acc proc = (Fetched (acc ++ out) None, proc') /\
    represents proc' seen'.
Proof.
  induction ls as [|v ls IH]; intros cands acc proc g Hr Hrd;
    inversion Hrd as [|? p ? cands' Hv Hrest]; subst.
  - simpl. exists proc. rewrite app_nil_r. auto.
  - destruct (read_listing_some v p Hv) as (href & u & spans & Hh & Hu & Hs & Hf & Hp).
    simpl. rewrite Hh, Hu, Hr, Hp.
    destruct (decide (url_path u ∈ g)) as [Hin|Hin].
    + rewrite bool_decide_true by exact Hin. exact (IH cands' acc proc g Hr Hrest).
    + rewrite bool_decide_false by exact Hin. rewrite Hs, Hf.
      specialize (IH cands' (acc ++ [p]) _ _ (represents_mark proc g (url_path u) Hr) Hrest).
      destruct (dedup_batch _ cands') as [out seen'].
      destruct IH as (proc' & Hfe & Hrep). exists proc'.
      rewrite Hfe, <- app_assoc. auto.
Qed.

(** An outcome of the loop that adds no product. *)
Local Ltac nothing_added H :=
  injection H as <- <-; exists []; rewrite ?app_nil_r;
  split_and!; [constructor | constructor | intros ?; rewrite orb_false_r; reflexivity | eauto 10].

(** A newly marked path reads as marked, the others as before. *)
Lemma seen_has_mark_cons (proc : Seen) k0 k l :
  bool_decide (k0 = k) || seen_has proc k || bool_decide (k ∈ l) =
  seen_has proc k || bool_decide (k ∈ k0 :: l).
Proof.
  destruct (decide (k0 = k)) as [<-|Hk].
  - rewrite (bool_decide_true (k0 = k0)), (bool_decide_true (k0 ∈ k0 :: l))
      by (try apply elem_of_cons; auto).
    rewrite orb_true_r. reflexivity.
  - rewrite (bool_decide_false (k0 = k)) by exact Hk. cbn [orb]. f_equal. apply bool_decide_ext.
    rewrite elem_of_cons. split; [auto | intros [->|?]; [congruence | assumption]].
Qed.

Lemma fetch_listings_inv ls acc (proc : Seen) out proc' :
  fetch_listings url_parse ls acc proc = (out, proc') ->
  exists added,
    NoDup (product_path <$> added) /\
    Forall (fun p => seen_has proc (product_path p) = false) added /\
    (forall k, seen_has proc' k = seen_has proc k || bool_decide (k ∈ product_path <$> added)) /\
    (out = Fetched (acc ++ added) None \/
     (exists e, out = Fetched (acc ++ added) (Some e)) \/
     (exists e, out = Fetched [] (Some e)) \/ out = FetchPanic).
Proof.
  revert acc proc. induction ls as [|v ls IH]; intros acc proc H; simpl in H.
  - injection H as <- <-. exists []. rewrite app_nil_r.
    split_and!; [constructor | constructor | intros k; simpl; rewrite orb_false_r; reflexivity | left; reflexivity].
  - destruct (href_attr v) as [href|e].
    2:{ nothing_added H. }
    destruct (url_parse href) as [u|e].
    2:{ nothing_added H. }
    destruct (seen_has proc (url_path u)) eqn:Hseen.
    { exact (IH acc proc H). }
    destruct (item_container v) as [spans|e].
    2:{ nothing_added H. }
    destruct (fill_fields 0 spans (new_product u)) as [p|e] eqn:Hfill.
    2:{ nothing_added H. }
    apply fill_fields_link in Hfill. simpl in Hfill.
    assert (Hp : product_path p = url_path u) by (unfold product_path; rewrite Hfill; reflexivity).
    destruct (IH _ _ H) as (added & Hnd & Hfresh & Hpt & Hout).
    rewrite Forall_forall in Hfresh.
    assert (Hfresh' : forall q, q ∈ added ->
              product_path q <> url_path u /\ seen_has proc (product_path q) = false).
    { intros q Hq. specialize (Hfresh q Hq). rewrite seen_has_mark in Hfresh.
      apply orb_false_iff in Hfresh as [Hne Hq']. apply bool_decide_eq_false in Hne. auto. }
    exists (p :: added). split_and!.
    + simpl. constructor; [|exact Hnd].
      intros Hin. apply list_elem_of_fmap in Hin as (q & Hq & Hqin).
      destruct (Hfresh' q Hqin) as [Hne _]. congruence.
    + constructor; [rewrite Hp; exact Hseen|].
      apply Forall_forall. intros q Hq. apply Hfresh'. exact Hq.
    + intros k. rewrite Hpt, seen_has_mark, fmap_cons, Hp. apply seen_has_mark_cons.
    + rewrite <- app_assoc in Hout. exact Hout.
Qed.

(** Whatever the outcome, a path marked processed stays marked. *)
Lemma fetchMoreProducts_mono pg (proc : Seen) out proc' k :
  fetchMoreProducts url_parse pg proc = (out, proc') ->
  seen_has proc k = true -> seen_has proc' k = true.
Proof.
  destruct pg as [ls|e]; simpl; [|intros [= _ <-]; auto].
  intros H Hk. destruct (fetch_listings_inv _ _ _ _ _ H) as (added & _ & _ & Hpt & _).
  rewrite Hpt, Hk. reflexivity.
Qed.

(** ** Every product the fetch builds is a well-typed [Product] *)

Lemma fill_fields_wf i spans p p' :
  product_wf p -> fill_fields i spans p = Ok p' -> product_wf p'.
Proof.
  revert i p. induction spans as [|[text|e] spans IH]; intros i p Hp H; simpl in H.
  - congruence.
  - destruct i as [|[|[|i]]]; try (eapply IH; [|exact H]; exact Hp).
    destruct (extractFirstCurrency text) as [[cur pr]|e] eqn:Hx; [|discriminate].
    eapply IH; [|exact H]. exact (extractFirstCurrency_range _ _ _ Hx).
  - discriminate.
Qed.

Lemma fetch_listings_wf ls : forall acc (proc : Seen) ps e proc',
  Forall product_wf acc ->
  fetch_listings url_parse ls acc proc = (Fetched ps e, proc') -> Forall product_wf ps.
Proof.
  induction ls as [|v ls IH]; intros acc proc ps e proc' Hacc H; simpl in H.
  - congruence.
  - repeat (case_match; simplify_eq; eauto).
    eapply IH; [|exact H]. apply Forall_app. split; [exact Hacc|].
    constructor; [|constructor]. eapply fill_fields_wf; [|eassumption].
    unfold product_wf. simpl. rewrite maxUint64_eq. lia.
Qed.

Lemma fetchMoreProducts_wf pg (proc : Seen) ps e proc' :
  fetchMoreProducts url_parse pg proc = (Fetched ps e, proc') -> Forall product_wf ps.
Proof.
  destruct pg as [ls|e']; simpl; intros H.
  - exact (fetch_listings_wf ls [] proc ps e proc' (List.Forall_nil _) H).
  - injection H as <- _ _. constructor.
Qed.

(** The loop reads [Processed] only through [seen_has] and changes it
    only through [seen_mark]: equivalent seen-sets give the same outcome
    and equivalent seen-sets afterwards. *)
Lemma fetch_listings_equiv ls : forall acc (p1 p2 : Seen),
  p1 ≡ₛ p2 ->
  (fetch_listings url_parse ls acc p1).1 = (fetch_listings url_parse ls acc p2).1 /\
  (fetch_listings url_parse ls acc p1).2 ≡ₛ (fetch_listings url_parse ls acc p2).2.
Proof.
  induction ls as [|v ls IH]; intros acc p1 p2 E; simpl; [auto|].
  destruct (href_attr v) as [href|e]; [|auto]. destruct (url_parse href) as [u|e]; [|auto].
  rewrite (E (url_path u)). destruct (seen_has p2 (url_path u)); [auto|].
  destruct (item_container v) as [spans|e]; [|auto].
  destruct (fill_fields 0 spans (new_product u)) as [p|e]; [|auto].
  apply IH. rewrite E. reflexivity.
Qed.

Lemma fetchMoreProducts_equiv_pair pg (p1 p2 : Seen) :
  p1 ≡ₛ p2 ->
  (fetchMoreProducts url_parse pg p1).1 = (fetchMoreProducts url_parse pg p2).1 /\
  (fetchMoreProducts url_parse pg p1).2 ≡ₛ (fetchMoreProducts url_parse pg p2).2.
Proof. destruct pg; simpl; [apply fetch_listings_equiv | auto]. Qed.

(** A fetch that fails after some listings returns the products read so
    far: their paths were fresh and are now marked. *)
Lemma fetchMoreProducts_err_marked pg (proc : Seen) ps e proc' :
  fetchMoreProducts url_parse pg proc = (Fetched ps (Some e), proc') ->
  Forall (fun p => seen_has proc (product_path p) = false /\ seen_has proc' (product_path p) = true) ps.
Proof.
  destruct pg as [ls|e']; simpl; [|intros [= <- _ _]; constructor]. intros H.
  destruct (fetch_listings_inv _ _ _ _ _ H) as (added & _ & Hfr & Hpt & Hout).
  destruct Hout as [Hout|[[e' Hout]|[[e' Hout]|Hout]]]; try discriminate;
    injection Hout as Hps _; subst ps; [|constructor].
  apply Forall_forall. intros p Hp. split; [exact (proj1 (Forall_forall _ _) Hfr p Hp)|].
  rewrite Hpt, bool_decide_true; [apply orb_true_r | apply list_elem_of_fmap; eauto].
Qed.

(** ** Theorems *)

(** C5: A fetch that returns no error returns products whose paths were not
    in [Processed], pairwise distinct, and leaves in [Processed] exactly
    the old entries plus the returned paths. *)
Theorem fetchMoreProducts_fresh pg (proc : Seen) ps proc' :
  fetchMoreProducts url_parse pg proc = (Fetched ps None, proc') ->
  NoDup (product_path <$> ps) /\
  Forall (fun p => seen_has proc (product_path p) = false) ps /\
  (forall k, seen_has proc' k = seen_has proc k || bool_decide (k ∈ product_path <$> ps)).
Proof.
  destruct pg as [ls|e]; simpl; [|congruence]. intros H.
  destruct (fetch_listings_inv _ _ _ _ _ H) as (added & Hnd & Hfr & Hpt & Hout).
  destruct Hout as [Hout|[[e Hout]|[[e Hout]|Hout]]]; try discriminate.
  injection Hout as <-. auto.
Qed.

(** C6: Refinement: when every listing of the page can be read, the fetch
    over any lawful Seen-Set representing the set of paths [g] returns
    exactly what the abstract filter [dedup_batch] emits from [g], and its
    new Seen-Set represents the abstract set afterwards. *)
Theorem fetchMoreProducts_refines ls cands (proc : Seen) g :
  represents proc g ->
  Forall2 (fun v p => read_listing url_parse v = Some p) ls cands ->
  exists proc',
    fetchMoreProducts url_parse (Ok ls) proc = (Fetched (dedup_batch g cands).1 None, proc') /\
    represents proc' (dedup_batch g cands).2.
Proof.
  intros Hr Hrd. pose proof (fetch_listings_refines ls cands [] proc g Hr Hrd) as H.
  destruct (dedup_batch g cands) as [out seen']. exact H.
Qed.

End FetchProofs.

(** ** Listing URLs read by [url.Parse] *)

Section ParseFetch.
Context {Seen : Type} {SS : SeenSet Seen}.

(** C23: With [url.Parse] of [net/url], a listing whose [href] differs from
    a processed one only by its query string and fragment is skipped:
    the loop goes on with the next listing, whatever the driver answers
    for the card, and reads nothing more of it. *)
Theorem fetch_listings_query_variant_skipped r q frag c ls acc (proc : Seen) u :
  "?"%char ∉ r -> "#"%char ∉ r -> "#"%char ∉ q -> stringContainsCTLByte q = false ->
  (forall f, frag = Some f -> is_ok (unescape f EncodeFragment) = true) ->
  Parse (String.string_of_list_ascii r) = Ok u -> seen_has proc (url_path u) = true ->
  fetch_listings Parse
    (Listing (Ok (String.string_of_list_ascii
                    (r ++ "?"%char :: q ++ from_option (fun f => "#"%char :: f) [] frag))) c :: ls)
    acc proc = fetch_listings Parse ls acc proc.
Proof.
  intros Hr1 Hr2 Hq1 Hq2 Hf Hu Hs.
  destruct (Parse_href_path r q frag u Hr1 Hr2 Hq1 Hq2 Hf Hu) as (u' & Hu' & Hp).
  cbn [fetch_listings href_attr]. rewrite Hu', Hp, Hs. reflexivity.
Qed.

End ParseFetch.

(** [fetchMoreProducts] as a morphism of seen-sets, for setoid rewriting. *)
#[export] Instance fetchMoreProducts_proper {Seen} `{SeenSetLaws Seen} url_parse :
  Proper (eq ==> seen_equiv ==> prod_relation eq seen_equiv) (@fetchMoreProducts url_parse Seen _).
Proof. intros pg ? <- p1 p2 E. exact (fetchMoreProducts_equiv_pair url_parse pg p1 p2 E). Qed.

(** ** Examples *)

Lemma fetchMoreProducts_fresh_witness :
  NoDup (product_path <$> [bike]) /\
  Forall (fun p => seen_has (∅ : gmap string bool) (product_path p) = false) [bike] /\
  (forall k, seen_has (<["/marketplace/item/42" := true]> ∅ : gmap string bool) k =
             seen_has (∅ : gmap string bool) k || bool_decide (k ∈ product_path <$> [bike])).
Proof.
  apply (fetchMoreProducts_fresh Parse bike_page ∅ [bike]). vm_compute. reflexivity.
Defined.

Lemma fetchMoreProducts_refines_witness :
  exists proc' : gmap string bool,
    fetchMoreProducts Parse bike_page ∅ = (Fetched [bike] None, proc') /\
    represents proc' {["/marketplace/item/42"]}.
Proof.
  destruct (fetchMoreProducts_refines Parse
              [Listing (Ok "https://example.com/marketplace/item/42?ref=feed") (Ok bike_spans);
               Listing (Ok "https://example.com/marketplace/item/42?ref=other") (Ok bike_spans)]
              [bike; bike_at "/marketplace/item/42" "ref=other"]
              (∅ : gmap string bool) ∅) as (proc' & H1 & H2).
  - intros k. reflexivity.
  - repeat constructor.
  - exists proc'. split; [exact H1|]. intros k. rewrite H2. reflexivity.
Defined.

(** Spec section 8: the bike listed again under another query string is
    skipped once its path is processed. *)
Lemma fetch_listings_query_variant_skipped_witness :
  fetch_listings Parse [Listing (Ok "https://example.com/marketplace/item/42?ref=other") (Ok bike_spans)]
    [bike] (<["/marketplace/item/42" := true]> ∅ : gmap string bool) =
  fetch_listings Parse [] [bike] (<["/marketplace/item/42" := true]> ∅ : gmap string bool).
Proof.
  exact (fetch_listings_query_variant_skipped
           (String.list_ascii_of_string "https://example.com/marketplace/item/42")
           (String.list_ascii_of_string "ref=other") None (Ok bike_spans) [] [bike]
           (<["/marketplace/item/42" := true]> ∅ : gmap string bool)
           (link (bike_at "/marketplace/item/42" ""))
           ltac:(apply (bool_decide_eq_false (_ ∈ _)); reflexivity)
           ltac:(apply (bool_decide_eq_false (_ ∈ _)); reflexivity)
           ltac:(apply (bool_decide_eq_false (_ ∈ _)); reflexivity)
           eq_refl ltac:(discriminate) ltac:(vm_compute; reflexivity) eq_refl).
Defined.

End Fetch.
