(* ===== verification/Scraper.v ===== *)
(** * Scraper: the goroutine of [Start], the channel and the consumer

    [NewInstance] makes the [Processed] map and the channel
    [make(chan Product)] (capacity 0); [Start] runs a goroutine that loops
    forever on [select { case <-ctx.Done(): close(i.Products); default: ...}].
    The model is a labelled transition system on a global [state]: the
    goroutine's control point ([pc]), the map, the channel (its buffer,
    capacity and closed flag), whether [ctx] is cancelled, and two ghost
    histories, the products received by the consumer and the products of
    the successful fetches.  The events are a step of the goroutine (with
    the page the driver answers if the step fetches), a receive of the
    consumer and the cancellation.  A panic of the goroutine ends the whole
    program: no event is enabled afterwards. *)

From S2P Require Import Prelude SeenSet Url Fetch.

Module Scraper.
Import SeenSet Url Fetch.

(** Where the goroutine is. *)
Inductive pc :=
| PLoop
| PSend (pending : list product)
| PReturned
| PPanicked.

Record state := State {
  processed : gmap string bool;
  buffer : list product;
  capacity : nat;
  closed : bool;
  cancelled : bool;
  pc_of : pc;
  received : list product;
  fetched : list product
}.

Definition set_pc (c : pc) (s : state) : state :=
  State (processed s) (buffer s) (capacity s) (closed s) (cancelled s) c (received s) (fetched s).
Definition set_processed (m : gmap string bool) (s : state) : state :=
  State m (buffer s) (capacity s) (closed s) (cancelled s) (pc_of s) (received s) (fetched s).
Definition set_closed (s : state) : state :=
  State (processed s) (buffer s) (capacity s) true (cancelled s) (pc_of s) (received s) (fetched s).
Definition set_cancelled (s : state) : state :=
  State (processed s) (buffer s) (capacity s) (closed s) true (pc_of s) (received s) (fetched s).
Definition set_buffer (b : list product) (s : state) : state :=
  State (processed s) b (capacity s) (closed s) (cancelled s) (pc_of s) (received s) (fetched s).
Definition add_received (p : product) (s : state) : state :=
  State (processed s) (buffer s) (capacity s) (closed s) (cancelled s) (pc_of s)
    (received s ++ [p]) (fetched s).
Definition add_fetched (ps : list product) (s : state) : state :=
  State (processed s) (buffer s) (capacity s) (closed s) (cancelled s) (pc_of s)
    (received s) (fetched s ++ ps).

(** The state [NewInstance] returns, once [Start] has launched the
    goroutine: an empty map, an open channel of capacity [cap] (the code
    passes no capacity to [make]: [cap = 0]) and a live context. *)
Definition initial (cap : nat) : state :=
  State ∅ [] cap false false PLoop [] [].

Definition NewInstance_state : state := initial 0.

(** The products still to be sent by the goroutine. *)
Definition pending_of (c : pc) : list product :=
  match c with PSend l => l | _ => [] end.

Inductive event :=
| EvProducer (pg : page)
| EvRecv
| EvCancel.

Section Step.
Variable url_parse : string -> result url.

(** One step of the goroutine; [None] when it is blocked or gone.
    - At the top of the loop, [select] takes [ctx.Done()] when it is
      closed: [close(i.Products)] (a second [close] panics) and the loop
      goes on.  Otherwise, when [len(i.Products) < 32], the goroutine
      fetches: a panic of the fetch ends the program, an error is logged
      and the goroutine returns, an empty batch continues the loop, and a
      batch is sent product by product.
    - A send on a closed channel panics; otherwise it puts the product in
      the buffer when there is room, and blocks when there is none (a send
      on an unbuffered channel waits for a receiver, see [recv_step]). *)
Definition producer_step (pg : page) (s : state) : option state :=
  match pc_of s with
  | PLoop =>
      if cancelled s then
        if closed s then Some (set_pc PPanicked s) else Some (set_closed s)
      else if Nat.ltb (length (buffer s)) 32 then
        match fetchMoreProducts url_parse pg (processed s) with
        | (FetchPanic, m) => Some (set_pc PPanicked (set_processed m s))
        | (Fetched _ (Some _), m) => Some (set_pc PReturned (set_processed m s))
        | (Fetched [] None, m) => Some (set_processed m s)
        | (Fetched ps None, m) => Some (add_fetched ps (set_pc (PSend ps) (set_processed m s)))
        end
      else Some s
  | PSend [] => Some (set_pc PLoop s)
  | PSend (p :: rest) =>
      if closed s then Some (set_pc PPanicked s)
      else if Nat.ltb (length (buffer s)) (capacity s)
      then Some (set_pc (PSend rest) (set_buffer (buffer s ++ [p]) s))
      else None
  | PReturned | PPanicked => None
  end.

(** A receive [<-i.Products] of the consumer: the head of the buffer; on
    an empty unbuffered channel the value of a blocked sender; on an empty
    closed channel the zero value, with no state change; otherwise the
    receiver blocks. *)
Definition recv_step (s : state) : option state :=
  match buffer s with
  | p :: b => Some (add_received p (set_buffer b s))
  | [] =>
      match pc_of s with
      | PSend (p :: rest) =>
          if Nat.eqb (capacity s) 0 && negb (closed s)
          then Some (add_received p (set_pc (PSend rest) s))
          else None
      | _ => if closed s then Some s else None
      end
  end.

(** The whole program; after a panic nothing runs. *)
Definition sys_step (e : event) (s : state) : option state :=
  match pc_of s with
  | PPanicked => None
  | _ =>
      match e with
      | EvProducer pg => producer_step pg s
      | EvRecv => recv_step s
      | EvCancel => Some (set_cancelled s)
      end
  end.

(** Run a schedule of events, skipping the ones that are not enabled. *)
Fixpoint run (es : list event) (s : state) : state :=
  match es with
  | [] => s
  | e :: es' => run es' (default s (sys_step e s))
  end.

Inductive reachable (cap : nat) : state -> Prop :=
| reach_init : reachable cap (initial cap)
| reach_step e s s' : reachable cap s -> sys_step e s = Some s' -> reachable cap s'.

(** Any number of steps of the program, whatever the events. *)
Inductive steps : state -> state -> Prop :=
| steps_refl s : steps s s
| steps_cons e s s1 s2 : sys_step e s = Some s1 -> steps s1 s2 -> steps s s2.

End Step.

(** The invariant of the reachable states: what the consumer received,
    what is buffered and what the goroutine still has to send are, in
    this order, the products of the successful fetches; their paths are
    distinct and marked in [Processed]; the buffer respects the capacity;
    the channel is closed only after cancellation and only while the
    goroutine is at the top of its loop (or has crashed). *)
Record inv (s : state) : Prop := {
  inv_order : received s ++ buffer s ++ pending_of (pc_of s) = fetched s;
  inv_nodup : NoDup (product_path <$> fetched s);
  inv_marked : Forall (fun p => seen_has (processed s) (product_path p) = true) (fetched s);
  inv_bound : length (buffer s) <= capacity s;
  inv_closed : closed s = true -> cancelled s = true /\ (pc_of s = PLoop \/ pc_of s = PPanicked);
  inv_typed : Forall product_wf (fetched s)
}.

(** ** A consumer that keeps reading

    After [cancel()], a round of a consumer that keeps receiving is a
    receive followed by a step of the goroutine (whose page is not used:
    a cancelled goroutine fetches nothing more).  [drain_measure] bounds
    the rounds still needed before the goroutine crashes: the products it
    still has to send, the return to the top of the loop, the first and
    the second [close]. *)
Definition drain_round (pg : page) : list event := [EvRecv; EvProducer pg].

Definition drain_schedule (pg : page) (n : nat) : list event :=
  concat (replicate n (drain_round pg)).

Definition drain_measure (s : state) : nat :=
  match pc_of s with
  | PSend l => length l + 3
  | PLoop => if closed s then 1 else 2
  | PReturned | PPanicked => 0
  end.

(** ** Example schedules *)

Definition bike_schedule : list event :=
  [EvProducer bike_page; EvRecv; EvProducer bike_page; EvProducer bike_page; EvRecv].

Definition fetch_error_page : page := Err (DriverError "no such element").

Definition error_state : state :=
  run Parse [EvProducer fetch_error_page] NewInstance_state.

(** A page whose first listing has an [href] that [url.Parse] rejects. *)
Definition bad_href_page : page :=
  Ok [Listing (Ok "%zz") (Ok bike_spans)].

(** A page on which the bike is read and the card of the next listing
    fails to be found. *)
Definition partial_page : page :=
  Ok [Listing (Ok "https://example.com/marketplace/item/42?ref=feed") (Ok bike_spans);
      Listing (Ok "https://example.com/marketplace/item/43") (Err (DriverError "stale element reference"))].

(** ** Preservation of the invariant *)

Lemma inv_initial cap : inv (initial cap).
Proof. split; simpl; auto; try constructor; try lia; discriminate. Qed.

Section Proofs.
Variable url_parse : string -> result url.

Lemma nodup_app_fresh (old ps : list product) (m : gmap string bool) :
  NoDup (product_path <$> old) ->
  Forall (fun p => seen_has m (product_path p) = true) old ->
  NoDup (product_path <$> ps) ->
  Forall (fun p => seen_has m (product_path p) = false) ps ->
  NoDup (product_path <$> old ++ ps).
Proof.
  intros Hold Hm Hps Hfr. rewrite fmap_app. apply NoDup_app. split_and!; [exact Hold | | exact Hps].
  intros k Hk1 Hk2. apply list_elem_of_fmap in Hk1 as (p & -> & Hp).
  apply list_elem_of_fmap in Hk2 as (q & Hq & Hqin).
  rewrite Forall_forall in Hm, Hfr. specialize (Hm p Hp). specialize (Hfr q Hqin).
  rewrite <- Hq in Hfr. congruence.
Qed.

Lemma fetch_step_inv s pg ps m :
  inv s -> pc_of s = PLoop -> cancelled s = false ->
  fetchMoreProducts url_parse pg (processed s) = (Fetched ps None, m) ->
  inv (add_fetched ps (set_pc (PSend ps) (set_processed m s))).
Proof.
  intros [Hord Hnd Hmk Hb Hcl Hty] Hpc Hcan Hf.
  destruct pg as [ls|e]; simpl in Hf; [|discriminate].
  destruct (fetch_listings_inv url_parse _ _ _ _ _ Hf) as (added & Hnd' & Hfr & Hpt & Hout).
  destruct Hout as [Hout|[[e Hout]|[[e Hout]|Hout]]]; try discriminate.
  injection Hout as <-.
  split; cbn -[seen_has].
  - rewrite Hpc in Hord. simpl in Hord. rewrite <- Hord, !app_assoc, app_nil_r. reflexivity.
  - apply (nodup_app_fresh _ _ (processed s)); assumption.
  - apply Forall_app. split.
    + eapply Forall_impl; [exact Hmk|]. intros p Hp. rewrite Hpt, Hp. reflexivity.
    + apply Forall_forall. intros p Hp. rewrite Hpt. rewrite bool_decide_true; [apply orb_true_r|].
      apply list_elem_of_fmap. eauto.
  - exact Hb.
  - intros Hc. destruct (Hcl Hc) as [Hc' _]. congruence.
  - apply Forall_app. split; [exact Hty|].
    exact (fetch_listings_wf url_parse ls [] (processed s) ps None m (List.Forall_nil _) Hf).
Qed.

Lemma inv_set_processed s m :
  inv s -> (forall k, seen_has (processed s) k = true -> seen_has m k = true) ->
  inv (set_processed m s).
Proof.
  intros [Hord Hnd Hmk Hb Hcl Hty] Hm. split; cbn -[seen_has]; auto.
  eapply Forall_impl; [exact Hmk|]. intros p Hp. auto.
Qed.

Lemma inv_set_pc s c :
  inv s -> pending_of c = pending_of (pc_of s) ->
  (closed s = true -> c = PLoop \/ c = PPanicked) -> inv (set_pc c s).
Proof.
  intros [Hord Hnd Hmk Hb Hcl Hty] Hpend Hc. split; simpl; auto.
  - rewrite Hpend. exact Hord.
  - intros H. split; [apply Hcl, H | apply Hc, H].
Qed.

Lemma inv_not_closed s p rest : inv s -> pc_of s = PSend (p :: rest) -> closed s = false.
Proof.
  intros Hinv Hpc. destruct (closed s) eqn:Hc; [|reflexivity].
  destruct (inv_closed s Hinv Hc) as [_ [H|H]]; congruence.
Qed.

Lemma inv_loop_not_closed s : inv s -> cancelled s = false -> closed s = false.
Proof.
  intros Hinv Hcan. destruct (closed s) eqn:Hc; [|reflexivity].
  destruct (inv_closed s Hinv Hc) as [H _]. congruence.
Qed.

Lemma producer_step_inv s pg s' : inv s -> producer_step url_parse pg s = Some s' -> inv s'.
Proof.
  intros Hinv H. unfold producer_step in H.
  destruct (pc_of s) as [|[|p rest]| |] eqn:Hpc; try discriminate.
  - destruct (cancelled s) eqn:Hcan.
    + destruct (closed s) eqn:Hcl; injection H as <-.
      * apply inv_set_pc; rewrite ?Hpc; auto.
      * destruct Hinv as [Hord Hnd Hmk Hb Hc Hty]. split; simpl; auto.
    + assert (Hcl : closed s = false) by (apply inv_loop_not_closed; assumption).
      destruct (Nat.ltb _ 32); [|injection H as <-; exact Hinv].
      assert (Hmono : forall m out, fetchMoreProducts url_parse pg (processed s) = (out, m) ->
                inv (set_processed m s)).
      { intros m out Hf. apply inv_set_processed; [exact Hinv|].
        intros k. apply (fetchMoreProducts_mono url_parse _ _ _ _ _ Hf). }
      destruct (fetchMoreProducts url_parse pg (processed s)) as [[[|p0 ps] [e|]|] m] eqn:Hf;
        injection H as <-;
        try (apply inv_set_pc; [eapply Hmono; reflexivity | simpl; rewrite Hpc; reflexivity
                               | simpl; congruence]).
      * eapply Hmono; reflexivity.
      * apply fetch_step_inv with pg; assumption.
  - injection H as <-. apply inv_set_pc; [exact Hinv | rewrite Hpc; reflexivity |].
    intros Hc. destruct (inv_closed s Hinv Hc) as [_ [E|E]]; congruence.
  - rewrite (inv_not_closed s p rest Hinv Hpc) in H.
    destruct (Nat.ltb_spec (length (buffer s)) (capacity s)) as [Hroom|]; [|discriminate].
    injection H as <-. destruct Hinv as [Hord Hnd Hmk Hb Hc Hty]. split; simpl; auto.
    + rewrite Hpc in Hord. simpl in Hord. rewrite <- Hord, <- !app_assoc. reflexivity.
    + rewrite length_app. simpl. lia.
    + intros Hc'. rewrite (inv_not_closed s p rest) in Hc'; [discriminate | | exact Hpc].
      split; assumption.
Qed.

Lemma recv_step_inv s s' : inv s -> recv_step s = Some s' -> inv s'.
Proof.
  intros Hinv H. unfold recv_step in H.
  destruct (buffer s) as [|p b] eqn:Hbuf.
  - destruct (pc_of s) as [|[|p rest]| |] eqn:Hpc;
      try (destruct (closed s); [injection H as <-; exact Hinv | discriminate]).
    destruct (Nat.eqb (capacity s) 0 && negb (closed s)) eqn:Hc; [|discriminate].
    injection H as <-. destruct Hinv as [Hord Hnd Hmk Hb Hcl Hty]. split; simpl; auto.
    + rewrite Hpc, Hbuf in Hord. simpl in Hord. rewrite <- Hord, Hbuf, <- app_assoc. reflexivity.
    + intros Hc'. apply andb_true_iff in Hc as [_ Hc]. rewrite Hc' in Hc. discriminate.
  - injection H as <-. destruct Hinv as [Hord Hnd Hmk Hb Hcl Hty]. split; simpl; auto.
    + rewrite Hbuf in Hord. rewrite <- Hord, <- app_assoc. reflexivity.
    + rewrite Hbuf in Hb. simpl in Hb. lia.
Qed.

Lemma sys_step_inv e s s' : inv s -> sys_step url_parse e s = Some s' -> inv s'.
Proof.
  intros Hinv H. unfold sys_step in H.
  destruct (pc_of s) eqn:Hpc; [| | |discriminate];
    destruct e; try (eapply producer_step_inv; eassumption);
    try (eapply recv_step_inv; eassumption);
    injection H as <-; destruct Hinv as [Hord Hnd Hmk Hb Hcl Hty]; split; simpl; auto;
    intros Hc; destruct (Hcl Hc) as [_ Hp]; auto.
Qed.

Lemma reachable_inv cap s : reachable url_parse cap s -> inv s.
Proof. induction 1; [apply inv_initial | eapply sys_step_inv; eassumption]. Qed.

Lemma sys_step_capacity e s s' : sys_step url_parse e s = Some s' -> capacity s' = capacity s.
Proof.
  unfold sys_step, producer_step, recv_step. intros H.
  repeat (case_match; simplify_eq; try reflexivity).
Qed.

Lemma reachable_capacity cap s : reachable url_parse cap s -> capacity s = cap.
Proof.
  induction 1 as [|e s s' _ IH H]; [reflexivity|]. rewrite (sys_step_capacity e s s' H). exact IH.
Qed.

Lemma run_reachable cap es : forall s,
  reachable url_parse cap s -> reachable url_parse cap (run url_parse es s).
Proof.
  induction es as [|e es IH]; intros s Hs; simpl; [exact Hs|].
  apply IH. destruct (sys_step url_parse e s) as [s'|] eqn:E; simpl; [|exact Hs].
  eapply reach_step; eassumption.
Qed.

Lemma returned_step e s s' :
  pc_of s = PReturned -> closed s = false -> sys_step url_parse e s = Some s' ->
  pc_of s' = PReturned /\ closed s' = false.
Proof.
  intros Hpc Hcl. unfold sys_step, producer_step, recv_step. rewrite Hpc.
  destruct e; [discriminate | | intros [= <-]; auto].
  destruct (buffer s); [rewrite Hcl; discriminate | intros [= <-]; auto].
Qed.

(** Every state a run of steps leads to from a reachable state is reachable. *)
Lemma steps_reachable cap s s' :
  reachable url_parse cap s -> steps url_parse s s' -> reachable url_parse cap s'.
Proof. intros Hr Hs. induction Hs as [s|e s s1 s2 Hstep _ IH]; [exact Hr | apply IH; eapply reach_step; eassumption]. Qed.

(** The capacity-0 channel of [NewInstance] never buffers: the guard
    [len(i.Products) < 32] holds in every state reachable from it. *)
Lemma reachable_unbuffered s :
  reachable url_parse 0 s -> buffer s = [] /\ Nat.ltb (length (buffer s)) 32 = true.
Proof.
  intros H. pose proof (inv_bound s (reachable_inv 0 s H)) as Hb.
  rewrite (reachable_capacity 0 s H) in Hb.
  destruct (buffer s); [split; reflexivity | simpl in Hb; lia].
Qed.

(** ** Runs of the program *)

Lemma run_app es1 es2 s : run url_parse (es1 ++ es2) s = run url_parse es2 (run url_parse es1 s).
Proof. revert s. induction es1 as [|e es1 IH]; intros s; simpl; [reflexivity | apply IH]. Qed.

Lemma run_panicked es s : pc_of s = PPanicked -> run url_parse es s = s.
Proof.
  intros Hpc. induction es as [|e es IH]; simpl; [reflexivity|].
  unfold sys_step. rewrite Hpc. exact IH.
Qed.

Lemma sys_step_cancelled e s s' :
  sys_step url_parse e s = Some s' -> cancelled s = true -> cancelled s' = true.
Proof.
  unfold sys_step, producer_step, recv_step. intros H Hc.
  repeat (case_match; simplify_eq; try reflexivity; try assumption).
Qed.

Lemma run_inv es s : inv s -> inv (run url_parse es s) /\ (cancelled s = true -> cancelled (run url_parse es s) = true).
Proof.
  revert s. induction es as [|e es IH]; intros s Hinv; simpl; [auto|].
  destruct (sys_step url_parse e s) as [s'|] eqn:E; simpl; [|auto].
  destruct (IH s' (sys_step_inv e s s' Hinv E)) as [H1 H2].
  split; [exact H1 | intros Hc; apply H2; exact (sys_step_cancelled e s s' E Hc)].
Qed.

(** The last step of a draining round: either crashed, or not and the
    measure went down. *)
Local Ltac drain_finish :=
  first [left; split; reflexivity | right; split_and!; [discriminate | discriminate | cbn; lia]].

(** One round of the draining consumer after cancellation: the goroutine
    crashes on the second [close], or the measure decreases. *)
Lemma drain_round_progress pg s :
  inv s -> cancelled s = true -> pc_of s <> PReturned -> pc_of s <> PPanicked ->
  (pc_of (run url_parse (drain_round pg) s) = PPanicked /\ closed (run url_parse (drain_round pg) s) = true) \/
  (pc_of (run url_parse (drain_round pg) s) <> PReturned /\
   pc_of (run url_parse (drain_round pg) s) <> PPanicked /\
   drain_measure (run url_parse (drain_round pg) s) < drain_measure s).
Proof.
  intros Hinv Hcan Hret Hpan.
  pose proof (inv_bound s Hinv) as Hb.
  unfold drain_round, run, sys_step, producer_step, recv_step, drain_measure.
  destruct (pc_of s) as [|[|p rest]| |] eqn:Hpc; try congruence.
  - destruct (closed s) eqn:Hcl; destruct (buffer s) as [|b0 b] eqn:Hbuf;
      do 3 (rewrite ?Hpc, ?Hbuf, ?Hcl, ?Hcan; cbn); drain_finish.
  - assert (Hcl : closed s = false).
    { destruct (closed s) eqn:E; [|reflexivity]. destruct (inv_closed s Hinv E) as [_ [? | ?]]; congruence. }
    destruct (buffer s) as [|b0 b] eqn:Hbuf; do 3 (rewrite ?Hpc, ?Hbuf, ?Hcl; cbn); drain_finish.
  - pose proof (inv_not_closed s p rest Hinv Hpc) as Hcl.
    destruct (buffer s) as [|b0 b] eqn:Hbuf.
    + destruct (capacity s) as [|c] eqn:Hcap; [destruct rest as [|q r]|];
        do 3 (rewrite ?Hpc, ?Hbuf, ?Hcl, ?Hcap; cbn); drain_finish.
    + destruct (capacity s) as [|c] eqn:Hcap; [cbn in Hb; lia|].
      assert (Hlt : (length b <=? c) = true) by (apply Nat.leb_le; cbn in Hb; lia).
      do 3 (rewrite ?Hpc, ?Hbuf, ?Hcl, ?Hcap, ?Hlt; cbn); drain_finish.
Qed.

Lemma drain_schedule_S pg n : drain_schedule pg (S n) = drain_round pg ++ drain_schedule pg n.
Proof. reflexivity. Qed.

Lemma drain_reaches pg n : forall s,
  inv s -> cancelled s = true -> pc_of s <> PReturned -> pc_of s <> PPanicked ->
  drain_measure s <= n ->
  pc_of (run url_parse (drain_schedule pg n) s) = PPanicked /\
  closed (run url_parse (drain_schedule pg n) s) = true.
Proof.
  induction n as [|n IH]; intros s Hinv Hcan Hret Hpan Hm.
  - exfalso. unfold drain_measure in Hm. destruct (pc_of s) as [|l| |]; try congruence.
    + destruct (closed s); lia.
    + lia.
  - rewrite drain_schedule_S, run_app.
    destruct (run_inv (drain_round pg) s Hinv) as [Hinv1 Hcan1].
    destruct (drain_round_progress pg s Hinv Hcan Hret Hpan) as [[Hp Hc]|(Hr & Hp & Hlt)].
    + rewrite run_panicked by exact Hp. auto.
    + apply IH; auto. lia.
Qed.

(** Once the goroutine has returned, only the consumer moves: [Processed]
    is frozen and a receive moves the head of the buffer to the received
    products. *)
Lemma returned_steps s s' :
  pc_of s = PReturned -> steps url_parse s s' ->
  pc_of s' = PReturned /\ processed s' = processed s /\ received s' ++ buffer s' = received s ++ buffer s.
Proof.
  intros Hpc Hs. induction Hs as [s|e s s1 s2 Hstep _ IH]; [auto|].
  assert (H1 : pc_of s1 = PReturned /\ processed s1 = processed s /\
               received s1 ++ buffer s1 = received s ++ buffer s).
  { revert Hstep. unfold sys_step, producer_step, recv_step. rewrite Hpc.
    destruct e; [discriminate | | intros [= <-]; auto].
    destruct (buffer s) as [|p b] eqn:Hb; [destruct (closed s); [intros [= <-]; rewrite Hb; auto | discriminate]|].
    intros [= <-]. cbn. rewrite <- app_assoc. auto. }
  destruct H1 as (Hp1 & Hm1 & Hr1). destruct (IH Hp1) as (? & Hm2 & Hr2).
  split_and!; [assumption | congruence | congruence].
Qed.

(** ** Theorems *)

(** C2: Order: the consumer receives the products in the order the fetches
    returned them, none is lost or reordered; what it has not received
    yet is buffered or still to be sent, in order. *)
Theorem received_in_order cap s :
  reachable url_parse cap s ->
  received s ++ buffer s ++ pending_of (pc_of s) = fetched s.
Proof. intros H. exact (inv_order s (reachable_inv cap s H)). Qed.

(** C1: At most once: no listing path is ever received twice by the
    consumer, across all batches. *)
Theorem received_no_duplicate cap s :
  reachable url_parse cap s -> NoDup (product_path <$> received s).
Proof.
  intros H. destruct (reachable_inv cap s H) as [Hord Hnd _ _ _ _].
  rewrite <- Hord, fmap_app in Hnd. apply NoDup_app in Hnd as [Hnd _]. exact Hnd.
Qed.

(** C11: The channel is closed only after [ctx] is cancelled, and never while
    the goroutine is sending: no send happens on the closed channel. *)
Theorem closed_only_after_cancel cap s :
  reachable url_parse cap s -> closed s = true ->
  cancelled s = true /\ (pc_of s = PLoop \/ pc_of s = PPanicked).
Proof. intros H. exact (inv_closed s (reachable_inv cap s H)). Qed.

(** C3: After cancellation the loop closes the channel, and at the next
    iteration [ctx.Done()] is still ready: the second [close] panics and
    the program ends. *)
Theorem cancel_double_close s pg1 pg2 :
  cancelled s = true -> pc_of s = PLoop -> closed s = false ->
  exists s1 s2,
    sys_step url_parse (EvProducer pg1) s = Some s1 /\ closed s1 = true /\
    sys_step url_parse (EvProducer pg2) s1 = Some s2 /\ pc_of s2 = PPanicked.
Proof.
  intros Hcan Hpc Hcl. unfold sys_step, producer_step. rewrite Hpc, Hcan, Hcl.
  exists (set_closed s), (set_pc PPanicked (set_closed s)).
  split_and!; [reflexivity | reflexivity | | reflexivity].
  simpl. rewrite Hpc, Hcan. reflexivity.
Qed.

(** C4: After a fetch error the goroutine returns without closing the
    channel: whatever happens next the channel stays open, and once the
    buffer is empty every receive of the consumer blocks for ever. *)
Theorem returned_never_closed cap s s' :
  reachable url_parse cap s -> pc_of s = PReturned -> steps url_parse s s' ->
  pc_of s' = PReturned /\ closed s' = false /\ (buffer s' = [] -> recv_step s' = None).
Proof.
  intros Hr Hpc Hs.
  assert (Hcl : closed s = false).
  { destruct (closed s) eqn:E; [|reflexivity].
    destruct (inv_closed s (reachable_inv cap s Hr) E) as [_ [H|H]]; congruence. }
  clear Hr. induction Hs as [s|e s s1 s2 Hstep _ IH].
  - split_and!; auto. intros Hb. unfold recv_step. rewrite Hb, Hpc, Hcl. reflexivity.
  - destruct (returned_step e s s1 Hpc Hcl Hstep). auto.
Qed.


(** C17: Liveness of cancellation under a consumer that keeps reading:
    from any reachable state where [ctx] is cancelled and the goroutine
    still runs, at most [|pending| + 3] rounds of a receive and a step of
    the goroutine close the channel, and the goroutine then crashes on
    the second [close]. *)
Theorem cancel_drain_closes cap s pg :
  reachable url_parse cap s -> cancelled s = true ->
  pc_of s <> PReturned -> pc_of s <> PPanicked ->
  let s' := run url_parse (drain_schedule pg (length (pending_of (pc_of s)) + 3)) s in
  closed s' = true /\ pc_of s' = PPanicked.
Proof.
  intros Hr Hcan Hret Hpan. cbv zeta.
  destruct (drain_reaches pg (length (pending_of (pc_of s)) + 3) s (reachable_inv cap s Hr)
              Hcan Hret Hpan) as [Hp Hc]; [|auto].
  unfold drain_measure. destruct (pc_of s); simpl; try destruct (closed s); lia.
Qed.

(** C18: A listing whose [href] [url.Parse] rejects crashes the program:
    the code logs the error and dereferences the nil [*url.URL], instead
    of skipping the listing; afterwards no event is enabled. *)
Theorem url_parse_error_panics s v ls href e :
  pc_of s = PLoop -> cancelled s = false -> length (buffer s) < 32 ->
  href_attr v = Ok href -> url_parse href = Err e ->
  exists s', sys_step url_parse (EvProducer (Ok (v :: ls))) s = Some s' /\
    pc_of s' = PPanicked /\ forall ev, sys_step url_parse ev s' = None.
Proof.
  intros Hpc Hcan Hlen Hh Hu. unfold sys_step, producer_step. rewrite Hpc, Hcan.
  apply Nat.ltb_lt in Hlen. rewrite Hlen. cbn [fetchMoreProducts fetch_listings]. rewrite Hh, Hu.
  eexists. split_and!; [reflexivity | reflexivity | intros ev; reflexivity].
Qed.

(** C24: A fetch that fails after reading some listings of its batch
    (a card or a price that cannot be read) loses them for good: the
    goroutine returns, their paths are marked in [Processed], and in no
    later state has the consumer received a product with one of these
    paths. *)
Theorem fetch_error_loses_batch cap s pg ps e m :
  reachable url_parse cap s -> pc_of s = PLoop -> cancelled s = false -> length (buffer s) < 32 ->
  fetchMoreProducts url_parse pg (processed s) = (Fetched ps (Some e), m) ->
  exists s1, sys_step url_parse (EvProducer pg) s = Some s1 /\ pc_of s1 = PReturned /\
    forall s', steps url_parse s1 s' ->
      Forall (fun p => seen_has (processed s') (product_path p) = true /\
                       product_path p ∉ product_path <$> received s') ps.
Proof.
  intros Hr Hpc Hcan Hlen Hf. destruct (reachable_inv cap s Hr) as [Hord _ Hmk _ _ _].
  rewrite Hpc in Hord. cbn [pending_of] in Hord. rewrite app_nil_r in Hord.
  exists (set_pc PReturned (set_processed m s)).
  unfold sys_step, producer_step. rewrite Hpc, Hcan. apply Nat.ltb_lt in Hlen. rewrite Hlen, Hf.
  split; [destruct ps; reflexivity|]. split; [reflexivity|]. intros s' Hs.
  destruct (returned_steps _ s' (eq_refl : pc_of (set_pc PReturned (set_processed m s)) = PReturned) Hs)
    as (_ & Hm' & Hr'). cbn in Hm', Hr'.
  eapply Forall_impl; [exact (fetchMoreProducts_err_marked url_parse _ _ _ _ _ Hf)|].
  intros p [Hfresh Hmark]. rewrite Hm'. split; [exact Hmark|].
  intros Hin. apply list_elem_of_fmap in Hin as (q & Hq & Hqin).
  assert (Hqf : q ∈ fetched s) by (rewrite <- Hord, <- Hr'; apply elem_of_app; left; exact Hqin).
  rewrite Forall_forall in Hmk. specialize (Hmk q Hqf). rewrite <- Hq in Hmk. congruence.
Qed.

End Proofs.

#[export] Hint Resolve run_reachable reach_init : scraper.

(** ** The goroutine with the parser of [net/url] *)

(** C28: An [href] of a listing whose path holds a malformed percent
    escape ([/item/%zz], which [unescape] rejects) crashes the program on
    the first fetch that reaches it: [url.Parse] fails and the code
    dereferences the nil URL; afterwards no event is enabled. *)
Theorem bad_escape_href_panics s host p q c ls e :
  pc_of s = PLoop -> cancelled s = false -> length (buffer s) < 32 ->
  listing_href_ok host p q = true -> unescape ("/"%char :: p) EncodePath = Err e ->
  exists s', sys_step Parse (EvProducer (Ok (Listing (Ok (String.string_of_list_ascii
               (String.list_ascii_of_string "https://" ++ host ++ "/"%char :: p ++ "?"%char :: q))) c :: ls))) s
             = Some s' /\ pc_of s' = PPanicked /\ forall ev, sys_step Parse ev s' = None.
Proof.
  intros Hpc Hcan Hlen Hok He. pose proof (ok_path_listing host p q Hok) as E. rewrite He in E.
  destruct (Parse _) as [u|e'] eqn:HP; [discriminate E|].
  unfold sys_step, producer_step. rewrite Hpc, Hcan. apply Nat.ltb_lt in Hlen. rewrite Hlen.
  cbn [fetchMoreProducts fetch_listings href_attr]. rewrite HP.
  eexists. split_and!; [reflexivity | reflexivity | intros ev; reflexivity].
Qed.

(** ** Examples *)

Lemma received_in_order_witness :
  received (run Parse bike_schedule NewInstance_state) ++
  buffer (run Parse bike_schedule NewInstance_state) ++
  pending_of (pc_of (run Parse bike_schedule NewInstance_state)) =
  fetched (run Parse bike_schedule NewInstance_state).
Proof. apply (received_in_order Parse 0). auto with scraper. Defined.

Lemma received_no_duplicate_witness :
  NoDup (product_path <$> received (run Parse bike_schedule NewInstance_state)).
Proof. apply (received_no_duplicate Parse 0). auto with scraper. Defined.

Lemma closed_only_after_cancel_witness :
  cancelled (run Parse [EvCancel; EvProducer bike_page] NewInstance_state) = true /\
  (pc_of (run Parse [EvCancel; EvProducer bike_page] NewInstance_state) = PLoop \/
   pc_of (run Parse [EvCancel; EvProducer bike_page] NewInstance_state) = PPanicked).
Proof.
  apply (closed_only_after_cancel Parse 0).
  - auto with scraper.
  - vm_compute. reflexivity.
Defined.

Lemma cancel_double_close_witness :
  exists s1 s2,
    sys_step Parse (EvProducer bike_page)
      (run Parse [EvCancel] NewInstance_state) = Some s1 /\ closed s1 = true /\
    sys_step Parse (EvProducer bike_page) s1 = Some s2 /\ pc_of s2 = PPanicked.
Proof. apply cancel_double_close; vm_compute; reflexivity. Defined.

Lemma returned_never_closed_witness :
  pc_of error_state = PReturned /\ closed error_state = false /\
  (buffer error_state = [] -> recv_step error_state = None).
Proof.
  apply (returned_never_closed Parse 0 error_state error_state).
  - unfold error_state. auto with scraper.
  - vm_compute. reflexivity.
  - apply steps_refl.
Defined.

Lemma cancel_drain_closes_witness :
  closed (run Parse (drain_schedule bike_page 4)
            (run Parse [EvProducer bike_page; EvCancel] NewInstance_state)) = true /\
  pc_of (run Parse (drain_schedule bike_page 4)
           (run Parse [EvProducer bike_page; EvCancel] NewInstance_state)) = PPanicked.
Proof.
  apply (cancel_drain_closes Parse 0
           (run Parse [EvProducer bike_page; EvCancel] NewInstance_state) bike_page);
    [auto with scraper | vm_compute; reflexivity | vm_compute; discriminate | vm_compute; discriminate].
Defined.

Lemma url_parse_error_panics_witness :
  exists s', sys_step Parse (EvProducer bad_href_page) NewInstance_state = Some s' /\
    pc_of s' = PPanicked /\ forall ev, sys_step Parse ev s' = None.
Proof.
  apply (url_parse_error_panics Parse NewInstance_state
           (Listing (Ok "%zz") (Ok bike_spans)) [] "%zz" (UrlError "parse" "%zz" (EscapeError "%zz")));
    first [reflexivity | cbn; lia].
Defined.

Lemma fetch_error_loses_batch_witness :
  exists s1, sys_step Parse (EvProducer partial_page) NewInstance_state = Some s1 /\
    pc_of s1 = PReturned /\
    forall s', steps Parse s1 s' ->
      Forall (fun p => seen_has (processed s') (product_path p) = true /\
                       product_path p ∉ product_path <$> received s') [bike].
Proof.
  apply (fetch_error_loses_batch Parse 0 NewInstance_state partial_page [bike]
           (DriverError "stale element reference") (<["/marketplace/item/42" := true]> ∅));
    [auto with scraper | reflexivity | reflexivity | cbn; lia | vm_compute; reflexivity].
Defined.

Lemma bad_escape_href_panics_witness :
  exists s', sys_step Parse
               (EvProducer (Ok [Listing (Ok "https://example.com/marketplace/item/%zz?ref=feed") (Ok bike_spans)]))
               NewInstance_state = Some s' /\
    pc_of s' = PPanicked /\ forall ev, sys_step Parse ev s' = None.
Proof.
  exact (bad_escape_href_panics NewInstance_state (String.list_ascii_of_string "example.com")
           (String.list_ascii_of_string "marketplace/item/%zz") (String.list_ascii_of_string "ref=feed")
           (Ok bike_spans) [] (EscapeError "%zz")
           eq_refl eq_refl ltac:(cbn; lia) eq_refl eq_refl).
Defined.

End Scraper.
