(* ===== verification/Refinement.v ===== *)
(** * Refinement: the program implements the abstract pipeline

    The specification describes the scraper as a pipeline over an
    abstract Seen-Set (sections 4.2 and 4.3): each batch of new records is
    emitted in order, every record's identifier is fresh and distinct from
    the others of its batch, and the identifiers are added to the set.
    [abs_step] is that pipeline as a transition system, with a stutter
    step for the transitions that neither emit nor mark (sends, receives,
    cancellation, an empty batch).  Its state is the abstract Seen-Set and
    the sequence of emitted records.

    The refinement relation [abs_rel] reads the abstract Seen-Set off the
    Go map [Processed] ([SeenSet.represents]) and the emitted records off
    the ghost history [fetched] of [Scraper].  The theorem: every state
    the program reaches while the goroutine still runs is related to a
    state the abstract pipeline reaches.  It holds for every URL parser.
    It does not extend to a goroutine that returned after a fetch error
    or crashed: the listings read before the error are marked in
    [Processed] without being emitted ([Scraper.fetch_error_loses_batch]). *)

From S2P Require Import Prelude SeenSet Url Fetch Scraper.

Module Refinement.
Import SeenSet Url Fetch Scraper.

(** ** The abstract pipeline *)

Record abs_state := AbsState {
  abs_seen : gset string;
  abs_out : list product
}.

Inductive abs_step : abs_state -> abs_state -> Prop :=
| abs_stutter a : abs_step a a
| abs_batch a ps :
    NoDup (product_path <$> ps) ->
    Forall (fun p => product_path p ∉ abs_seen a) ps ->
    abs_step a (AbsState (abs_seen a ∪ list_to_set (product_path <$> ps)) (abs_out a ++ ps)).

Inductive abs_reachable : abs_state -> Prop :=
| abs_init : abs_reachable (AbsState ∅ [])
| abs_next a a' : abs_reachable a -> abs_step a a' -> abs_reachable a'.

(** ** The refinement relation *)

(** The goroutine is still running: it has neither returned nor crashed. *)
Definition live (s : state) : bool :=
  match pc_of s with PReturned | PPanicked => false | _ => true end.

Definition abs_rel (s : state) (a : abs_state) : Prop :=
  represents (processed s) (abs_seen a) /\ fetched s = abs_out a.

(** ** The abstract pipeline's invariant *)

(** In the abstract pipeline the Seen-Set is the set of the emitted
    identifiers, and no identifier is emitted twice. *)
Lemma abs_reachable_inv a :
  abs_reachable a ->
  NoDup (product_path <$> abs_out a) /\ abs_seen a = list_to_set (product_path <$> abs_out a).
Proof.
  induction 1 as [|a a' _ [Hnd Hseen] Hstep]; [split; [constructor | reflexivity]|].
  destruct Hstep as [a|a ps Hps Hfr]; [auto|]. cbn. rewrite fmap_app. split.
  - apply NoDup_app. split_and!; [exact Hnd | | exact Hps].
    intros k Hk1 Hk2. apply list_elem_of_fmap in Hk2 as (p & -> & Hp).
    rewrite Forall_forall in Hfr. apply (Hfr p Hp). rewrite Hseen. apply elem_of_list_to_set. exact Hk1.
  - rewrite Hseen, list_to_set_app_L. reflexivity.
Qed.

Section Simulation.
Variable url_parse : string -> result url.

(** A live state only comes from a live state. *)
Lemma step_live_back e s s' :
  sys_step url_parse e s = Some s' -> live s' = true -> live s = true.
Proof.
  unfold live. destruct (pc_of s) eqn:Hpc; try reflexivity;
    unfold sys_step, producer_step, recv_step; rewrite Hpc; [|discriminate].
  destruct e; [discriminate | |intros [= <-]; cbn; rewrite Hpc; discriminate].
  destruct (buffer s); [destruct (closed s); [intros [= <-]; rewrite Hpc; discriminate | discriminate]|].
  intros [= <-]. cbn. rewrite Hpc. discriminate.
Qed.

(** A step that leaves the goroutine running either changes neither
    [Processed] nor the history, or is a successful fetch. *)
Lemma step_frame e s s' :
  sys_step url_parse e s = Some s' -> live s' = true ->
  (processed s' = processed s /\ fetched s' = fetched s) \/
  exists pg ps, fetchMoreProducts url_parse pg (processed s) = (Fetched ps None, processed s') /\
    fetched s' = fetched s ++ ps.
Proof.
  unfold sys_step, producer_step, recv_step, live. intros H Hl.
  repeat (case_match; simplify_eq; cbn in *; try discriminate; try (left; split; reflexivity)).
  all: right; eexists _, _; split; [eassumption | rewrite ?app_nil_r; reflexivity].
Qed.

(** A successful fetch is a batch of the abstract pipeline. *)
Lemma fetch_batch pg (proc proc' : gmap string bool) ps g :
  fetchMoreProducts url_parse pg proc = (Fetched ps None, proc') -> represents proc g ->
  NoDup (product_path <$> ps) /\ Forall (fun p => product_path p ∉ g) ps /\
  represents proc' (g ∪ list_to_set (product_path <$> ps)).
Proof.
  destruct pg as [ls|e]; simpl; [|discriminate]. intros H Hr.
  destruct (fetch_listings_inv url_parse _ _ _ _ _ H) as (added & Hnd & Hfr & Hpt & Hout).
  destruct Hout as [Hout|[[e Hout]|[[e Hout]|Hout]]]; try discriminate. injection Hout as <-.
  split_and!; [exact Hnd| |].
  - eapply Forall_impl; [exact Hfr|]. intros p Hp Hin. cbv beta in Hp.
    rewrite Hr, bool_decide_true in Hp by exact Hin. discriminate.
  - intros k. rewrite Hpt, Hr. apply eq_bool_prop_intro.
    rewrite orb_True, !bool_decide_spec, elem_of_union, elem_of_list_to_set. reflexivity.
Qed.

(** The simulation diagram: a step of the program that leaves the
    goroutine running is matched by one step of the abstract pipeline. *)
Lemma sim_step e s s' a :
  abs_rel s a -> sys_step url_parse e s = Some s' -> live s' = true ->
  exists a', abs_step a a' /\ abs_rel s' a'.
Proof.
  intros [Hr Ho] Hstep Hl.
  destruct (step_frame e s s' Hstep Hl) as [[Hp Hf]|(pg & ps & Hfm & Hf)].
  - exists a. split; [constructor|]. split; [rewrite Hp; exact Hr | rewrite Hf; exact Ho].
  - destruct (fetch_batch pg _ _ ps _ Hfm Hr) as (Hnd & Hfr & Hr').
    exists (AbsState (abs_seen a ∪ list_to_set (product_path <$> ps)) (abs_out a ++ ps)).
    split; [apply abs_batch; assumption|]. split; [exact Hr' | cbn; rewrite Hf, Ho; reflexivity].
Qed.

Lemma abs_rel_initial cap : abs_rel (initial cap) (AbsState ∅ []).
Proof.
  split; [|reflexivity]. intros k. cbn. rewrite lookup_empty, bool_decide_false by set_solver.
  reflexivity.
Qed.

(** ** Theorem *)

(** C29: Refinement: every state the program reaches while the goroutine
    runs is related to a state the abstract pipeline of the specification
    reaches: [Processed] marks exactly the abstract Seen-Set and the
    products of the successful fetches are the records the pipeline
    emitted, batch by batch. *)
Theorem live_refines cap s :
  reachable url_parse cap s -> live s = true -> exists a, abs_reachable a /\ abs_rel s a.
Proof.
  induction 1 as [|e s s' _ IH Hstep]; intros Hl.
  - exists (AbsState ∅ []). split; [constructor | apply abs_rel_initial].
  - destruct (IH (step_live_back e s s' Hstep Hl)) as (a & Ha & Hrel).
    destruct (sim_step e s s' a Hrel Hstep Hl) as (a' & Hstep' & Hrel').
    exists a'. split; [eapply abs_next; eassumption | exact Hrel'].
Qed.

End Simulation.

(** ** Example *)

Lemma live_refines_witness :
  exists a, abs_reachable a /\ abs_rel (run Parse bike_schedule NewInstance_state) a.
Proof.
  apply (live_refines Parse 0); [auto with scraper | vm_compute; reflexivity].
Defined.

End Refinement.
