(* ===== verification/Session.v ===== *)
(** * Session: [NewInstance], [handleCookiesAndDialogue], [waitForElement]

    The browser set-up of [src/scraper.go].  The WebDriver is a [driver]
    record: the answers of [NewRemote], [MaximizeWindow] and [Get], of
    [FindElement] for an XPath at a given time, of [IsDisplayed] and of
    [Click], and the duration of one [FindElement] call.  Time is an
    explicit clock in milliseconds: [time.Now()] is the current value,
    [time.Sleep(500 * time.Millisecond)] adds 500.  The XPath strings of the
    code are the constructors of [xpath].

    [waitForElement] is a loop [for time.Now().Before(end)]; its model
    carries fuel, and the theorems show that the fuel [wait_fuel] is never
    exhausted (more fuel gives the same result), so the number of probes
    is bounded, and describe its timeout error.  For [NewInstance] they
    show that it fails whenever the Shop-local pop-up does not show up,
    and that the channel of the scraper it returns never buffers.  The
    clock is idealised ([IsDisplayed] takes no time, a sleep exactly
    500 ms), which bounds probes, not wall-clock time. *)

From S2P Require Import Prelude Url Fetch Scraper.
From stdpp Require Import pretty.

Module Session.
Import Url Fetch Scraper.

(** The XPath expressions of [handleCookiesAndDialogue]:
    - [XDeclineCookies]: [//div[@aria-label="Decline optional cookies" and @role="button" and @tabindex="0"]]
    - [XCloseSignIn]: [//div[@role='dialog']//div[@aria-label='Close' and @role='button']]
    - [XShopLocal]: [//div[@role='dialog' and .//div[@aria-label='Shop local']]//div[@aria-label='Close']] *)
Inductive xpath := XDeclineCookies | XCloseSignIn | XShopLocal.

#[export] Instance xpath_eq_dec : EqDecision xpath.
Proof. solve_decision. Defined.

(** A [selenium.WebElement] is a handle. *)
Abbreviation element := nat.

Record driver := Driver {
  new_remote : result unit;
  maximize_window : result unit;
  get_marketplace : result unit;
  find_element : xpath -> Z -> result element;
  is_displayed : element -> Z -> result bool;
  click : element -> result unit;
  probe_ms : Z
}.

(** The fractional seconds of a duration, [1 <= f <= 999] milliseconds:
    three digits with the trailing zeros dropped ([fmtFrac]). *)
Definition frac_string (f : Z) : string :=
  let d1 := (f / 100)%Z in let d2 := ((f / 10) mod 10)%Z in let d3 := (f mod 10)%Z in
  if (d3 =? 0)%Z then
    if (d2 =? 0)%Z then pretty d1 else String.append (pretty d1) (pretty d2)
  else String.append (pretty d1) (String.append (pretty d2) (pretty d3)).

(** [fmt.Errorf("... %v", timeout)] prints a [time.Duration] with
    [Duration.String], here for a whole number of milliseconds: ["0s"],
    ["500ms"] below a second, otherwise hours, minutes and seconds with
    the fraction of a second (["10s"], ["1.5s"], ["1m30s"], ["1h0m0s"]),
    a minus sign before a negative duration. *)
Definition duration_string (ms : Z) : string :=
  let u := Z.abs ms in
  String.append (if (ms <? 0)%Z then "-" else "")
    (if (u =? 0)%Z then "0s"
     else if (u <? 1000)%Z then String.append (pretty u) "ms"
     else
       String.append (if (0 <? u / 3600000)%Z then String.append (pretty (u / 3600000)%Z) "h" else "")
       (String.append (if (0 <? u / 60000)%Z then String.append (pretty ((u / 60000) mod 60)%Z) "m" else "")
       (String.append (pretty ((u / 1000) mod 60)%Z)
       (String.append (if (u mod 1000 =? 0)%Z then "" else String.append "." (frac_string (u mod 1000)))
          "s")))).

Definition wait_error (timeout : Z) : go_error :=
  FmtError (String.append "element not found or not visible after " (duration_string timeout)).

(** Enough iterations for the loop: one probe per 500 ms of the timeout,
    rounded up, plus the final test of the deadline. *)
Definition wait_fuel (timeout : Z) : nat := S (Z.to_nat ((timeout + 499) / 500)).

(** The timeout of the Shop-local pop-up, [10*time.Second]. *)
Definition shop_local_timeout : Z := 10000.

(** An example driver: every call succeeds, except that the Shop-local
    pop-up is never found; a [FindElement] takes 100 ms. *)
Definition no_popup_driver : driver :=
  {| new_remote := Ok tt; maximize_window := Ok tt; get_marketplace := Ok tt;
     find_element := fun xp _ =>
       match xp with
       | XShopLocal => Err (DriverError "no such element")
       | _ => Ok 1%nat
       end;
     is_displayed := fun _ _ => Ok true;
     click := fun _ => Ok tt;
     probe_ms := 100 |}.

(** A driver on which every call succeeds and the Shop-local pop-up is
    displayed at once. *)
Definition popup_driver : driver :=
  {| new_remote := Ok tt; maximize_window := Ok tt; get_marketplace := Ok tt;
     find_element := fun _ _ => Ok 1%nat;
     is_displayed := fun _ _ => Ok true;
     click := fun _ => Ok tt;
     probe_ms := 100 |}.

Section Session.
Variable d : driver.

(** [for time.Now().Before(end) { ... time.Sleep(500ms) }]; returns the
    result and the clock at the return. *)
Fixpoint wait_loop (fuel : nat) (xp : xpath) (timeout end_ now : Z) : result element * Z :=
  match fuel with
  | O => (Err (wait_error timeout), now)
  | S fuel' =>
      if (now <? end_)%Z then
        let t := (now + probe_ms d)%Z in
        match find_element d xp now with
        | Ok e =>
            match is_displayed d e t with
            | Ok true => (Ok e, t)
            | _ => wait_loop fuel' xp timeout end_ (t + 500)%Z
            end
        | Err _ => wait_loop fuel' xp timeout end_ (t + 500)%Z
        end
      else (Err (wait_error timeout), now)
  end.

(** [waitForElement(wd, xpath, timeout)] started at time [now]. *)
Definition waitForElement (xp : xpath) (timeout now : Z) : result element * Z :=
  wait_loop (wait_fuel timeout) xp timeout (now + timeout)%Z now.

(** Find a button and click it, each error returned as is; the
    [if button != nil] tests of the code always hold because
    [FindElement] reports a missing element as an error. *)
Definition find_and_click (xp : xpath) (now : Z) : result unit * Z :=
  let t := (now + probe_ms d)%Z in
  match find_element d xp now with
  | Err e => (Err e, t)
  | Ok b => (click d b, t)
  end.

(** [handleCookiesAndDialogue(driver)] started at time [now]. *)
Definition handleCookiesAndDialogue (now : Z) : result unit * Z :=
  match find_and_click XDeclineCookies now with
  | (Err e, t) => (Err e, t)
  | (Ok _, t) =>
      match find_and_click XCloseSignIn t with
      | (Err e, t) => (Err e, t)
      | (Ok _, t) =>
          match waitForElement XShopLocal shop_local_timeout t with
          | (Err e, t) => (Err e, t)
          | (Ok b, t) => (click d b, t)
          end
      end
  end.

(** [NewInstance(c)]: the driver calls in order, then the [Scraper] with
    an empty [Processed] map and the channel [make(chan Product)]. *)
Definition NewInstance (now : Z) : result state :=
  new_remote d ≫= fun _ =>
  maximize_window d ≫= fun _ =>
  get_marketplace d ≫= fun _ =>
  match (handleCookiesAndDialogue now).1 with
  | Err e => Err e
  | Ok _ => Ok NewInstance_state
  end.

(** ** Lemmas *)

Hypothesis probe_nonneg : (0 <= probe_ms d)%Z.

(** Fuel that covers the remaining time gives the same result as any
    larger fuel: each iteration advances the clock by at least 500 ms. *)
Lemma wait_loop_fuel xp timeout end_ : forall f1 f2 now,
  (end_ - now <= 500 * Z.of_nat f1)%Z -> (f1 <= f2)%nat ->
  wait_loop (S f1) xp timeout end_ now = wait_loop (S f2) xp timeout end_ now.
Proof.
  induction f1 as [|f1 IH]; intros f2 now Hle Hf.
  - cbn [wait_loop]. destruct (Z.ltb_spec now end_); [lia | reflexivity].
  - destruct f2 as [|f2]; [lia|]. cbn [wait_loop] in *.
    destruct (Z.ltb_spec now end_); [|reflexivity].
    assert (Hrec : forall now', (now + probe_ms d + 500 <= now')%Z ->
              wait_loop (S f1) xp timeout end_ now' = wait_loop (S f2) xp timeout end_ now')
      by (intros now' Hn; apply IH; lia).
    destruct (find_element d xp now) as [e|]; [destruct (is_displayed d e _) as [[]|]|];
      try reflexivity; apply Hrec; lia.
Qed.

Lemma wait_fuel_covers timeout :
  (0 <= timeout)%Z -> (timeout <= 500 * Z.of_nat (pred (wait_fuel timeout)))%Z.
Proof.
  intros Ht. unfold wait_fuel. cbn [pred]. rewrite Z2Nat.id by (apply Z.div_pos; lia).
  pose proof (Z.div_mod (timeout + 499) 500 ltac:(lia)).
  pose proof (Z.mod_pos_bound (timeout + 499) 500 ltac:(lia)). lia.
Qed.

Lemma wait_loop_never_visible fuel xp timeout end_ now0 :
  (forall t e, (now0 <= t)%Z -> find_element d xp t = Ok e ->
     is_displayed d e (t + probe_ms d)%Z <> Ok true) ->
  forall now, (now0 <= now)%Z -> (wait_loop fuel xp timeout end_ now).1 = Err (wait_error timeout).
Proof.
  intros Hnv. induction fuel as [|fuel IH]; intros now Hn; cbn [wait_loop]; [reflexivity|].
  destruct (now <? end_)%Z; [|reflexivity].
  destruct (find_element d xp now) as [e|] eqn:Hf; [|apply IH; lia].
  destruct (is_displayed d e _) as [[]|] eqn:Hd; try (apply IH; lia).
  exfalso. exact (Hnv now e Hn Hf Hd).
Qed.

(** ** Theorems *)

(** C15: [waitForElement] terminates: its loop never needs more than
    [wait_fuel timeout] iterations, i.e. at most one probe per 500 ms of
    the timeout rounded up; any larger fuel gives the same result. *)
Theorem waitForElement_terminates xp timeout now fuel :
  (0 <= timeout)%Z -> (wait_fuel timeout <= fuel)%nat ->
  wait_loop fuel xp timeout (now + timeout)%Z now = waitForElement xp timeout now.
Proof.
  intros Ht Hf. unfold waitForElement.
  pose proof (wait_fuel_covers timeout Ht) as Hc.
  destruct fuel as [|fuel]; [unfold wait_fuel in Hf; lia|].
  unfold wait_fuel in *. cbn [pred] in Hc.
  symmetry. apply wait_loop_fuel; [lia | lia].
Qed.

(** C16: When the Shop-local pop-up is never displayed, [NewInstance]
    fails with the timeout error of [waitForElement], even though every
    other call of the set-up succeeds. *)
Theorem NewInstance_requires_shop_local now b1 b2 :
  new_remote d = Ok tt -> maximize_window d = Ok tt -> get_marketplace d = Ok tt ->
  find_element d XDeclineCookies now = Ok b1 -> click d b1 = Ok tt ->
  find_element d XCloseSignIn (now + probe_ms d)%Z = Ok b2 -> click d b2 = Ok tt ->
  (forall t e, find_element d XShopLocal t = Ok e -> is_displayed d e (t + probe_ms d)%Z <> Ok true) ->
  NewInstance now = Err (wait_error shop_local_timeout).
Proof.
  intros H1 H2 H3 Hf1 Hc1 Hf2 Hc2 Hnv. unfold NewInstance. rewrite H1, H2, H3. simpl.
  unfold handleCookiesAndDialogue, find_and_click. rewrite Hf1, Hc1, Hf2, Hc2.
  destruct (waitForElement XShopLocal shop_local_timeout (now + probe_ms d + probe_ms d)%Z)
    as [r t] eqn:Hw.
  assert (Hr : r = Err (wait_error shop_local_timeout)).
  { change r with (r, t).1. rewrite <- Hw. unfold waitForElement.
    apply (wait_loop_never_visible _ _ _ _ (now + probe_ms d + probe_ms d)%Z);
      [intros t' e _; apply Hnv | lia]. }
  subst r. reflexivity.
Qed.

(** C10: The channel [NewInstance] makes, [make(chan Product)], is
    unbuffered: in every state the program reaches from the scraper
    [NewInstance] returns, whatever the URL parser and the schedule, the
    channel's buffer is empty, so the guard [len(i.Products) < 32] of
    [Start] always holds and never throttles the fetches. *)
Theorem unbuffered_len_check (url_parse : string -> result Url.url) now s0 s :
  NewInstance now = Ok s0 -> steps url_parse s0 s ->
  buffer s = [] /\ Nat.ltb (length (buffer s)) 32 = true.
Proof.
  unfold NewInstance. intros H Hs.
  destruct (new_remote d), (maximize_window d), (get_marketplace d); try discriminate. cbn in H.
  destruct (handleCookiesAndDialogue now).1; [|discriminate]. injection H as <-.
  apply (reachable_unbuffered url_parse). eapply steps_reachable; [apply reach_init | exact Hs].
Qed.

End Session.

(** ** Examples *)

Lemma waitForElement_terminates_witness :
  wait_loop no_popup_driver 40 XShopLocal shop_local_timeout (0 + shop_local_timeout)%Z 0 =
  waitForElement no_popup_driver XShopLocal shop_local_timeout 0.
Proof.
  apply (waitForElement_terminates no_popup_driver); [vm_compute; discriminate | vm_compute; discriminate | vm_compute; lia].
Defined.

Lemma NewInstance_requires_shop_local_witness :
  NewInstance no_popup_driver 0 =
    Err (FmtError "element not found or not visible after 10s").
Proof.
  rewrite (NewInstance_requires_shop_local no_popup_driver ltac:(vm_compute; discriminate) 0 1 1);
    try reflexivity.
  intros t e H. discriminate H.
Defined.

(** A fetch and a receive after the set-up with the pop-up shown. *)
Lemma unbuffered_len_check_witness :
  buffer (run Parse [EvProducer bike_page; EvRecv] NewInstance_state) = [] /\
  Nat.ltb (length (buffer (run Parse [EvProducer bike_page; EvRecv] NewInstance_state))) 32 = true.
Proof.
  apply (unbuffered_len_check popup_driver Parse 0 NewInstance_state); [vm_compute; reflexivity|].
  eapply (steps_cons Parse (EvProducer bike_page)); [reflexivity|].
  eapply (steps_cons Parse EvRecv); [reflexivity|]. apply steps_refl.
Defined.

End Session.
