(* ===== verification/Test.v ===== *)
(** * Test: the scenario of [TestNewInstance] ([src/scraper_test.go])

    The test starts the ChromeDriver service, builds a scraper with
    [NewInstance], starts its goroutine, receives one listing, prints it,
    cancels the context and stops the service.  This file composes the
    models of [Session] (the set-up), [Fetch] and [Scraper] (the goroutine
    and the channel) into that scenario.  The test's main goroutine blocks
    in [<-scraper.Products]; while it waits only the scraper goroutine
    runs, fetching once per page the driver answers ([wait_recv]).  The
    service calls are the answers of a [test_env] record; printing is not
    modelled.

    The theorems give the outcome of the test when the set-up succeeds and
    the first fetch returns a batch, or the first fetches return empty
    batches and a later one a batch, and what the scraper goroutine does
    once the test has cancelled: with a batch of one product it crashes on
    the second [close] after three steps, with a longer batch it stays
    blocked on its send for ever, since nobody receives any more; and
    that the test blocks for ever when the first fetch fails. *)

From S2P Require Import Prelude SeenSet Url Fetch Scraper Session.

Module Test.
Import SeenSet Url Fetch Scraper Session.

(** The answers of [selenium.NewChromeDriverService] and [service.Stop]. *)
Record test_env := TestEnv {
  start_service : result unit;
  stop_service : result unit
}.

(** How the test ends. *)
Inductive test_outcome :=
| TestFatal (e : go_error)              (** [log.Fatal] or [t.Fatal] *)
| TestPanicked (e : go_error)           (** [panic(err)] after [NewInstance] *)
| TestCrashed (s : state)               (** the scraper goroutine panicked *)
| TestBlocked (s : state)               (** [<-scraper.Products] never returns *)
| TestWaiting (s : state)               (** not received within the pages given *)
| TestDone (s : state).                 (** received, cancelled, service stopped *)

(** How the receive of the test ends. *)
Inductive recv_result :=
| Received (s : state)
| RecvCrashed (s : state)
| RecvBlocked (s : state)
| RecvWaiting (s : state).

Section Test.
Variable url_parse : string -> result url.

(** [listing := <-scraper.Products]: the receive when it is enabled;
    otherwise one step of the scraper goroutine with the next page. *)
Fixpoint wait_recv (pgs : list page) (s : state) : recv_result :=
  match pc_of s with
  | PPanicked => RecvCrashed s
  | _ =>
      match recv_step s with
      | Some s' => Received s'
      | None =>
          match pgs with
          | [] => RecvWaiting s
          | pg :: pgs' =>
              match producer_step url_parse pg s with
              | Some s1 => wait_recv pgs' s1
              | None => RecvBlocked s
              end
          end
      end
  end.

(** [func TestNewInstance(t *testing.T)] with the driver [d], the clock
    [now] at [NewInstance] and the pages of the fetches. *)
Definition TestNewInstance (env : test_env) (d : driver) (now : Z) (pgs : list page)
    : test_outcome :=
  match start_service env with
  | Err e => TestFatal e
  | Ok _ =>
      match Session.NewInstance d now with
      | Err e => TestPanicked e
      | Ok s0 =>
          match wait_recv pgs s0 with
          | RecvCrashed s => TestCrashed s
          | RecvBlocked s => TestBlocked s
          | RecvWaiting s => TestWaiting s
          | Received s1 =>
              let s2 := set_cancelled s1 in
              match stop_service env with
              | Err e => TestFatal e
              | Ok _ => TestDone s2
              end
          end
      end
  end.

End Test.

(** ** Example environment *)

Definition ok_env : test_env := TestEnv (Ok tt) (Ok tt).

(** Two listings with distinct paths. *)
Definition two_bikes_page : page :=
  Ok [Listing (Ok "https://example.com/marketplace/item/42?ref=feed") (Ok bike_spans);
      Listing (Ok "https://example.com/marketplace/item/43") (Ok bike_spans)].

Section TestProofs.
Variable url_parse : string -> result url.

Lemma wait_recv_first_batch pg pgs p rest m :
  fetchMoreProducts url_parse pg (∅ : gmap string bool) = (Fetched (p :: rest) None, m) ->
  wait_recv url_parse (pg :: pgs) NewInstance_state =
    Received (add_received p (set_pc (PSend rest) (add_fetched (p :: rest)
               (set_pc (PSend (p :: rest)) (set_processed m NewInstance_state))))).
Proof.
  intros Hf. cbn [wait_recv pc_of NewInstance_state initial recv_step buffer].
  unfold producer_step. cbn [pc_of NewInstance_state initial cancelled buffer length Nat.ltb Nat.leb processed].
  rewrite Hf. destruct pgs; reflexivity.
Qed.

(** Fetches that return no product, before anything was processed, leave
    the goroutine at the top of its loop with nothing to receive. *)
Lemma wait_recv_empties empties pgs s :
  pc_of s = PLoop -> cancelled s = false -> closed s = false -> buffer s = [] -> processed s = ∅ ->
  Forall (fun pg => fetchMoreProducts url_parse pg (∅ : gmap string bool) = (Fetched [] None, ∅)) empties ->
  wait_recv url_parse (empties ++ pgs) s = wait_recv url_parse pgs s.
Proof.
  destruct s as [proc buf cap cl can c rcv fch]; cbn. intros -> -> -> -> ->.
  induction 1 as [|pg empties Hpg _ IH]; [reflexivity|].
  cbn [app wait_recv pc_of recv_step buffer closed].
  unfold producer_step. cbn [pc_of cancelled buffer length Nat.ltb Nat.leb processed].
  rewrite Hpg. exact IH.
Qed.

(** ** Theorems *)

(** C19: After the test has cancelled, with nobody receiving any more: if
    the batch had more products the goroutine is blocked on its send for
    ever (no step of it is enabled, the channel is never closed); if it had
    one, three steps of the goroutine return to the top of the loop, close
    the channel and panic on the second [close]. *)
Theorem TestNewInstance_aftermath s rest :
  pc_of s = PSend rest -> cancelled s = true -> closed s = false ->
  capacity s = 0 -> buffer s = [] ->
  match rest with
  | [] => forall pg1 pg2 pg3,
      pc_of (run url_parse [EvProducer pg1; EvProducer pg2; EvProducer pg3] s) = PPanicked /\
      closed (run url_parse [EvProducer pg1; EvProducer pg2; EvProducer pg3] s) = true
  | _ :: _ => forall pg, sys_step url_parse (EvProducer pg) s = None
  end.
Proof.
  destruct s as [proc buf cap cl can c rcv fch]; cbn. intros -> -> -> -> ->.
  destruct rest as [|q r]; [intros pg1 pg2 pg3; split|intros pg]; reflexivity.
Qed.

(** C25: The test receives a listing, also when the first fetches of the
    goroutine (any number of them, none included) find no new listing
    (pages with no card yet, each an empty batch that the loop skips
    with [continue]): the test receives the first product of
    the first non-empty batch and cancels with the rest still to send. *)
Theorem TestNewInstance_receives_after_empty env d now empties pg pgs p rest m :
  start_service env = Ok tt -> stop_service env = Ok tt ->
  Session.NewInstance d now = Ok NewInstance_state ->
  Forall (fun pg => fetchMoreProducts url_parse pg (∅ : gmap string bool) = (Fetched [] None, ∅)) empties ->
  fetchMoreProducts url_parse pg (∅ : gmap string bool) = (Fetched (p :: rest) None, m) ->
  exists s, TestNewInstance url_parse env d now (empties ++ pg :: pgs) = TestDone s /\
    received s = [p] /\ fetched s = p :: rest /\ pc_of s = PSend rest /\ cancelled s = true.
Proof.
  intros Hs Ht Hn He Hf. unfold TestNewInstance. rewrite Hs, Hn.
  rewrite (wait_recv_empties empties (pg :: pgs) NewInstance_state eq_refl eq_refl eq_refl eq_refl eq_refl He).
  rewrite (wait_recv_first_batch pg pgs p rest m Hf), Ht.
  eexists. split; [reflexivity|]. split_and!; reflexivity.
Qed.

(** C30: When the first fetch of the goroutine fails (the listings cannot
    be found, or a card or a price cannot be read), the goroutine returns
    without closing the channel and [<-scraper.Products] in the test
    never returns: the test hangs until Go's test timeout, with the
    channel open. *)
Theorem TestNewInstance_first_fetch_error env d now pg pg' pgs ps e m :
  start_service env = Ok tt ->
  Session.NewInstance d now = Ok NewInstance_state ->
  fetchMoreProducts url_parse pg (∅ : gmap string bool) = (Fetched ps (Some e), m) ->
  exists s, TestNewInstance url_parse env d now (pg :: pg' :: pgs) = TestBlocked s /\
    pc_of s = PReturned /\ closed s = false /\ received s = [].
Proof.
  intros Hs Hn Hf. unfold TestNewInstance. rewrite Hs, Hn.
  cbn [wait_recv pc_of NewInstance_state initial recv_step buffer].
  unfold producer_step. cbn [pc_of NewInstance_state initial cancelled buffer length Nat.ltb Nat.leb processed].
  rewrite Hf. destruct ps; cbn; eexists; split_and!; reflexivity.
Qed.

End TestProofs.

(** ** Examples *)

Lemma TestNewInstance_aftermath_witness :
  sys_step Parse (EvProducer bike_page)
    (set_cancelled (add_received bike (set_pc (PSend [bike]) NewInstance_state))) = None.
Proof.
  exact (TestNewInstance_aftermath Parse
           (set_cancelled (add_received bike (set_pc (PSend [bike]) NewInstance_state))) [bike]
           eq_refl eq_refl eq_refl eq_refl eq_refl bike_page).
Defined.

(** The test run on a page with a single new listing: the goroutine, once
    cancelled, crashes on the double [close]. *)
Lemma TestNewInstance_one_listing :
  exists s, TestNewInstance Parse ok_env popup_driver 0 [bike_page] = TestDone s /\
    pc_of (run Parse [EvProducer bike_page; EvProducer bike_page; EvProducer bike_page] s)
      = PPanicked.
Proof. eexists. split; [vm_compute; reflexivity | vm_compute; reflexivity]. Qed.

(** The test fails when the Shop-local pop-up does not appear. *)
Lemma TestNewInstance_no_popup :
  TestNewInstance Parse ok_env no_popup_driver 0 [bike_page] =
    TestPanicked (FmtError "element not found or not visible after 10s").
Proof. vm_compute. reflexivity. Qed.

(** A first page with no listing yet, then the page of the bike. *)
Lemma TestNewInstance_receives_after_empty_witness :
  exists s, TestNewInstance Parse ok_env popup_driver 0 ([Ok []] ++ [bike_page]) = TestDone s /\
    received s = [bike] /\ fetched s = [bike] /\ pc_of s = PSend [] /\ cancelled s = true.
Proof.
  apply (TestNewInstance_receives_after_empty Parse ok_env popup_driver 0 [Ok []] bike_page [] bike []
           (<["/marketplace/item/42" := true]> ∅)); [reflexivity | reflexivity | vm_compute; reflexivity | |].
  - constructor; [vm_compute; reflexivity | constructor].
  - vm_compute. reflexivity.
Defined.

(** The first page's second card cannot be read: the bike is lost and
    the test blocks. *)
Lemma TestNewInstance_first_fetch_error_witness :
  exists s, TestNewInstance Parse ok_env popup_driver 0 [partial_page; bike_page] = TestBlocked s /\
    pc_of s = PReturned /\ closed s = false /\ received s = [].
Proof.
  apply (TestNewInstance_first_fetch_error Parse ok_env popup_driver 0 partial_page bike_page [] [bike]
           (DriverError "stale element reference") (<["/marketplace/item/42" := true]> ∅));
    [reflexivity | vm_compute; reflexivity | vm_compute; reflexivity].
Defined.

End Test.
